(** * LPC spritesheet generator API: cache keys, cache tiers and compositing

    A shallow embedding of the server side of the generator
    ([api/src/cache.js], [api/src/constants.js], [api/src/renderer.js],
    [api/src/admin.js] and the [/api/generate] and [/api/generate-batch]
    handlers of [api/server.js]) together with the properties of its
    cache-resolution protocol and of its layer compositing.

    Conventions of the embedding:
    - JavaScript strings are [string]s (their UTF-8 bytes), buffers are lists
      of bytes; z positions are integers, as the generator emits them, so
      numbers are [Z];
    - a property that may be absent from a request object is an [option],
      [None] standing for [undefined]; an element of an array of definitions
      is an [option], [None] standing for [null];
    - [async] functions are state transformers over a [World] (cache
      directory, in-memory cache, clock) that either return or throw; every
      access to a store that reads, lists or changes entries is appended to
      the [trace] of the world, so that a property can say which stores a
      request touched;
    - a call of [fs] that fails may still have changed the directory: a
      write opens (creates or truncates) its entry before it writes;
    - the builtins of the host (collation, image decoding, PNG encoding,
      alpha blending) are the fields of the class [Runtime];
    - console output and the render-time header are left out.

    The first part holds the definitions, the second part the properties. *)

From Stdlib Require Import ZArith List String Ascii Lia Permutation Sorted.
From Stdlib Require Import DecimalString DecimalZ DecimalPos.
From stdpp Require Import base option gmap strings list.

Local Open Scope Z_scope.

(** ** SHA-256 (FIPS 180-4), as used through [crypto.createHash('sha256')] *)

Module SHA256.

Definition mask32 : Z := 0xFFFFFFFF.
Definition add32 (a b : Z) : Z := Z.land (a + b) mask32.
Definition not32 (a : Z) : Z := Z.lxor a mask32.
Definition rotr (n x : Z) : Z :=
  Z.land (Z.lor (Z.shiftr x n) (Z.shiftl x (32 - n))) mask32.
Definition shr (n x : Z) : Z := Z.shiftr x n.

Definition Ch (x y z : Z) : Z := Z.lxor (Z.land x y) (Z.land (not32 x) z).
Definition Maj (x y z : Z) : Z :=
  Z.lxor (Z.lxor (Z.land x y) (Z.land x z)) (Z.land y z).
Definition bsig0 (x : Z) : Z := Z.lxor (Z.lxor (rotr 2 x) (rotr 13 x)) (rotr 22 x).
Definition bsig1 (x : Z) : Z := Z.lxor (Z.lxor (rotr 6 x) (rotr 11 x)) (rotr 25 x).
Definition ssig0 (x : Z) : Z := Z.lxor (Z.lxor (rotr 7 x) (rotr 18 x)) (shr 3 x).
Definition ssig1 (x : Z) : Z := Z.lxor (Z.lxor (rotr 17 x) (rotr 19 x)) (shr 10 x).

(** The constants are fractional parts of roots of the first primes: the
    first 32 bits of the cube roots of the first 64 primes for the round
    constants, of the square roots of the first 8 primes for the initial
    hash value. *)
Definition is_prime (n : nat) : bool :=
  (2 <=? n)%nat && forallb (fun d => negb (n mod d =? 0)%nat) (seq 2 (n - 2)).

Definition primes (n : nat) : list Z :=
  map Z.of_nat (firstn n (List.filter is_prime (seq 2 310))).

(** The largest [r] below [2 ^ bits] above [acc] with [r ^ 3 <= n]. *)
Fixpoint cube_root (bits : nat) (n acc : Z) : Z :=
  match bits with
  | O => acc
  | S b =>
      let c := acc + 2 ^ Z.of_nat b in
      if c * c * c <=? n then cube_root b n c else cube_root b n acc
  end.

Definition K : list Z :=
  Eval vm_compute in
    map (fun p => Z.land (cube_root 36 (p * 2 ^ 96) 0) mask32) (primes 64).

Definition H0 : list Z :=
  Eval vm_compute in
    map (fun p => Z.land (Z.sqrt (p * 2 ^ 64)) mask32) (primes 8).

(** Big-endian encoding of [x] on [n] bytes. *)
Fixpoint be_bytes (n : nat) (x : Z) : list Z :=
  match n with
  | O => []
  | S n' => Z.land (Z.shiftr x (8 * Z.of_nat n')) 0xFF :: be_bytes n' x
  end.

(** Padding: a [1] bit, zeros up to 56 mod 64, then the bit length. *)
Definition pad (msg : list Z) : list Z :=
  let len := Z.of_nat (List.length msg) in
  let zeros := Z.to_nat ((55 - len) mod 64) in
  msg ++ 0x80 :: List.repeat 0 zeros ++ be_bytes 8 (8 * len).

Fixpoint words (n : nat) (bs : list Z) : list Z :=
  match n, bs with
  | S n', b0 :: b1 :: b2 :: b3 :: rest =>
      (Z.lor (Z.shiftl b0 24) (Z.lor (Z.shiftl b1 16) (Z.lor (Z.shiftl b2 8) b3)))
        :: words n' rest
  | _, _ => []
  end.

Fixpoint blocks (n : nat) (bs : list Z) : list (list Z) :=
  match n with
  | O => []
  | S n' => words 16 (firstn 64 bs) :: blocks n' (skipn 64 bs)
  end.

(** Message schedule: [w] holds W_0 .. W_(t-1); extend it by [n] words. *)
Fixpoint schedule (n : nat) (w : list Z) : list Z :=
  match n with
  | O => w
  | S n' =>
      let t := List.length w in
      let at_ (k : nat) := nth (t - k) w 0 in
      schedule n'
        (w ++ [add32 (add32 (ssig1 (at_ 2%nat)) (at_ 7%nat))
                     (add32 (ssig0 (at_ 15%nat)) (at_ 16%nat))])
  end.

Definition round (st : list Z) (kw : Z * Z) : list Z :=
  match st with
  | [a; b; c; d; e; f; g; h] =>
      let t1 := add32 (add32 (add32 h (bsig1 e)) (add32 (Ch e f g) (fst kw))) (snd kw) in
      let t2 := add32 (bsig0 a) (Maj a b c) in
      [add32 t1 t2; a; b; c; add32 d t1; e; f; g]
  | _ => st
  end.

Definition compress (h : list Z) (block : list Z) : list Z :=
  let w := schedule 48 block in
  let st := fold_left round (combine K w) h in
  map (fun p => add32 (fst p) (snd p)) (combine h st).

Definition digest (msg : list Z) : list Z :=
  let padded := pad msg in
  fold_left compress (blocks (List.length padded / 64) padded) H0.

Definition hex_digit (d : Z) : ascii :=
  ascii_of_N (Z.to_N (if d <? 10 then 48 + d else 87 + d)).

Fixpoint hex_nibbles (n : nat) (x : Z) : string :=
  match n with
  | O => EmptyString
  | S n' => String (hex_digit (Z.land (Z.shiftr x (4 * Z.of_nat n')) 0xF)) (hex_nibbles n' x)
  end.

Definition bytes_of_string (s : string) : list Z :=
  map (fun c => Z.of_N (N_of_ascii c)) (list_ascii_of_string s).

(** [createHash('sha256').update(s).digest('hex')] *)
Definition hex (s : string) : string :=
  fold_right (fun w acc => hex_nibbles 8 w +:+ acc) EmptyString
             (digest (bytes_of_string s)).

End SHA256.

(** ** Values exchanged with the host *)

Definition Buffer : Type := list Byte.byte.

(** Errors that the code throws or receives from [fs]. *)
Inductive Errno := ENOENT | EACCES | EIO | ENOSPC | EISDIR.

Inductive JsError :=
| InvalidLayerDefinition
    (* new Error('Invalid layer definition: missing bodyTypeName or layers array') *)
| TypeError (msg : string)
| SystemError (code : Errno) (path : string).

Definition errno_name (c : Errno) : string :=
  match c with
  | ENOENT => "ENOENT" | EACCES => "EACCES" | EIO => "EIO"
  | ENOSPC => "ENOSPC" | EISDIR => "EISDIR"
  end.

(** [err.message] *)
Definition message (e : JsError) : string :=
  match e with
  | InvalidLayerDefinition =>
      "Invalid layer definition: missing bodyTypeName or layers array"
  | TypeError msg => msg
  | SystemError c p => errno_name c +:+ ": " +:+ p
  end.

Inductive Outcome (A : Type) :=
| Return (a : A)
| Throw (e : JsError).
Arguments Return {A} a.
Arguments Throw {A} e.

(** ** Request data: [{ bodyTypeName, layers: [{fileName, zPos, variant}] }] *)

Record Layer := mkLayer {
  fileName : string;
  zPos : option Z;          (* [None]: no numeric zPos (undefined) *)
  variant : option string;  (* [None]: undefined *)
}.

Record LayerDefinition := mkDef {
  bodyTypeName : string;             (* the empty string is falsy *)
  layers : option (list Layer);      (* [None]: missing, not an array *)
}.

(** ** [Array.prototype.sort(comparefn)]

    The language requires the sort to be stable; for a consistent
    comparator the result is then the unique stable sorted arrangement, which
    insertion from the right produces.  A comparator result that is not
    positive keeps the earlier element first. *)

Section ArraySort.
Context {A : Type} (comparefn : A -> A -> Z).

Fixpoint sort_insert (x : A) (l : list A) : list A :=
  match l with
  | [] => [x]
  | y :: l' => if 0 <? comparefn x y then y :: sort_insert x l' else x :: l
  end.

Definition Array_sort (l : list A) : list A := fold_right sort_insert [] l.
End ArraySort.

(** ** [JSON.stringify] on the objects the code serialises *)

Module JSON.

Definition dquote : ascii := ascii_of_nat 34.
Definition backslash : ascii := ascii_of_nat 92.

(** One character of QuoteJSONString. *)
Definition quoteChar (c : ascii) : string :=
  let n := Z.of_N (N_of_ascii c) in
  if n =? 8 then "\b"
  else if n =? 9 then "\t"
  else if n =? 10 then "\n"
  else if n =? 12 then "\f"
  else if n =? 13 then "\r"
  else if n =? 34 then String backslash (String dquote EmptyString)
  else if n =? 92 then String backslash (String backslash EmptyString)
  else if n <? 32 then "\u" +:+ SHA256.hex_nibbles 4 n
  else String c EmptyString.

Fixpoint escape (s : string) : string :=
  match s with
  | EmptyString => EmptyString
  | String c s' => quoteChar c +:+ escape s'
  end.

Definition quote (s : string) : string :=
  String dquote (escape s +:+ String dquote EmptyString).

(** Number::toString on an integer value. *)
Definition number (z : Z) : string := NilZero.string_of_int (Z.to_int z).

(** [,"key":] followed by the value, or nothing for an undefined value. *)
Definition member {A : Type} (key : string) (show : A -> string) (v : option A) : string :=
  match v with
  | Some a => "," +:+ quote key +:+ ":" +:+ show a
  | None => EmptyString
  end.

(** [{fileName, zPos, variant}] *)
Definition layer (l : Layer) : string :=
  "{" +:+ quote "fileName" +:+ ":" +:+ quote (fileName l)
      +:+ member "zPos" number (zPos l)
      +:+ member "variant" quote (variant l) +:+ "}".

Fixpoint elements (ls : list Layer) : string :=
  match ls with
  | [] => EmptyString
  | [l] => layer l
  | l :: ls' => layer l +:+ "," +:+ elements ls'
  end.

(** [JSON.stringify({ bodyTypeName, layers })] *)
Definition stringify (bodyTypeName : string) (layers : list Layer) : string :=
  "{" +:+ quote "bodyTypeName" +:+ ":" +:+ quote bodyTypeName
      +:+ "," +:+ quote "layers" +:+ ":[" +:+ elements layers +:+ "]}".

End JSON.

(** ** Images and the canvas *)

Record Pixel := mkPixel { red : Z; green : Z; blue : Z; alpha : Z }.

Definition transparent : Pixel := mkPixel 0 0 0 0.
Definition opaque (p : Pixel) : Prop := alpha p = 255.

Record Image := mkImage {
  iwidth : Z;
  iheight : Z;
  ipixel : Z -> Z -> Pixel;
}.

Record Canvas := mkCanvas {
  width : Z;
  height : Z;
  pixel : Z -> Z -> Pixel;
}.

(** ** The host's builtins *)

Class Runtime := {
  (** [String.prototype.localeCompare] *)
  localeCompare : string -> string -> Z;
  (** [loadImage(path.join(__dirname, '..', ...segments))]; [None] when the
      promise rejects *)
  loadImage : list string -> option Image;
  (** [canvas.toBuffer('image/png')] *)
  toBuffer : Canvas -> Buffer;
  (** source-over compositing of one pixel onto another *)
  composite : Pixel -> Pixel -> Pixel;
}.

(** What the canvas library guarantees of source-over blending. *)
Class RuntimeLaws (R : Runtime) := {
  composite_opaque : forall src dst, opaque src -> composite src dst = src;
  composite_clear : forall src dst, alpha src = 0 -> composite src dst = dst;
}.

(** What a collation guarantees: it is a total preorder on strings. *)
Class CollationLaws (R : Runtime) := {
  localeCompare_total : forall a b, 0 < localeCompare a b -> localeCompare b a <= 0;
  localeCompare_trans :
    forall a b c, localeCompare a b <= 0 -> localeCompare b c <= 0 ->
                  localeCompare a c <= 0;
}.

(** ** [api/src/constants.js] *)

Definition FRAME_SIZE : Z := 64.

Definition ANIMATION_OFFSETS : list (string * Z) :=
  [ ("spellcast", 0);
    ("thrust", 4 * FRAME_SIZE);
    ("walk", 8 * FRAME_SIZE);
    ("slash", 12 * FRAME_SIZE);
    ("shoot", 16 * FRAME_SIZE);
    ("hurt", 20 * FRAME_SIZE);
    ("climb", 21 * FRAME_SIZE);
    ("idle", 22 * FRAME_SIZE);
    ("jump", 26 * FRAME_SIZE);
    ("sit", 30 * FRAME_SIZE);
    ("emote", 34 * FRAME_SIZE);
    ("run", 38 * FRAME_SIZE);
    ("combat_idle", 42 * FRAME_SIZE);
    ("backslash", 46 * FRAME_SIZE);
    ("halfslash", 50 * FRAME_SIZE) ]%string.

Definition SHEET_WIDTH : Z := 832.
Definition SHEET_HEIGHT : Z := 3456.

(** ** [api/src/cache.js]: the cache key *)

Section CacheKey.
Context `{R : Runtime}.

(** The comparator [(a, b) => a.fileName.localeCompare(b.fileName)]. *)
Definition byFileName (a b : Layer) : Z := localeCompare (fileName a) (fileName b).

Definition generateCacheKey (bodyTypeName : string) (layers : option (list Layer))
  : Outcome string :=
  match layers with
  | None => Throw (TypeError "layers is not iterable")
  | Some layers =>
      let sortedLayers := Array_sort byFileName layers in
      let json := JSON.stringify bodyTypeName sortedLayers in
      Return (SHA256.hex json)
  end.

End CacheKey.

(** The entry of a key in the cache directory: [<hash>.png]. *)
Definition getCachePath (hash : string) : string := hash +:+ ".png".

(** ** [api/src/renderer.js] *)

(** [s.split(sep)] for a one-character separator. *)
Fixpoint split (sep : ascii) (s : string) : list string :=
  match s with
  | EmptyString => [EmptyString]
  | String c s' =>
      if Ascii.eqb c sep then EmptyString :: split sep s'
      else match split sep s' with
           | w :: ws => String c w :: ws
           | [] => [String c EmptyString]
           end
  end.

(** [parts.join(sep)] *)
Fixpoint join (sep : string) (parts : list string) : string :=
  match parts with
  | [] => EmptyString
  | [w] => w
  | w :: ws => w +:+ sep +:+ join sep ws
  end.

(** [a - b] on values that may not be numbers: [None] is NaN. *)
Definition js_sub (a b : option Z) : option Z :=
  match a, b with
  | Some x, Some y => Some (x - y)
  | _, _ => None
  end.

(** The sort reads a NaN comparator result as [+0]. *)
Definition nan_to_zero (v : option Z) : Z := default 0 v.

(** The comparator [(a, b) => a.zPos - b.zPos]. *)
Definition byZPos (a b : Layer) : Z := nan_to_zero (js_sub (zPos a) (zPos b)).

Definition createCanvas (w h : Z) : Canvas := mkCanvas w h (fun _ _ => transparent).

Definition in_rect (x y x0 y0 w h : Z) : bool :=
  (x0 <=? x) && (x <? x0 + w) && (y0 <=? y) && (y <? y0 + h).

Definition clearRect (c : Canvas) (x0 y0 w h : Z) : Canvas :=
  mkCanvas (width c) (height c)
    (fun x y => if in_rect x y x0 y0 w h then transparent else pixel c x y).

Section Renderer.
Context `{R : Runtime}.

(** [ctx.drawImage(img, dx, dy)]: the image is blended onto the part of the
    canvas it covers; the canvas keeps its size. *)
Definition drawImage (c : Canvas) (img : Image) (dx dy : Z) : Canvas :=
  mkCanvas (width c) (height c)
    (fun x y =>
       if in_rect x y 0 0 (width c) (height c)
          && in_rect x y dx dy (iwidth img) (iheight img)
       then composite (ipixel img (x - dx) (y - dy)) (pixel c x y)
       else pixel c x y).

(** The segments after [__dirname/..] of the sprite of a layer for one
    animation: [spritesheets/<basePath>/<animName>/<filename>]. *)
Definition spritePath (layer : Layer) (animName : string) : list string :=
  let pathParts := split "/" (fileName layer) in
  let filename := List.last pathParts EmptyString in
  let basePath := join "/" (removelast pathParts) in
  ["spritesheets"%string; basePath; animName; filename].

(** The body of the inner loop, with its [try]/[catch]: a sprite that does
    not load is skipped. *)
Definition drawLayer (animName : string) (yPos : Z) (canvas : Canvas) (layer : Layer)
  : Canvas :=
  match loadImage (spritePath layer animName) with
  | Some img => drawImage canvas img 0 yPos
  | None => canvas
  end.

Definition drawRow (sortedLayers : list Layer) (canvas : Canvas) (row : string * Z)
  : Canvas :=
  fold_left (drawLayer (fst row) (snd row)) sortedLayers canvas.

Definition generateSpritesheet (layerDefinition : LayerDefinition) : Outcome Canvas :=
  match String.eqb (bodyTypeName layerDefinition) EmptyString,
        layers layerDefinition with
  | false, Some layers =>
      let canvas := createCanvas SHEET_WIDTH SHEET_HEIGHT in
      let canvas := clearRect canvas 0 0 SHEET_WIDTH SHEET_HEIGHT in
      let sortedLayers := Array_sort byZPos layers in
      Return (fold_left (drawRow sortedLayers) ANIMATION_OFFSETS canvas)
  | _, _ => Throw InvalidLayerDefinition
  end.

End Renderer.

(** ** The world of the server: cache directory, memory cache, clock *)

(** The cache directory [api/cache]; entries are named relative to it. *)
Record Disk := mkDisk {
  dir_exists : bool;
  files : gmap string Buffer;
  faults : gmap string Errno;          (* entries whose access fails, and how *)
  write_fault : option Errno;          (* set when the medium refuses changes *)
  write_breaks : option (nat * Errno); (* set when a write breaks off: after how
                                          many bytes, and how *)
}.

Definition readFile (d : Disk) (p : string) : Errno + Buffer :=
  if dir_exists d then
    match faults d !! p with
    | Some e => inl e
    | None => match files d !! p with
              | Some buf => inr buf
              | None => inl ENOENT
              end
    end
  else inl ENOENT.

(** [fs.mkdir(dir, { recursive: true })] *)
Definition mkdir (d : Disk) : Errno + Disk :=
  if dir_exists d then inr d
  else match write_fault d with
       | Some e => inl e
       | None => inr (mkDisk true (files d) (faults d) (write_fault d) (write_breaks d))
       end.

(** [fs.writeFile(p, buf)]: the entry is opened with flag ['w'], which
    creates or truncates it, and the bytes are written then.  A call that
    fails answers its error and the directory as the attempt left it: as it
    was when the open failed; when the write broke off, with the entry cut
    down to the bytes that got through, so empty or partial. *)
Definition writeFile (d : Disk) (p : string) (buf : Buffer) : Errno * Disk + Disk :=
  if dir_exists d then
    match write_fault d, faults d !! p, write_breaks d with
    | Some e, _, _ => inl (e, d)
    | None, Some e, _ => inl (e, d)
    | None, None, Some (written, e) =>
        inl (e, mkDisk true (<[p := firstn written buf]> (files d)) (faults d)
                       (write_fault d) (write_breaks d))
    | None, None, None =>
        inr (mkDisk true (<[p := buf]> (files d)) (faults d)
                    (write_fault d) (write_breaks d))
    end
  else inl (ENOENT, d).

Definition readdir (d : Disk) : Errno + list string :=
  if dir_exists d then inr (map fst (map_to_list (files d))) else inl ENOENT.

Definition unlink (d : Disk) (p : string) : Errno + Disk :=
  if dir_exists d then
    match write_fault d, faults d !! p, files d !! p with
    | Some e, _, _ => inl e
    | None, Some e, _ => inl e
    | None, None, None => inl ENOENT
    | None, None, Some _ =>
        inr (mkDisk true (delete p (files d)) (faults d) (write_fault d) (write_breaks d))
    end
  else inl ENOENT.

(** What the server does to its stores, in order. *)
Inductive Event :=
| EvReadFile (p : string)
| EvMkdir
| EvWriteFile (p : string)
| EvReaddir
| EvUnlink (p : string)
| EvCacheGet (key : string)
| EvCacheSet (key : string)
| EvRender (def : LayerDefinition).

Record World := mkWorld {
  disk : Disk;
  cache : gmap string (Buffer * Z);   (* NodeCache: value and expiry time, ms *)
  now : Z;                            (* Date.now() *)
  trace : list Event;
}.

Definition Async (A : Type) : Type := World -> Outcome A * World.

#[global] Instance Async_ret : MRet Async := fun A a w => (Return a, w).

#[global] Instance Async_bind : MBind Async := fun A B f m w =>
  match m w with
  | (Return a, w') => f a w'
  | (Throw e, w') => (Throw e, w')
  end.

(** [try { body } catch (err) { handler }] *)
Definition try_catch {A : Type} (body : Async A) (handler : JsError -> Async A) : Async A :=
  fun w =>
    match body w with
    | (Return a, w') => (Return a, w')
    | (Throw e, w') => handler e w'
    end.

Definition emit (ev : Event) (w : World) : World :=
  mkWorld (disk w) (cache w) (now w) (trace w ++ [ev]).

Definition set_disk (d : Disk) (w : World) : World :=
  mkWorld d (cache w) (now w) (trace w).

Definition set_cache (c : gmap string (Buffer * Z)) (w : World) : World :=
  mkWorld (disk w) c (now w) (trace w).

(** A call that reads the world. *)
Definition fs_read {A : Type} (ev : Event) (p : string) (op : Disk -> Errno + A) : Async A :=
  fun w =>
    match op (disk w) with
    | inr a => (Return a, emit ev w)
    | inl e => (Throw (SystemError e p), emit ev w)
    end.

(** A call that changes the cache directory. *)
Definition fs_write (ev : Event) (p : string) (op : Disk -> Errno + Disk) : Async unit :=
  fun w =>
    match op (disk w) with
    | inr d => (Return tt, emit ev (set_disk d w))
    | inl e => (Throw (SystemError e p), emit ev w)
    end.

(** [await fs.writeFile(p, buf)]: the directory is as the call left it,
    also when the call fails. *)
Definition fs_writeFile (p : string) (buf : Buffer) : Async unit :=
  fun w =>
    match writeFile (disk w) p buf with
    | inr d => (Return tt, emit (EvWriteFile p) (set_disk d w))
    | inl (e, d) => (Throw (SystemError e p), emit (EvWriteFile p) (set_disk d w))
    end.

(** A computation that touches no store. *)
Definition pure_call {A : Type} (o : Outcome A) : Async A := fun w => (o, w).

(** [for (const x of xs) { acc = body(acc, x) }] *)
Fixpoint for_of {A S : Type} (xs : list A) (body : S -> A -> Async S) (acc : S) : Async S :=
  match xs with
  | [] => mret acc
  | x :: xs' => acc' ← body acc x; for_of xs' body acc'
  end.

(** *** [new NodeCache({ stdTTL: 3600, checkperiod: 600 })]

    A key is served until its expiry time has passed (an expiry time of 0
    means no expiry); an expired key is dropped when it is asked for (the
    periodic sweep drops expired keys only, so it is not observable through
    [get]). *)

Definition stdTTL : Z := 3600.

Definition expired (t now : Z) : bool := negb (t =? 0) && (t <? now).

Definition cache_get (key : string) : Async (option Buffer) :=
  fun w =>
    match cache w !! key with
    | Some (v, t) =>
        if expired t (now w)
        then (Return None, emit (EvCacheGet key) (set_cache (delete key (cache w)) w))
        else (Return (Some v), emit (EvCacheGet key) w)
    | None => (Return None, emit (EvCacheGet key) w)
    end.

Definition cache_set (key : string) (val : Buffer) : Async unit :=
  fun w =>
    (Return tt,
     emit (EvCacheSet key)
          (set_cache (<[key := (val, now w + stdTTL * 1000)]> (cache w)) w)).

(** ** [api/src/cache.js]: the disk cache *)

Record CachedSpritesheet := mkCached {
  buffer : option Buffer;
  hash : option string;
  hit : bool;
}.

Record ClearResult := mkClear {
  success : bool;
  deletedCount : nat;
  error : option string;
}.

(** [f.endsWith(suffix)] *)
Definition endsWith (f suffix : string) : bool :=
  String.eqb
    (String.substring (String.length f - String.length suffix)
                      (String.length suffix) f) suffix
  && (String.length suffix <=? String.length f)%nat.

Section DiskCache.
Context `{R : Runtime}.

Definition getCachedSpritesheet (bodyTypeName : string) (layers : option (list Layer))
  : Async CachedSpritesheet :=
  try_catch
    (hash ← pure_call (generateCacheKey bodyTypeName layers);
     let cachePath := getCachePath hash in
     buffer ← fs_read (EvReadFile cachePath) cachePath (fun d => readFile d cachePath);
     mret (mkCached (Some buffer) (Some hash) true))
    (fun err => mret (mkCached None None false)).

Definition saveCachedSpritesheet (bodyTypeName : string) (layers : option (list Layer))
    (buffer : Buffer) : Async (option string) :=
  try_catch
    (hash ← pure_call (generateCacheKey bodyTypeName layers);
     let cachePath := getCachePath hash in
     fs_write EvMkdir "." mkdir;;
     fs_writeFile cachePath buffer;;
     mret (Some hash))
    (fun err => mret None).

Definition listCachedSpritesheets : Async (list string) :=
  try_catch
    (files ← fs_read EvReaddir "." readdir;
     mret (List.filter (fun f => endsWith f ".png") files))
    (fun err => mret []).

Definition clearCache : Async ClearResult :=
  try_catch
    (files ← fs_read EvReaddir "." readdir;
     let pngFiles := List.filter (fun f => endsWith f ".png") files in
     for_of pngFiles (fun _ file => fs_write (EvUnlink file) file (fun d => unlink d file)) tt;;
     mret (mkClear true (List.length pngFiles) None))
    (fun err => mret (mkClear false 0 (Some (message err)))).

End DiskCache.

(** ** [api/server.js]: [POST /api/generate] *)

Inductive XCache := DISK_HIT | MEMORY_HIT | MISS.

Inductive Response :=
| Png (xCache : XCache) (xCacheKey : option string) (body : Buffer)
| Json (status : Z) (error : string) (msg : string).

Section Server.
Context `{R : Runtime}.

(** A call of the renderer, as the handlers make it. *)
Definition render (def : LayerDefinition) : Async Canvas :=
  fun w => (generateSpritesheet def, emit (EvRender def) w).

(** [!layer.fileName || typeof layer.zPos !== 'number'] *)
Definition badLayer (layer : Layer) : bool :=
  String.eqb (fileName layer) EmptyString || negb (bool_decide (is_Some (zPos layer))).

(** The checks before any cache is consulted: the response that rejects the
    request, or its layers when it passes. *)
Definition validate (req : LayerDefinition) : Response + list Layer :=
  match String.eqb (bodyTypeName req) EmptyString, layers req with
  | false, Some layers =>
      if (List.length layers =? 0)%nat then
        inl (Json 400 "Invalid request" "layers array cannot be empty")
      else if existsb badLayer layers then
        inl (Json 400 "Invalid layer"
                  "Each layer must have fileName (string) and zPos (number)")
      else inr layers
  | _, _ =>
      inl (Json 400 "Invalid request"
                "Request must include bodyTypeName (string) and layers (array)")
  end.

(** The handler from the disk lookup on: disk cache, memory cache, render. *)
Definition resolve (bodyTypeName : string) (layers : list Layer) : Async Response :=
  diskCached ← getCachedSpritesheet bodyTypeName (Some layers);
  if hit diskCached then
    mret (Png DISK_HIT (hash diskCached) (default [] (buffer diskCached)))
  else
    let cacheKey := JSON.stringify bodyTypeName layers in
    memoryCached ← cache_get cacheKey;
    match memoryCached with
    | Some buf => mret (Png MEMORY_HIT None buf)
    | None =>
        canvas ← render (mkDef bodyTypeName (Some layers));
        let buffer := toBuffer canvas in
        cache_set cacheKey buffer;;
        mret (Png MISS None buffer)
    end.

Definition apiGenerate (req : LayerDefinition) : Async Response :=
  try_catch
    (match validate req with
     | inl bad => mret bad
     | inr layers => resolve (bodyTypeName req) layers
     end)
    (fun error => mret (Json 500 "Generation failed" (message error))).

End Server.

(** ** [api/src/admin.js]: [POST /api/admin/cache/generate] *)

Inductive ItemResult :=
| item_already_cached (bodyTypeName : string) (hash : option string)
| item_generated (bodyTypeName : string) (hash : option string) (size : nat)
| item_failed (bodyTypeName : string) (error : string).

(** The variables of the loop. *)
Record Tally := mkTally {
  results : list ItemResult;
  generated : nat;
  alreadyCached : nat;
  failed : nat;
}.

Record Summary := mkSummary {
  total : nat;
  sum_generated : nat;
  sum_alreadyCached : nat;
  sum_failed : nat;
}.

(** What the route answers: the summary with the results, or an error (400
    for a body that is not an array, 500 from the [catch] of the handler). *)
Inductive GenerateResponse :=
| generate_done (summary : Summary) (results : list ItemResult)
| generate_error (status : Z) (error : string) (msg : string).

(** [const { bodyTypeName, layers } = def]: an element of the body is [None]
    when it is [null], and destructuring [null] throws. *)
Definition destructure (def : option LayerDefinition) : Outcome LayerDefinition :=
  match def with
  | Some def => Return def
  | None =>
      Throw (TypeError "Cannot destructure property 'bodyTypeName' of 'def' as it is null.")
  end.

Section Admin.
Context `{R : Runtime}.

(** The [try]/[catch] inside the loop over the definitions. *)
Definition preGenerateItem (acc : Tally) (def : LayerDefinition) : Async Tally :=
  let bodyTypeName := bodyTypeName def in
  let layers := layers def in
  try_catch
    (cached ← getCachedSpritesheet bodyTypeName layers;
     if hit cached then
       mret (mkTally (results acc ++ [item_already_cached bodyTypeName (hash cached)])
                     (generated acc) (S (alreadyCached acc)) (failed acc))
     else
       canvas ← render (mkDef bodyTypeName layers);
       let buffer := toBuffer canvas in
       hash ← saveCachedSpritesheet bodyTypeName layers buffer;
       mret (mkTally (results acc ++ [item_generated bodyTypeName hash (List.length buffer)])
                     (S (generated acc)) (alreadyCached acc) (failed acc)))
    (fun error =>
       mret (mkTally (results acc ++ [item_failed bodyTypeName (message error)])
                     (generated acc) (alreadyCached acc) (S (failed acc)))).

(** One turn of the loop: the destructuring is outside the [try] of the
    turn. *)
Definition preGenerateTurn (acc : Tally) (def : option LayerDefinition) : Async Tally :=
  def ← pure_call (destructure def);
  preGenerateItem acc def.

(** The handler; [body] is [None] when the request body is not an array. *)
Definition preGenerate (body : option (list (option LayerDefinition)))
  : Async GenerateResponse :=
  try_catch
    (match body with
     | None =>
         mret (generate_error 400 "Invalid request"
                 "Body must be an array of character definitions")
     | Some definitions =>
         acc ← for_of definitions preGenerateTurn (mkTally [] 0 0 0);
         mret (generate_done
                 (mkSummary (List.length definitions) (generated acc) (alreadyCached acc)
                            (failed acc))
                 (results acc))
     end)
    (fun error => mret (generate_error 500 "Failed to pre-generate cache" (message error))).

End Admin.

(** ** Vocabulary of the properties *)

(** The preconditions of rendering as the specification words them: a
    non-empty body type, a non-empty list of layers, each with a non-empty
    file name and a numeric zPos. *)
Definition RenderPreconditions (def : LayerDefinition) : Prop :=
  bodyTypeName def <> EmptyString /\
  exists ls, layers def = Some ls /\ ls <> [] /\
    Forall (fun l => fileName l <> EmptyString /\ is_Some (zPos l)) ls.

(** [y] lies in the band of the row [animName] that starts at [yPos]: on
    the sheet, at or below the row's offset and above the offset of every
    later row. *)
Definition inRow (animName : string) (yPos y : Z) : Prop :=
  In (animName, yPos) ANIMATION_OFFSETS /\ yPos <= y < SHEET_HEIGHT /\
  forall row, In row ANIMATION_OFFSETS -> yPos < snd row -> y < snd row.



(** What the sprite of [layer] for the row [animName] at [yPos] puts at the
    sheet coordinate [(x, y)], if it loads and covers it. *)
Definition spriteAt `{R : Runtime} (layer : Layer) (animName : string)
    (yPos x y : Z) : option Pixel :=
  match loadImage (spritePath layer animName) with
  | Some img =>
      if in_rect x y 0 yPos (iwidth img) (iheight img)
      then Some (ipixel img x (y - yPos)) else None
  | None => None
  end.

(** A sprite that is missing or fully transparent at a coordinate. *)
Definition paintsNothing (p : option Pixel) : Prop :=
  match p with
  | Some px => alpha px = 0
  | None => True
  end.

(** A canvas of the sheet's size. *)
Definition sized (c : Canvas) : Prop :=
  width c = SHEET_WIDTH /\ height c = SHEET_HEIGHT.

(** The loop of [clearCache] over the entries to remove. *)
Definition unlinkEach (l : list string) : Async unit :=
  for_of l (fun _ file => fs_write (EvUnlink file) file (fun d => unlink d file)) tt.

(** The names [readdir] answers for the cache directory, and those of them
    that count as cached sheets. *)
Definition listing (d : Disk) : list string := map fst (map_to_list (files d)).

Definition pngEntries (d : Disk) : list string :=
  List.filter (fun f => endsWith f ".png") (listing d).

(** A cache directory whose medium works: nothing makes an access fail. *)
Definition sound (d : Disk) : Prop :=
  faults d = ∅ /\ write_fault d = None /\ write_breaks d = None.

(** The outcome of pre-generating one definition: an entry that can be
    read is reported and left alone; a definition without such an entry is
    rendered; when it does not render it is reported as failed; when it
    renders, a put of the sheet under its fingerprint is attempted and the
    definition is reported as generated, with the fingerprint when the put
    succeeded and with no hash when it failed. *)
Section PreGenerateSpec.
Context `{R : Runtime}.

Definition notCached (d : Disk) (def : LayerDefinition) : Prop :=
  forall key, generateCacheKey (bodyTypeName def) (layers def) = Return key ->
              exists e, readFile d (getCachePath key) = inl e.

(** A put that fails: the directory cannot be made, or the write fails and
    leaves the directory [d']. *)
Definition putFails (d : Disk) (p : string) (buf : Buffer) (d' : Disk) : Prop :=
  (exists e, mkdir d = inl e /\ d' = d) \/
  (exists d1 e, mkdir d = inr d1 /\ writeFile d1 p buf = inl (e, d')).

Inductive preGenerated : Disk -> LayerDefinition -> ItemResult -> Disk -> Prop :=
| pre_already_cached d def key buf :
    generateCacheKey (bodyTypeName def) (layers def) = Return key ->
    readFile d (getCachePath key) = inr buf ->
    preGenerated d def (item_already_cached (bodyTypeName def) (Some key)) d
| pre_failed d def e :
    notCached d def ->
    generateSpritesheet def = Throw e ->
    preGenerated d def (item_failed (bodyTypeName def) (message e)) d
| pre_generated d def canvas key d' :
    notCached d def ->
    generateSpritesheet def = Return canvas ->
    generateCacheKey (bodyTypeName def) (layers def) = Return key ->
    dir_exists d' = true ->
    files d' = <[getCachePath key := toBuffer canvas]> (files d) ->
    preGenerated d def
      (item_generated (bodyTypeName def) (Some key) (List.length (toBuffer canvas))) d'
| pre_unsaved d def canvas key d' :
    notCached d def ->
    generateSpritesheet def = Return canvas ->
    generateCacheKey (bodyTypeName def) (layers def) = Return key ->
    putFails d (getCachePath key) (toBuffer canvas) d' ->
    preGenerated d def
      (item_generated (bodyTypeName def) None (List.length (toBuffer canvas))) d'.

Inductive preGeneratedAll : Disk -> list LayerDefinition -> list ItemResult -> Disk -> Prop :=
| pre_done d : preGeneratedAll d [] [] d
| pre_next d d1 d2 def defs r rs :
    preGenerated d def r d1 ->
    preGeneratedAll d1 defs rs d2 ->
    preGeneratedAll d (def :: defs) (r :: rs) d2.

(** What a result says of its definition, whatever the medium does: a
    failed result carries the error of a rendering that throws, a generated
    result the size of the rendered sheet. *)
Definition reported (def : LayerDefinition) (r : ItemResult) : Prop :=
  match r with
  | item_already_cached b h =>
      b = bodyTypeName def /\
      h = match generateCacheKey (bodyTypeName def) (layers def) with
          | Return key => Some key
          | Throw _ => None
          end
  | item_failed b msg =>
      b = bodyTypeName def /\
      exists e, generateSpritesheet def = Throw e /\ msg = message e
  | item_generated b h size =>
      b = bodyTypeName def /\
      exists canvas, generateSpritesheet def = Return canvas /\
                     size = List.length (toBuffer canvas)
  end.

End PreGenerateSpec.

Definition isGenerated (r : ItemResult) : bool :=
  match r with item_generated _ _ _ => true | _ => false end.
Definition isAlreadyCached (r : ItemResult) : bool :=
  match r with item_already_cached _ _ => true | _ => false end.
Definition isFailed (r : ItemResult) : bool :=
  match r with item_failed _ _ => true | _ => false end.
(** A result that is reported as generated and carries no hash: the put
    failed. *)
Definition isUnsaved (r : ItemResult) : bool :=
  match r with item_generated _ None _ => true | _ => false end.

Definition count (p : ItemResult -> bool) (rs : list ItemResult) : nat :=
  List.length (List.filter p rs).

(** Every character. *)
Definition all_ascii : list ascii := map ascii_of_nat (seq 0 256).

(** A text that does not go on with a digit: it is empty or starts with the
    comma or the brace that follows a number in a serialised layer. *)
Definition noDigitAhead (r : string) : Prop :=
  match r with
  | String c _ => (c = "," \/ c = "}")%char
  | EmptyString => True
  end.

(** The value the memory cache would serve for a key: an entry whose expiry
    time has not passed. *)
Definition liveEntry (w : World) (key : string) : option Buffer :=
  match cache w !! key with
  | Some (v, t) => if expired t (now w) then None else Some v
  | None => None
  end.

(** Time passing between two requests. *)
Definition at_time (t : Z) (w : World) : World :=
  mkWorld (disk w) (cache w) t (trace w).

(** ** A small host for the examples *)

Module Reference.

(** Comparison by code units; like every collation it answers 0 on equal
    strings. *)
Definition codeUnitCompare (a b : string) : Z :=
  match String.compare a b with
  | Eq => 0
  | Lt => -1
  | Gt => 1
  end.

Definition redPx : Pixel := mkPixel 255 0 0 255.
Definition greenPx : Pixel := mkPixel 0 255 0 255.
Definition bluePx : Pixel := mkPixel 0 0 255 255.

Definition solid (p : Pixel) : Image := mkImage 64 256 (fun _ _ => p).

(** Three one-colour sprites, for the walk row only. *)
Definition sprites (path : list string) : option Image :=
  match path with
  | [_; _; animName; filename] =>
      if String.eqb animName "walk" then
        if String.eqb filename "red.png" then Some (solid redPx)
        else if String.eqb filename "green.png" then Some (solid greenPx)
        else if String.eqb filename "blue.png" then Some (solid bluePx)
        else None
      else None
  | _ => None
  end.

Definition sourceOver (src dst : Pixel) : Pixel :=
  if alpha src =? 255 then src
  else if alpha src =? 0 then dst
  else
    let a := alpha src + alpha dst * (255 - alpha src) / 255 in
    let mix (s d : Z) := (s * alpha src + d * alpha dst * (255 - alpha src) / 255) / a in
    mkPixel (mix (red src) (red dst)) (mix (green src) (green dst))
            (mix (blue src) (blue dst)) a.

(** A stand-in for the PNG encoder: the sheet's size and one sample. *)
Definition encode (c : Canvas) : Buffer :=
  match Byte.of_N (Z.to_N (alpha (pixel c 0 512))) with
  | Some b => [Byte.x89; Byte.x50; Byte.x4e; Byte.x47; b]
  | None => [Byte.x89; Byte.x50; Byte.x4e; Byte.x47]
  end.

#[export] Instance host : Runtime := {|
  localeCompare := codeUnitCompare;
  loadImage := sprites;
  toBuffer := encode;
  composite := sourceOver;
|}.

Definition layerRed : Layer := mkLayer "body/red.png" (Some 1) None.
Definition layerGreen : Layer := mkLayer "body/green.png" (Some 10) None.
Definition layerBlue : Layer := mkLayer "body/blue.png" (Some 20) None.

(** Two layers that name the same file and differ in zPos and variant. *)
Definition redLight : Layer := mkLayer "body/red.png" (Some 1) (Some "light").
Definition redDark : Layer := mkLayer "body/red.png" (Some 2) (Some "dark").

Definition png : Buffer := [Byte.x89; Byte.x50; Byte.x4e; Byte.x47].

(** The cache key of [{ bodyTypeName: "male", layers: [layerRed] }]. *)
Definition redKey : string :=
  Eval vm_compute in SHA256.hex (JSON.stringify "male" [layerRed]).

Definition emptyDisk : Disk := mkDisk true ∅ ∅ None None.
Definition freshWorld : World := mkWorld emptyDisk ∅ 0 [].

(** A cache directory that holds the sheet of [redKey]. *)
Definition cachedDisk : Disk := mkDisk true {[ getCachePath redKey := png ]} ∅ None None.
(** ... while the memory cache holds other bytes for the same request. *)
Definition cachedWorld : World :=
  mkWorld cachedDisk {[ JSON.stringify "male" [layerRed] := ([Byte.x00], 3600000) ]} 0 [].

(** The same directory when the medium fails on that entry. *)
Definition faultyDisk : Disk :=
  mkDisk true {[ getCachePath redKey := png ]} {[ getCachePath redKey := EIO ]} None None.
Definition faultyWorld : World := mkWorld faultyDisk ∅ 0 [].

(** A directory with two sheets and a file that is not a sheet. *)
Definition mixedDisk : Disk :=
  mkDisk true {[ "a.png" := png; "notes.txt" := []; "b.png" := png ]}%string ∅ None None.
Definition mixedWorld : World := mkWorld mixedDisk ∅ 0 [].

(** The same directory when one of the sheets cannot be removed. *)
Definition stuckDisk : Disk :=
  mkDisk true {[ "a.png" := png; "notes.txt" := []; "b.png" := png ]}%string
         {[ "b.png" := EISDIR ]}%string None None.
Definition stuckWorld : World := mkWorld stuckDisk ∅ 0 [].

(** An empty directory on a full medium: an entry can be created, no byte
    can be written. *)
Definition fullDisk : Disk := mkDisk true ∅ ∅ None (Some (0%nat, ENOSPC)).
Definition fullWorld : World := mkWorld fullDisk ∅ 0 [].

End Reference.

(** * The rest of the API

    The functions of the same files that the first part does not need:
    statistics and removal of one entry ([api/src/cache.js]), batch
    rendering ([api/src/renderer.js]), the batch handler ([api/server.js])
    and the routes of the administration router ([api/src/admin.js]). *)

(** ** [process.env] *)

Record Env := mkEnv {
  ADMIN_API_KEY : option string;
  MAX_BATCH_SIZE : option string;
}.

(** [value || fallback] on a string that may be undefined: the empty string
    is falsy. *)
Definition or_else (value : option string) (fallback : option string) : option string :=
  match value with
  | Some s => if String.eqb s EmptyString then fallback else Some s
  | None => fallback
  end.

(** ** [parseInt(s, 10)]

    Leading white space, an optional sign, then the longest run of decimal
    digits; [None] is NaN. *)

Definition isWhiteSpace (c : ascii) : bool :=
  let n := N_of_ascii c in
  ((9 <=? n) && (n <=? 13) || (n =? 32))%N.

Definition digitValue (c : ascii) : option Z :=
  let n := Z.of_N (N_of_ascii c) in
  if (48 <=? n) && (n <=? 57) then Some (n - 48) else None.

Fixpoint trimStart (s : string) : string :=
  match s with
  | String c s' => if isWhiteSpace c then trimStart s' else s
  | EmptyString => EmptyString
  end.

Fixpoint parseDigits (s : string) (acc : option Z) : option Z :=
  match s with
  | String c s' =>
      match digitValue c with
      | Some d => parseDigits s' (Some (10 * default 0 acc + d))
      | None => acc
      end
  | EmptyString => acc
  end.

Definition parseInt10 (s : string) : option Z :=
  match trimStart s with
  | String "-" s' => Z.opp <$> parseDigits s' None
  | String "+" s' => parseDigits s' None
  | s' => parseDigits s' None
  end.

(** ** [buffer.toString('base64')] (RFC 4648) *)

Module Base64.

Definition alphabet : string :=
  "ABCDEFGHIJKLMNOPQRSTUVWXYZabcdefghijklmnopqrstuvwxyz0123456789+/".

Definition digit (n : N) : ascii :=
  match String.get (N.to_nat n) alphabet with
  | Some c => c
  | None => "="%char
  end.

Fixpoint encode (bs : list Byte.byte) : string :=
  match bs with
  | [] => EmptyString
  | [a] =>
      let x := Byte.to_N a in
      String (digit (x / 4)) (String (digit (x mod 4 * 16)) "==")
  | [a; b] =>
      let x := Byte.to_N a in
      let y := Byte.to_N b in
      String (digit (x / 4)) (String (digit (x mod 4 * 16 + y / 16))
        (String (digit (y mod 16 * 4)) "="))
  | a :: b :: c :: rest =>
      let x := Byte.to_N a in
      let y := Byte.to_N b in
      let z := Byte.to_N c in
      String (digit (x / 4)) (String (digit (x mod 4 * 16 + y / 16))
        (String (digit (y mod 16 * 4 + z / 64)) (String (digit (z mod 64))
          (encode rest))))%N
  end%N.

End Base64.

(** ** [api/src/cache.js]: statistics and removal of one entry *)

(** [(await fs.stat(path)).size] *)
Definition stat_size (d : Disk) (p : string) : Errno + Z :=
  match readFile d p with
  | inr buf => inr (Z.of_nat (List.length buf))
  | inl e => inl e
  end.

(** A call that reads metadata only; it is not traced. *)
Definition fs_stat (p : string) : Async Z :=
  fun w =>
    match stat_size (disk w) p with
    | inr n => (Return n, w)
    | inl e => (Throw (SystemError e p), w)
    end.

(** [n.toString().padStart(2, '0')] for the two decimals. *)
Definition twoDigits (n : Z) : string :=
  if n <? 10 then "0" +:+ JSON.number n else JSON.number n.

(** [(totalSize / 1024 / 1024).toFixed(2)].  The two divisions are exact on
    a size below 2^53, and [toFixed] rounds the exact value to the nearest
    hundredth, halves up. *)
Definition toFixed2_MB (totalSize : Z) : string :=
  let hundredths := (200 * totalSize + 1048576) / 2097152 in
  JSON.number (hundredths / 100) +:+ "." +:+ twoDigits (hundredths mod 100).

(** [totalSizeMB] is the string of [toFixed] on success and the number 0 in
    the [catch]. *)
Inductive NumberOrString :=
| js_number (z : Z)
| js_string (s : string).

Record CacheStats := mkStats {
  stats_count : nat;
  totalSize : Z;
  totalSizeMB : NumberOrString;
}.

Definition getCacheStats : Async CacheStats :=
  try_catch
    (files ← fs_read EvReaddir "." readdir;
     let pngFiles := List.filter (fun f => endsWith f ".png") files in
     totalSize ← for_of pngFiles
                   (fun totalSize file => size ← fs_stat file; mret (totalSize + size)) 0;
     mret (mkStats (List.length pngFiles) totalSize (js_string (toFixed2_MB totalSize))))
    (fun err => mret (mkStats 0 0 (js_number 0))).

Record DeleteResult := mkDeleteResult {
  delete_success : bool;
  delete_message : string;
}.

Definition deleteCachedSpritesheet (hash : string) : Async DeleteResult :=
  try_catch
    (let cachePath := getCachePath hash in
     fs_write (EvUnlink cachePath) cachePath (fun d => unlink d cachePath);;
     mret (mkDeleteResult true ("Deleted " +:+ hash +:+ ".png")))
    (fun err =>
       mret (mkDeleteResult false
               match err with
               | SystemError ENOENT _ => "File not found"
               | _ => message err
               end)).

(** ** [api/src/renderer.js]: [generateSpritesheets] *)

Inductive SheetResult :=
| sheet_success (bodyTypeName : string) (canvas : Canvas)
| sheet_failure (bodyTypeName : string) (error : string).

Section BatchRenderer.
Context `{R : Runtime}.

(** An element of [definitions] is [None] when it is [null]: rendering it
    throws inside the [try], and the [catch] throws again on
    [def.bodyTypeName], out of the function. *)
Definition generateSpritesheets (definitions : list (option LayerDefinition))
  : Outcome (list SheetResult) :=
  fold_left
    (fun results def =>
       match results, def with
       | Throw error, _ => Throw error
       | Return _, None =>
           Throw (TypeError "Cannot read properties of null (reading 'bodyTypeName')")
       | Return results, Some def =>
           Return (results ++
                   [match generateSpritesheet def with
                    | Return canvas => sheet_success (bodyTypeName def) canvas
                    | Throw error => sheet_failure (bodyTypeName def) (message error)
                    end])
       end)
    definitions (Return []).

End BatchRenderer.

(** ** [api/server.js]: [POST /api/generate-batch] *)

(** [JSON.stringify({ bodyTypeName, layers })] on a definition of the batch,
    whose layers may be undefined (the member is then left out). *)
Definition requestKey (bodyTypeName : string) (layers : option (list Layer)) : string :=
  match layers with
  | Some layers => JSON.stringify bodyTypeName layers
  | None => "{" +:+ JSON.quote "bodyTypeName" +:+ ":" +:+ JSON.quote bodyTypeName +:+ "}"
  end.

Inductive BatchResult :=
| batch_disk_hit (bodyTypeName : string) (cacheKey : option string) (data : string) (size : nat)
| batch_memory_hit (bodyTypeName : string) (data : string) (size : nat)
| batch_generated (bodyTypeName : string) (data : string) (size : nat)
| batch_error (bodyTypeName : string) (error : string).

(** The variables of the loop. *)
Record BatchTally := mkBatchTally {
  batch_results : list BatchResult;
  diskHits : nat;
  memoryHits : nat;
  batch_generated_count : nat;
}.

Inductive BatchResponse :=
| batch_rejected (status : Z) (error : string) (msg : string)
| batch_done (results : list BatchResult) (total diskHits memoryHits generated : nat).

(** [parseInt(process.env.MAX_BATCH_SIZE || '200', 10)] *)
Definition maxBatchSize (env : Env) : option Z :=
  parseInt10 (default "200" (or_else (MAX_BATCH_SIZE env) (Some "200"))).

Section BatchServer.
Context `{R : Runtime}.

(** The [try]/[catch] inside the loop over the definitions. *)
Definition generateBatchItem (acc : BatchTally) (def : LayerDefinition) : Async BatchTally :=
  let bodyTypeName := bodyTypeName def in
  let layers := layers def in
  try_catch
    (diskCached ← getCachedSpritesheet bodyTypeName layers;
     if hit diskCached then
       let buf := default [] (buffer diskCached) in
       mret (mkBatchTally
               (batch_results acc ++
                [batch_disk_hit bodyTypeName (hash diskCached) (Base64.encode buf)
                                (List.length buf)])
               (S (diskHits acc)) (memoryHits acc) (batch_generated_count acc))
     else
       let cacheKey := requestKey bodyTypeName layers in
       memoryCached ← cache_get cacheKey;
       match memoryCached with
       | Some buf =>
           mret (mkBatchTally
                   (batch_results acc ++
                    [batch_memory_hit bodyTypeName (Base64.encode buf) (List.length buf)])
                   (diskHits acc) (S (memoryHits acc)) (batch_generated_count acc))
       | None =>
           canvas ← render (mkDef bodyTypeName layers);
           let buffer := toBuffer canvas in
           cache_set cacheKey buffer;;
           mret (mkBatchTally
                   (batch_results acc ++
                    [batch_generated bodyTypeName (Base64.encode buffer)
                                     (List.length buffer)])
                   (diskHits acc) (memoryHits acc) (S (batch_generated_count acc)))
       end)
    (fun error =>
       mret (mkBatchTally
               (batch_results acc ++ [batch_error bodyTypeName (message error)])
               (diskHits acc) (memoryHits acc) (batch_generated_count acc))).

(** One turn of the loop: the destructuring is outside the [try] of the
    turn. *)
Definition generateBatchTurn (acc : BatchTally) (def : option LayerDefinition)
  : Async BatchTally :=
  def ← pure_call (destructure def);
  generateBatchItem acc def.

(** The loop over the definitions and the answer that reports it. *)
Definition generateBatch (definitions : list (option LayerDefinition))
  : Async BatchResponse :=
  acc ← for_of definitions generateBatchTurn (mkBatchTally [] 0 0 0);
  mret (batch_done (batch_results acc) (List.length (batch_results acc))
                   (diskHits acc) (memoryHits acc) (batch_generated_count acc)).

(** [definitions.length > maxBatchSize]; a NaN limit is never exceeded. *)
Definition exceeds (definitions : list (option LayerDefinition)) (limit : option Z)
  : bool :=
  match limit with
  | Some limit => limit <? Z.of_nat (List.length definitions)
  | None => false
  end.

(** The handler; [body] is [None] when the request body is not an array, an
    element of the array is [None] when it is [null]. *)
Definition apiGenerateBatch (env : Env) (body : option (list (option LayerDefinition)))
  : Async BatchResponse :=
  try_catch
    (match body with
     | Some (def :: defs) =>
         let definitions := def :: defs in
         if exceeds definitions (maxBatchSize env) then
           mret (batch_rejected 400 "Too many requests"
                   ("Maximum " +:+ JSON.number (default 0 (maxBatchSize env))
                               +:+ " spritesheets per batch request"))
         else generateBatch definitions
     | _ =>
         mret (batch_rejected 400 "Invalid request"
                 "Request body must be a non-empty array of layer definitions")
     end)
    (fun error => mret (batch_rejected 500 "Batch generation failed" (message error))).

End BatchServer.

(** ** [api/src/admin.js]: the router *)

Inductive AdminRoute :=
| GET_cache_stats
| GET_cache_list
| POST_cache_generate (body : option (list (option LayerDefinition)))
| DELETE_cache_clear
| DELETE_cache_hash (hash : string)
| POST_cache_warmup.

Record AdminRequest := mkAdminRequest {
  header_x_api_key : option string;   (* req.headers['x-api-key'] *)
  query_apiKey : option string;       (* req.query.apiKey *)
  route : AdminRoute;
}.

Inductive AdminResponse :=
| admin_error (status : Z) (error : string) (msg : option string)
| admin_stats (stats : CacheStats)
| admin_list (count : nat) (files : list string)
| admin_generate (response : GenerateResponse)
| admin_cleared (success : bool) (msg : string) (deletedCount : nat) (error : option string)
| admin_deleted (msg : string)
| admin_not_found (msg : string)
| admin_warmed (msg : string) (count : nat).

(** The middleware: the response that stops the request, or [None] for
    [next()]. *)
Definition adminAuth (env : Env) (req : AdminRequest) : option AdminResponse :=
  let apiKey := or_else (header_x_api_key req) (query_apiKey req) in
  match or_else (ADMIN_API_KEY env) None with
  | None => Some (admin_error 500 "Admin API key not configured on server" None)
  | Some key =>
      if bool_decide (apiKey = Some key) then None
      else Some (admin_error 401 "Unauthorized" (Some "Invalid or missing API key"))
  end.

Section AdminRouter.
Context `{R : Runtime}.

Definition adminHandler (r : AdminRoute) : Async AdminResponse :=
  match r with
  | GET_cache_stats =>
      try_catch (stats ← getCacheStats; mret (admin_stats stats))
        (fun error => mret (admin_error 500 "Failed to get cache stats" (Some (message error))))
  | GET_cache_list =>
      try_catch (files ← listCachedSpritesheets; mret (admin_list (List.length files) files))
        (fun error => mret (admin_error 500 "Failed to list cache" (Some (message error))))
  | POST_cache_generate body =>
      response ← preGenerate body;
      mret (admin_generate response)
  | DELETE_cache_clear =>
      try_catch
        (result ← clearCache;
         (* { success: true, message, ...result }: the fields of [result] win *)
         mret (admin_cleared (success result) "Cache cleared successfully"
                             (deletedCount result) (error result)))
        (fun error => mret (admin_error 500 "Failed to clear cache" (Some (message error))))
  | DELETE_cache_hash hash =>
      try_catch
        (result ← deleteCachedSpritesheet hash;
         if delete_success result then
           mret (admin_deleted ("Deleted cached spritesheet: " +:+ hash))
         else mret (admin_not_found (delete_message result)))
        (fun error =>
           mret (admin_error 500 "Failed to delete cached spritesheet"
                   (Some (message error))))
  | POST_cache_warmup =>
      try_catch
        (files ← listCachedSpritesheets;
         mret (admin_warmed
                 ("Warmed up " +:+ JSON.number (Z.of_nat (List.length files))
                               +:+ " cached spritesheets")
                 (List.length files)))
        (fun error => mret (admin_error 500 "Failed to warm up cache" (Some (message error))))
  end.

(** [router.use(adminAuth)] before every route. *)
Definition admin (env : Env) (req : AdminRequest) : Async AdminResponse :=
  match adminAuth env req with
  | Some stop => mret stop
  | None => adminHandler (route req)
  end.

End AdminRouter.

(** ** Vocabulary of the further properties *)

(** The size of an entry, 0 when there is none. *)
Definition sizeOf (d : Disk) (f : string) : Z :=
  match files d !! f with
  | Some buf => Z.of_nat (List.length (buf : Buffer))
  | None => 0
  end.

Definition totalBytes (d : Disk) (names : list string) : Z :=
  fold_right (fun f acc => sizeOf d f + acc) 0 names.

(** Two worlds with the same stores and the same clock: they differ by the
    trace at most. *)
Definition same_stores (w w' : World) : Prop :=
  disk w' = disk w /\ cache w' = cache w /\ now w' = now w.

(** The kinds of result of a batch item, and their number in a list. *)
Definition batch_name (r : BatchResult) : string :=
  match r with
  | batch_disk_hit b _ _ _ | batch_memory_hit b _ _ | batch_generated b _ _
  | batch_error b _ => b
  end.

Definition isDiskHit (r : BatchResult) : bool :=
  match r with batch_disk_hit _ _ _ _ => true | _ => false end.
Definition isMemoryHit (r : BatchResult) : bool :=
  match r with batch_memory_hit _ _ _ => true | _ => false end.
Definition isBatchGenerated (r : BatchResult) : bool :=
  match r with batch_generated _ _ _ => true | _ => false end.
Definition isBatchError (r : BatchResult) : bool :=
  match r with batch_error _ _ => true | _ => false end.

Definition countBatch (p : BatchResult -> bool) (rs : list BatchResult) : nat :=
  List.length (List.filter p rs).

(** The variables of the batch loop after one more result. *)
Definition tallied (acc : BatchTally) (r : BatchResult) : BatchTally :=
  mkBatchTally (batch_results acc ++ [r])
    (if isDiskHit r then S (diskHits acc) else diskHits acc)
    (if isMemoryHit r then S (memoryHits acc) else memoryHits acc)
    (if isBatchGenerated r then S (batch_generated_count acc)
     else batch_generated_count acc).

(** The batch result that reports what a single request would have been
    answered. *)
Definition batchEntry (bodyTypeName : string) (x : XCache) (cacheKey : option string)
    (buf : Buffer) : BatchResult :=
  match x with
  | DISK_HIT =>
      batch_disk_hit bodyTypeName cacheKey (Base64.encode buf) (List.length buf)
  | MEMORY_HIT => batch_memory_hit bodyTypeName (Base64.encode buf) (List.length buf)
  | MISS => batch_generated bodyTypeName (Base64.encode buf) (List.length buf)
  end.

(** * Properties *)

Import Reference.

(** ** SHA-256 test vectors *)

Example sha256_abc :
  SHA256.hex "abc" = "ba7816bf8f01cfea414140de5dae2223b00361a396177a9cb410ff61f20015ad"%string.
Proof. vm_compute. reflexivity. Qed.

Example sha256_empty :
  SHA256.hex "" = "e3b0c44298fc1c149afbf4c8996fb92427ae41e4649b934ca495991b7852b855"%string.
Proof. vm_compute. reflexivity. Qed.

Example sha256_two_blocks :
  SHA256.hex "aaaaaaaaaaaaaaaaaaaaaaaaaaaaaaaaaaaaaaaaaaaaaaaaaaaaaaaaaaaaaaaaaaaaaaaaaaaaaaaaaaaaaaaaaaaaaaaaaaaa"
  = "2816597888e4a0d3a36b82b83316ab32680eb8f00f8cd3b904d681246d285a0e"%string.
Proof. vm_compute. reflexivity. Qed.

(** ** The sort *)

Section SortFacts.
Context {A : Type} (cmp : A -> A -> Z).

Lemma sort_insert_perm (x : A) (l : list A) : Permutation (x :: l) (sort_insert cmp x l).
Proof.
  induction l as [|y l IH]; simpl; [reflexivity|].
  destruct (0 <? cmp x y); [|reflexivity].
  rewrite perm_swap. now apply perm_skip.
Qed.

Lemma Array_sort_perm (l : list A) : Permutation l (Array_sort cmp l).
Proof.
  induction l as [|x l IH]; simpl; [reflexivity|].
  etransitivity; [apply perm_skip, IH | apply sort_insert_perm].
Qed.

Lemma Array_sort_In (l : list A) (x : A) : In x (Array_sort cmp l) <-> In x l.
Proof.
  split; apply Permutation_in; [symmetry|]; apply Array_sort_perm.
Qed.



(** For a comparator that is a total preorder on the elements at hand
    (those that satisfy [P]) the result is sorted. *)
Section Consistent.
Context (P : A -> Prop).
Hypothesis cmp_total : forall a b, P a -> P b -> 0 < cmp a b -> cmp b a <= 0.
Hypothesis cmp_trans :
  forall a b c, P a -> P b -> P c -> cmp a b <= 0 -> cmp b c <= 0 -> cmp a c <= 0.

Let le (a b : A) : Prop := cmp a b <= 0.

Lemma sort_insert_sorted (x : A) (l : list A) :
  P x -> Forall P l ->
  StronglySorted le l -> StronglySorted le (sort_insert cmp x l).
Proof using cmp_total cmp_trans.
  intros Px HP. induction 1 as [|y l Hl IH Hy]; simpl.
  - constructor; constructor.
  - apply List.Forall_cons_iff in HP as [Py HP].
    pose proof Hy as Hy'. rewrite List.Forall_forall in HP, Hy'.
    destruct (0 <? cmp x y) eqn:Hxy.
    + apply Z.ltb_lt in Hxy.
      constructor; [apply IH; now rewrite List.Forall_forall|].
      rewrite List.Forall_forall. intros z Hz.
      apply (Permutation_in _ (Permutation_sym (sort_insert_perm x l))) in Hz.
      destruct Hz as [<-|Hz]; [now apply cmp_total | now apply Hy'].
    + apply Z.ltb_ge in Hxy. constructor; [now constructor|].
      constructor; [exact Hxy|].
      rewrite List.Forall_forall. intros z Hz.
      apply cmp_trans with y; auto. now apply Hy'.
Qed.

Lemma Array_sort_sorted (l : list A) :
  Forall P l -> StronglySorted le (Array_sort cmp l).
Proof using cmp_total cmp_trans.
  induction 1 as [|x l Px HP IH]; simpl; [constructor|].
  apply sort_insert_sorted; auto.
  rewrite List.Forall_forall in HP |- *. intros z Hz. apply HP.
  now apply Array_sort_In.
Qed.

(** Two sorted arrangements of the same elements coincide as soon as the
    comparator separates distinct elements. *)
Lemma sorted_perm_unique (s1 s2 : list A) :
  StronglySorted le s1 -> StronglySorted le s2 -> Permutation s1 s2 ->
  (forall a b, In a s1 -> In b s1 -> cmp a b <= 0 -> cmp b a <= 0 -> a = b) ->
  s1 = s2.
Proof.
  intros H1. revert s2. induction H1 as [|a s1 Hs1 IH Ha]; intros s2 H2 HP Hsep.
  - now apply Permutation_nil in HP.
  - destruct H2 as [|b s2 Hs2 Hb].
    + symmetry in HP. now apply Permutation_nil in HP.
    + assert (a = b) as <-.
      { assert (In a (b :: s2)) as Hin1 by (apply (Permutation_in _ HP); now left).
        assert (In b (a :: s1)) as Hin2
            by (apply (Permutation_in _ (Permutation_sym HP)); now left).
        destruct Hin1 as [->|Hin1]; [reflexivity|].
        destruct Hin2 as [->|Hin2]; [reflexivity|].
        rewrite List.Forall_forall in Ha, Hb.
        apply Hsep; [now left | now right | now apply Ha | now apply Hb]. }
      f_equal. apply IH; [exact Hs2 | now apply Permutation_cons_inv in HP |].
      intros x y Hx Hy. apply Hsep; now right.
Qed.

Lemma Array_sort_perm_unique (l1 l2 : list A) :
  Forall P l1 ->
  Permutation l1 l2 ->
  (forall a b, In a l1 -> In b l1 -> cmp a b <= 0 -> cmp b a <= 0 -> a = b) ->
  Array_sort cmp l1 = Array_sort cmp l2.
Proof using cmp_total cmp_trans.
  intros HP1 HP Hsep.
  assert (Forall P l2) as HP2.
  { rewrite List.Forall_forall in HP1 |- *. intros z Hz. apply HP1.
    now apply (Permutation_in _ (Permutation_sym HP)). }
  apply sorted_perm_unique; try now apply Array_sort_sorted.
  - rewrite <- (Array_sort_perm l1), <- (Array_sort_perm l2). exact HP.
  - intros a b Ha Hb. apply Hsep; now apply Array_sort_In.
Qed.

End Consistent.
End SortFacts.

(** ** The renderer *)

Section RendererFacts.
Context `{R : Runtime}.

Lemma drawLayer_size animName yPos c layer :
  width (drawLayer animName yPos c layer) = width c /\
  height (drawLayer animName yPos c layer) = height c.
Proof. unfold drawLayer. now destruct (loadImage _). Qed.

Lemma drawRow_size s c row :
  width (drawRow s c row) = width c /\ height (drawRow s c row) = height c.
Proof.
  unfold drawRow. revert c. induction s as [|l s IH]; intros c; simpl; [easy|].
  destruct (IH (drawLayer (fst row) (snd row) c l)) as [-> ->].
  apply drawLayer_size.
Qed.

Lemma drawRows_size s rows c :
  width (fold_left (drawRow s) rows c) = width c /\
  height (fold_left (drawRow s) rows c) = height c.
Proof.
  revert c. induction rows as [|row rows IH]; intros c; simpl; [easy|].
  destruct (IH (drawRow s c row)) as [-> ->]. apply drawRow_size.
Qed.

(** When no sprite loads nothing is drawn. *)
Lemma drawRows_nothing s rows c :
  (forall path, loadImage path = None) ->
  fold_left (drawRow s) rows c = c.
Proof.
  intros Hnone. revert c. induction rows as [|row rows IH]; intros c; simpl; [easy|].
  rewrite IH. unfold drawRow. clear IH. revert c.
  induction s as [|l s IH]; intros c; simpl; [easy|].
  rewrite IH. unfold drawLayer. now rewrite Hnone.
Qed.

(** When every lookup for the layers and the rows at hand misses, nothing
    is drawn. *)
Lemma drawRows_all_miss s rows c :
  (forall layer row, In layer s -> In row rows ->
                     loadImage (spritePath layer (fst row)) = None) ->
  fold_left (drawRow s) rows c = c.
Proof.
  revert c. induction rows as [|row rows IH]; intros c Hmiss; simpl; [easy|].
  rewrite IH by (intros layer r Hl Hr; apply Hmiss; [exact Hl | now right]).
  assert (forall layer, In layer s -> loadImage (spritePath layer (fst row)) = None)
    as Hrow by (intros layer Hl; apply Hmiss; [exact Hl | now left]).
  unfold drawRow. clear IH Hmiss. revert c.
  induction s as [|l s IH]; intros c; simpl; [easy|].
  rewrite IH by (intros layer Hl; apply Hrow; now right).
  unfold drawLayer. now rewrite Hrow by now left.
Qed.

Lemma generateSpritesheet_returns def :
  bodyTypeName def <> EmptyString -> forall ls, layers def = Some ls ->
  generateSpritesheet def =
    Return (fold_left (drawRow (Array_sort byZPos ls)) ANIMATION_OFFSETS
              (clearRect (createCanvas SHEET_WIDTH SHEET_HEIGHT) 0 0 SHEET_WIDTH SHEET_HEIGHT)).
Proof.
  intros Hb ls Hls. unfold generateSpritesheet. rewrite Hls.
  destruct (String.eqb_spec (bodyTypeName def) EmptyString); [contradiction|reflexivity].
Qed.

(** C4. A definition that meets the preconditions of rendering yields a
    sheet of exactly SHEET_WIDTH x SHEET_HEIGHT = 832 x 3456 pixels, whatever
    sprites load; when the lookup of the sprite misses for every layer of the
    definition and every animation, the sheet is fully transparent, and that
    is not an error. *)
Theorem render_dimensions (def : LayerDefinition) :
  RenderPreconditions def ->
  exists canvas,
    generateSpritesheet def = Return canvas /\
    width canvas = SHEET_WIDTH /\ height canvas = SHEET_HEIGHT /\
    SHEET_WIDTH = 832 /\ SHEET_HEIGHT = 3456 /\
    ((forall ls layer animName yPos,
        layers def = Some ls -> In layer ls -> In (animName, yPos) ANIMATION_OFFSETS ->
        loadImage (spritePath layer animName) = None) ->
     forall x y, pixel canvas x y = transparent).
Proof.
  intros [Hb (ls & Hls & _ & _)].
  eexists. split; [exact (generateSpritesheet_returns def Hb ls Hls)|].
  destruct (drawRows_size (Array_sort byZPos ls) ANIMATION_OFFSETS
              (clearRect (createCanvas SHEET_WIDTH SHEET_HEIGHT) 0 0 SHEET_WIDTH SHEET_HEIGHT))
    as [-> ->].
  repeat split.
  intros Hmiss x y. rewrite drawRows_all_miss.
  - simpl. now destruct (in_rect _ _ _ _ _ _).
  - intros layer [animName yPos] Hl Hrow. apply (Hmiss ls layer animName yPos Hls); trivial.
    now apply Array_sort_In in Hl.
Qed.

(** C3, as the code has it. The renderer throws exactly when the body type
    is empty or the layers are not an array, and then it throws the
    invalid-definition error; an empty list of layers, an empty file name or
    a zPos that is not a number do not make it throw. *)
Theorem render_throws_iff (def : LayerDefinition) :
  (generateSpritesheet def = Throw InvalidLayerDefinition <->
   bodyTypeName def = EmptyString \/ layers def = None) /\
  ((exists canvas, generateSpritesheet def = Return canvas) <->
   bodyTypeName def <> EmptyString /\ is_Some (layers def)) /\
  (forall e, generateSpritesheet def = Throw e -> e = InvalidLayerDefinition).
Proof.
  unfold generateSpritesheet.
  destruct (String.eqb_spec (bodyTypeName def) EmptyString) as [Hb|Hb];
    destruct (layers def) as [ls|].
  - split; [|split].
    + split; [now left | reflexivity].
    + split; [intros [c Hc]; discriminate | intros [Hne _]; contradiction].
    + now intros e [= <-].
  - split; [|split].
    + split; [now left | reflexivity].
    + split; [intros [c Hc]; discriminate | intros [Hne _]; contradiction].
    + now intros e [= <-].
  - split; [|split].
    + split; [discriminate | intros [Hb'|Hn]; [contradiction | discriminate]].
    + split; [intros _; split; [exact Hb | now exists ls] | intros _; eauto].
    + discriminate.
  - split; [|split].
    + split; [now right | reflexivity].
    + split; [intros [c Hc]; discriminate | intros [_ [ls Hls]]; discriminate].
    + now intros e [= <-].
Qed.

End RendererFacts.

(** The sprite of a layer is looked up under the directory of its file, in
    the folder of the animation. *)
Example spritePath_walk :
  spritePath (mkLayer "body/bodies/male/fur_grey.png" (Some 10) (Some "fur_grey")) "walk"
  = ["spritesheets"; "body/bodies/male"; "walk"; "fur_grey.png"]%string.
Proof. reflexivity. Qed.

(** The checks of the request handler accept exactly the definitions that
    meet the preconditions of rendering. *)
Lemma validate_accepts (req : LayerDefinition) (ls : list Layer) :
  validate req = inr ls <-> RenderPreconditions req /\ layers req = Some ls.
Proof.
  unfold validate, RenderPreconditions.
  destruct (String.eqb_spec (bodyTypeName req) EmptyString) as [Hb|Hb].
  { split; [discriminate | intros [[Hne _] _]; contradiction]. }
  destruct (layers req) as [ls'|].
  2: { split; [discriminate | intros [_ [=]]]. }
  destruct ls' as [|l ls'].
  { split; [discriminate|]. intros [[_ (ls0 & [= <-] & Hne & _)] _]. now contradiction Hne. }
  change (List.length (l :: ls') =? 0)%nat with false. cbv iota.
  destruct (existsb badLayer (l :: ls')) eqn:Hbad.
  - split; [discriminate|]. intros [[_ (ls0 & [= <-] & _ & Hall)] _].
    apply existsb_exists in Hbad as (x & Hx & Hbx).
    rewrite List.Forall_forall in Hall. destruct (Hall x Hx) as [Hf Hz].
    unfold badLayer in Hbx. apply orb_true_iff in Hbx as [Hbx|Hbx].
    + apply String.eqb_eq in Hbx. contradiction.
    + rewrite bool_decide_eq_true_2 in Hbx by assumption. discriminate.
  - split.
    + intros [= <-]. split; [|reflexivity]. split; [exact Hb|].
      exists (l :: ls'). split; [reflexivity|]. split; [discriminate|].
      apply List.Forall_forall. intros x Hx.
      assert (badLayer x = false) as Hbx.
      { destruct (badLayer x) eqn:E; [|reflexivity].
        rewrite <- Hbad. symmetry. apply existsb_exists. eauto. }
      unfold badLayer in Hbx. apply orb_false_iff in Hbx as [Hf Hz]. split.
      * now apply String.eqb_neq.
      * apply negb_false_iff, bool_decide_eq_true in Hz. exact Hz.
    + now intros [_ [= ->]].
Qed.

(** ** Z-order *)

Lemma byZPos_numeric (a b : Layer) (za zb : Z) :
  zPos a = Some za -> zPos b = Some zb -> byZPos a b = za - zb.
Proof. unfold byZPos, js_sub. now intros -> ->. Qed.



Section ZOrder.
Context `{R : Runtime} `{!RuntimeLaws R}.

Lemma drawLayer_sized animName yPos c layer :
  sized c -> sized (drawLayer animName yPos c layer).
Proof. unfold sized. destruct (drawLayer_size animName yPos c layer) as [-> ->]. auto. Qed.

(** One layer's effect on one pixel of the sheet. *)
Lemma drawLayer_pixel animName yPos c layer x y :
  sized c -> 0 <= x < SHEET_WIDTH -> 0 <= y < SHEET_HEIGHT ->
  pixel (drawLayer animName yPos c layer) x y =
    match spriteAt layer animName yPos x y with
    | Some p => composite p (pixel c x y)
    | None => pixel c x y
    end.
Proof.
  intros [Hw Hh] Hx Hy. unfold drawLayer, spriteAt.
  destruct (loadImage _) as [img|]; [|reflexivity].
  simpl. rewrite Hw, Hh.
  replace (in_rect x y 0 0 SHEET_WIDTH SHEET_HEIGHT) with true
    by (symmetry; unfold in_rect; repeat (apply andb_true_intro; split); lia).
  simpl. rewrite Z.sub_0_r. now destruct (in_rect _ _ _ _ _ _).
Qed.

Lemma drawLayer_inert animName yPos c layer x y :
  sized c -> 0 <= x < SHEET_WIDTH -> 0 <= y < SHEET_HEIGHT ->
  paintsNothing (spriteAt layer animName yPos x y) ->
  pixel (drawLayer animName yPos c layer) x y = pixel c x y.
Proof.
  intros Hc Hx Hy Hn. rewrite drawLayer_pixel by assumption.
  destruct (spriteAt _ _ _ _ _); [now apply composite_clear | reflexivity].
Qed.


Lemma drawRow_sized s c row : sized c -> sized (drawRow s c row).
Proof. unfold sized. destruct (drawRow_size s c row) as [-> ->]. auto. Qed.





Lemma byZPos_total (a b : Layer) :
  is_Some (zPos a) -> is_Some (zPos b) -> 0 < byZPos a b -> byZPos b a <= 0.
Proof.
  intros [za Ha] [zb Hb].
  rewrite (byZPos_numeric a b za zb), (byZPos_numeric b a zb za) by assumption. lia.
Qed.

Lemma byZPos_trans (a b c : Layer) :
  is_Some (zPos a) -> is_Some (zPos b) -> is_Some (zPos c) ->
  byZPos a b <= 0 -> byZPos b c <= 0 -> byZPos a c <= 0.
Proof.
  intros [za Ha] [zb Hb] [zc Hc].
  rewrite (byZPos_numeric a b za zb), (byZPos_numeric b c zb zc),
    (byZPos_numeric a c za zc) by assumption. lia.
Qed.





End ZOrder.

#[export] Instance host_laws : RuntimeLaws host.
Proof.
  split; intros src dst H; simpl; unfold sourceOver.
  - unfold opaque in H. now rewrite H.
  - now rewrite H.
Qed.

Lemma walk_row : inRow "walk" 512 512.
Proof.
  unfold inRow, ANIMATION_OFFSETS, SHEET_HEIGHT, FRAME_SIZE. split; [|split].
  - simpl. auto 20.
  - lia.
  - intros row Hin. simpl in Hin.
    repeat (destruct Hin as [<-|Hin]; [simpl; lia|]). contradiction.
Qed.

(** Of the two definitions, the first has a sprite that loads (for the
    walk row), the second has none. *)
Lemma render_dimensions_witness :
  (exists canvas,
     generateSpritesheet (mkDef "male" (Some [layerRed])) = Return canvas /\
     width canvas = SHEET_WIDTH /\ height canvas = SHEET_HEIGHT) /\
  (exists canvas,
     generateSpritesheet (mkDef "male" (Some [mkLayer "body/none.png" (Some 1) None]))
       = Return canvas /\
     width canvas = SHEET_WIDTH /\ height canvas = SHEET_HEIGHT /\
     forall x y, pixel canvas x y = transparent).
Proof.
  split.
  - destruct (render_dimensions (mkDef "male" (Some [layerRed])))
      as (canvas & Hrun & Hw & Hh & _).
    { split; [discriminate|].
      eexists. split; [reflexivity|]. split; [discriminate|].
      constructor; [|constructor]. split; [discriminate | now eexists]. }
    now exists canvas.
  - destruct (render_dimensions
                (mkDef "male" (Some [mkLayer "body/none.png" (Some 1) None])))
      as (canvas & Hrun & Hw & Hh & _ & _ & Hblank).
    { split; [discriminate|].
      eexists. split; [reflexivity|]. split; [discriminate|].
      constructor; [|constructor]. split; [discriminate | now eexists]. }
    exists canvas. repeat split; try assumption.
    apply Hblank. intros ls layer animName yPos [= <-] [<-|[]] Hrow.
    simpl in Hrow.
    repeat (destruct Hrow as [[= <- <-]|Hrow]; [reflexivity|]). destruct Hrow.
Defined.

(** C3: an empty list of layers violates the preconditions, yet the
    renderer returns a (blank) sheet instead of throwing. *)
Lemma render_empty_layers_returns :
  ~ RenderPreconditions (mkDef "male" (Some [])) /\
  exists canvas,
    generateSpritesheet (mkDef "male" (Some [])) = Return canvas /\
    generateSpritesheet (mkDef "male" (Some [])) <> Throw InvalidLayerDefinition /\
    forall x y, pixel canvas x y = transparent.
Proof.
  split.
  - intros [_ (ls & [= <-] & Hne & _)]. now apply Hne.
  - eexists. split; [reflexivity|]. split; [discriminate|].
    intros x y. simpl. now destruct (in_rect _ _ _ _ _ _).
Qed.

(** In a definition with a third layer above them, the pixel where two
    layers are both opaque shows neither: it shows the third layer, the last
    one drawn. *)
Example zorder_third_layer_on_top :
  zPos layerRed = Some 1 /\ zPos layerGreen = Some 10 /\ 1 < 10 /\
  inRow "walk" 512 512 /\
  spriteAt layerRed "walk" 512 0 512 = Some redPx /\ opaque redPx /\
  spriteAt layerGreen "walk" 512 0 512 = Some greenPx /\ opaque greenPx /\
  exists canvas,
    generateSpritesheet (mkDef "male" (Some [layerRed; layerGreen; layerBlue]))
      = Return canvas /\
    pixel canvas 0 512 = bluePx /\ bluePx <> greenPx.
Proof.
  repeat split; try reflexivity; try lia; try apply walk_row.
  eexists. split; [reflexivity|]. split; [vm_compute; reflexivity | discriminate].
Qed.


(** ** The disk cache *)

Ltac run :=
  unfold try_catch, fs_read, fs_write, pure_call, mbind, Async_bind, mret, Async_ret in *.

Section DiskCacheFacts.
Context `{R : Runtime}.

Lemma getCachedSpritesheet_hit w b ls key buf :
  generateCacheKey b ls = Return key ->
  readFile (disk w) (getCachePath key) = inr buf ->
  getCachedSpritesheet b ls w =
    (Return (mkCached (Some buf) (Some key) true), emit (EvReadFile (getCachePath key)) w).
Proof. intros Hk Hr. unfold getCachedSpritesheet. run. now rewrite Hk, Hr. Qed.

Lemma getCachedSpritesheet_miss w b ls key e :
  generateCacheKey b ls = Return key ->
  readFile (disk w) (getCachePath key) = inl e ->
  getCachedSpritesheet b ls w =
    (Return (mkCached None None false), emit (EvReadFile (getCachePath key)) w).
Proof. intros Hk Hr. unfold getCachedSpritesheet. run. now rewrite Hk, Hr. Qed.

Lemma getCachedSpritesheet_nokey w b ls e :
  generateCacheKey b ls = Throw e ->
  getCachedSpritesheet b ls w = (Return (mkCached None None false), w).
Proof. intros Hk. unfold getCachedSpritesheet. run. now rewrite Hk. Qed.

(** The lookup never throws and never changes a store. *)
Lemma getCachedSpritesheet_total w b ls :
  exists r w', getCachedSpritesheet b ls w = (Return r, w') /\
               disk w' = disk w /\ cache w' = cache w /\ now w' = now w.
Proof.
  destruct (generateCacheKey b ls) as [key|e] eqn:Hk.
  - destruct (readFile (disk w) (getCachePath key)) as [e|buf] eqn:Hr.
    + erewrite getCachedSpritesheet_miss by eassumption. eauto 10.
    + erewrite getCachedSpritesheet_hit by eassumption. eauto 10.
  - erewrite getCachedSpritesheet_nokey by eassumption. eauto 10.
Qed.

(** A request that passes the checks of the handler is answered by
    [resolve]. *)
Lemma apiGenerate_valid (req : LayerDefinition) (ls : list Layer) (w w' : World)
    (r : Response) :
  validate req = inr ls ->
  resolve (bodyTypeName req) ls w = (Return r, w') ->
  apiGenerate req w = (Return r, w').
Proof. intros Hv Hr. unfold apiGenerate, try_catch. now rewrite Hv, Hr. Qed.

(** C2. When the fingerprint of a definition has an entry in the disk
    cache, resolving it answers that entry with the tier DISK-HIT and the
    fingerprint; the only store access is the read of that entry: the memory
    cache is not consulted (whatever it holds) and the renderer is not
    called.  The handler answers so every request that passes its checks. *)
Theorem resolve_disk_hit (w : World) (body : string) (ls : list Layer)
    (key : string) (buf : Buffer) :
  generateCacheKey body (Some ls) = Return key ->
  readFile (disk w) (getCachePath key) = inr buf ->
  exists w',
    resolve body ls w = (Return (Png DISK_HIT (Some key) buf), w') /\
    trace w' = trace w ++ [EvReadFile (getCachePath key)] /\
    cache w' = cache w /\ disk w' = disk w /\
    (forall req, validate req = inr ls -> bodyTypeName req = body ->
                 apiGenerate req w = (Return (Png DISK_HIT (Some key) buf), w')).
Proof.
  intros Hk Hr.
  assert (resolve body ls w =
          (Return (Png DISK_HIT (Some key) buf), emit (EvReadFile (getCachePath key)) w))
    as Hres.
  { unfold resolve. run.
    rewrite (getCachedSpritesheet_hit w body (Some ls) key buf Hk Hr). reflexivity. }
  eexists. split; [exact Hres|]. repeat split.
  intros req Hv <-. now apply apiGenerate_valid with ls.
Qed.

(** C7. A definition that is in neither cache is rendered by the first
    resolution, which stores the bytes in the memory cache (the handler
    labels this tier MISS; it is the generated tier), and is served from the
    memory cache by the second one (tier MEMORY-HIT) when it comes within the
    time to live, with the same bytes; the second resolution does not render.
    The handler answers so every request that passes its checks. *)
Theorem resolve_twice (w : World) (body : string) (ls : list Layer)
    (key : string) (e : Errno) (t : Z) :
  body <> EmptyString ->
  generateCacheKey body (Some ls) = Return key ->
  readFile (disk w) (getCachePath key) = inl e ->
  liveEntry w (JSON.stringify body ls) = None ->
  now w <= t <= now w + stdTTL * 1000 ->
  exists buf w1 w2,
    resolve body ls w = (Return (Png MISS None buf), w1) /\
    trace w1 = trace w ++ [EvReadFile (getCachePath key);
                           EvCacheGet (JSON.stringify body ls);
                           EvRender (mkDef body (Some ls));
                           EvCacheSet (JSON.stringify body ls)] /\
    resolve body ls (at_time t w1) = (Return (Png MEMORY_HIT None buf), w2) /\
    trace w2 = trace w1 ++ [EvReadFile (getCachePath key);
                            EvCacheGet (JSON.stringify body ls)] /\
    (forall req, validate req = inr ls -> bodyTypeName req = body ->
                 apiGenerate req w = (Return (Png MISS None buf), w1) /\
                 apiGenerate req (at_time t w1) = (Return (Png MEMORY_HIT None buf), w2)).
Proof.
  intros Hb Hk Hr Hm Ht.
  pose proof (generateSpritesheet_returns (mkDef body (Some ls)) Hb ls eq_refl) as Hgen.
  set (canvas := fold_left _ _ _) in Hgen. clearbody canvas.
  set (k := JSON.stringify body ls) in *.
  set (p := getCachePath key) in *.
  set (stored := fun c : gmap string (Buffer * Z) =>
                   <[k := (toBuffer canvas, now w + stdTTL * 1000)]> c).
  assert (exists c1,
            resolve body ls w =
              (Return (Png MISS None (toBuffer canvas)),
               mkWorld (disk w) (stored c1) (now w)
                 (trace w ++ [EvReadFile p; EvCacheGet k;
                              EvRender (mkDef body (Some ls)); EvCacheSet k])))
    as [c1 Hfirst].
  { unfold resolve. run.
    rewrite (getCachedSpritesheet_miss w body (Some ls) key e Hk Hr). simpl.
    unfold cache_get, liveEntry in *. simpl. fold k.
    destruct (cache w !! k) as [[v tv]|] eqn:Hc.
    - destruct (expired tv (now w)); [|discriminate].
      exists (delete k (cache w)). simpl. unfold render. rewrite Hgen. simpl.
      unfold cache_set, emit, set_cache. simpl. now rewrite <- !app_assoc.
    - exists (cache w). simpl. unfold render. rewrite Hgen. simpl.
      unfold cache_set, emit, set_cache. simpl. now rewrite <- !app_assoc. }
  set (w1 := mkWorld _ _ _ _) in Hfirst.
  assert (resolve body ls (at_time t w1) =
            (Return (Png MEMORY_HIT None (toBuffer canvas)),
             emit (EvCacheGet k) (emit (EvReadFile p) (at_time t w1)))) as Hsecond.
  { unfold resolve. run.
    rewrite (getCachedSpritesheet_miss _ body (Some ls) key e Hk) by exact Hr. simpl.
    unfold cache_get. simpl. fold k. unfold stored. rewrite lookup_insert_eq.
    unfold expired.
    replace (now w + stdTTL * 1000 <? t) with false by (symmetry; apply Z.ltb_ge; lia).
    rewrite andb_false_r. reflexivity. }
  exists (toBuffer canvas), w1, (emit (EvCacheGet k) (emit (EvReadFile p) (at_time t w1))).
  split; [exact Hfirst|]. split; [reflexivity|]. split; [exact Hsecond|].
  split; [simpl; now rewrite <- app_assoc|].
  intros req Hv <-. split; now apply apiGenerate_valid with ls.
Qed.

End DiskCacheFacts.

Section StorageErrors.
Context `{R : Runtime}.

Lemma saveCachedSpritesheet_ok w b ls key buf d d' :
  generateCacheKey b ls = Return key ->
  mkdir (disk w) = inr d ->
  writeFile d (getCachePath key) buf = inr d' ->
  saveCachedSpritesheet b ls buf w =
    (Return (Some key),
     emit (EvWriteFile (getCachePath key)) (set_disk d' (emit EvMkdir (set_disk d w)))).
Proof.
  intros Hk Hm Hw. unfold saveCachedSpritesheet, fs_writeFile. run. rewrite Hk, Hm. simpl.
  now rewrite Hw.
Qed.

Lemma saveCachedSpritesheet_mkdir_fails w b ls key buf e :
  generateCacheKey b ls = Return key ->
  mkdir (disk w) = inl e ->
  saveCachedSpritesheet b ls buf w = (Return None, emit EvMkdir w).
Proof.
  intros Hk Hm. unfold saveCachedSpritesheet. run. now rewrite Hk, Hm.
Qed.

Lemma saveCachedSpritesheet_write_fails w b ls key buf d e d' :
  generateCacheKey b ls = Return key ->
  mkdir (disk w) = inr d ->
  writeFile d (getCachePath key) buf = inl (e, d') ->
  saveCachedSpritesheet b ls buf w =
    (Return None,
     emit (EvWriteFile (getCachePath key)) (set_disk d' (emit EvMkdir (set_disk d w)))).
Proof.
  intros Hk Hm Hw. unfold saveCachedSpritesheet, fs_writeFile. run. rewrite Hk, Hm. simpl.
  now rewrite Hw.
Qed.

Lemma saveCachedSpritesheet_nokey w b ls buf e :
  generateCacheKey b ls = Throw e ->
  saveCachedSpritesheet b ls buf w = (Return None, w).
Proof. intros Hk. unfold saveCachedSpritesheet. run. now rewrite Hk. Qed.

Lemma mkdir_files d d' : mkdir d = inr d' -> files d' = files d.
Proof.
  unfold mkdir. destruct (dir_exists d); [now intros [= <-]|].
  destruct (write_fault d); [discriminate | now intros [= <-]].
Qed.

(** What a write that fails leaves behind: the entries other than the one
    written are as before, and that one is as before or holds the first
    bytes of the buffer, none of them when the write failed at once. *)
Lemma writeFile_fails_leaves d p buf e d' :
  writeFile d p buf = inl (e, d') ->
  (forall f, f <> p -> files d' !! f = files d !! f) /\
  (files d' !! p = files d !! p \/
   exists written, files d' !! p = Some (firstn written buf)).
Proof.
  unfold writeFile. destruct (dir_exists d); [|intros [= _ <-]; split; auto].
  destruct (write_fault d), (faults d !! p), (write_breaks d) as [[written eb]|];
    intros [= _ <-]; try (split; [reflexivity | now left]).
  simpl. split.
  - intros f Hf. now apply lookup_insert_ne.
  - right. exists written. apply lookup_insert_eq.
Qed.

(** C6, as the code has it. A storage error is neither retried nor handed
    to the caller as an error.  A failed read of an entry, whatever the
    cause, is answered with the record of a miss, as for an absent entry,
    after that one read.  A failed creation of the directory or a failed
    write is answered with a null key, without throwing, after that one
    attempt. *)
Theorem storage_errors_swallowed :
  (forall (w : World) (b : string) (ls : option (list Layer)) (key : string) (e : Errno),
      generateCacheKey b ls = Return key ->
      readFile (disk w) (getCachePath key) = inl e ->
      getCachedSpritesheet b ls w =
        (Return (mkCached None None false), emit (EvReadFile (getCachePath key)) w)) /\
  (forall (w : World) (b : string) (ls : option (list Layer)) (key : string)
          (buf : Buffer) (e : Errno),
      generateCacheKey b ls = Return key ->
      (mkdir (disk w) = inl e \/
       exists d d', mkdir (disk w) = inr d /\
                    writeFile d (getCachePath key) buf = inl (e, d')) ->
      exists w',
        saveCachedSpritesheet b ls buf w = (Return None, w') /\
        (trace w' = trace w ++ [EvMkdir] \/
         trace w' = trace w ++ [EvMkdir; EvWriteFile (getCachePath key)])).
Proof.
  split.
  - intros w b ls key e. apply getCachedSpritesheet_miss.
  - intros w b ls key buf e Hk [Hm|(d & d' & Hm & Hw)].
    + eexists. split; [now apply (saveCachedSpritesheet_mkdir_fails w b ls key buf e)|].
      now left.
    + eexists.
      split; [now apply (saveCachedSpritesheet_write_fails w b ls key buf d e d')|].
      right. simpl. now rewrite <- app_assoc.
Qed.

End StorageErrors.

Lemma redKey_is_key : generateCacheKey "male" (Some [layerRed]) = Return redKey.
Proof. vm_compute. reflexivity. Qed.

Lemma storage_errors_swallowed_witness :
  getCachedSpritesheet "male" (Some [layerRed]) faultyWorld =
    (Return (mkCached None None false), emit (EvReadFile (getCachePath redKey)) faultyWorld) /\
  exists w',
    saveCachedSpritesheet "male" (Some [layerRed]) png fullWorld = (Return None, w') /\
    (trace w' = trace fullWorld ++ [EvMkdir] \/
     trace w' = trace fullWorld ++ [EvMkdir; EvWriteFile (getCachePath redKey)]).
Proof.
  split.
  - apply (proj1 storage_errors_swallowed faultyWorld "male" (Some [layerRed]) redKey EIO).
    + exact redKey_is_key.
    + vm_compute. reflexivity.
  - apply (proj2 storage_errors_swallowed fullWorld "male" (Some [layerRed]) redKey png ENOSPC).
    + exact redKey_is_key.
    + right. exists fullDisk. eexists. split; vm_compute; reflexivity.
Defined.

(** C6: a read that fails with EIO on an entry that exists is answered like
    a miss on an empty directory, not with an error; a write that fails with
    ENOSPC is answered with a null key, not with an error. *)
Lemma storage_errors_not_surfaced :
  readFile (disk faultyWorld) (getCachePath redKey) = inl EIO /\
  fst (getCachedSpritesheet "male" (Some [layerRed]) faultyWorld)
    = Return (mkCached None None false) /\
  fst (getCachedSpritesheet "male" (Some [layerRed]) freshWorld)
    = Return (mkCached None None false) /\
  (exists d, writeFile (disk fullWorld) (getCachePath redKey) png = inl (ENOSPC, d)) /\
  fst (saveCachedSpritesheet "male" (Some [layerRed]) png fullWorld) = Return None.
Proof.
  split; [vm_compute; reflexivity|]. split; [vm_compute; reflexivity|].
  split; [vm_compute; reflexivity|]. split; [eexists|]; vm_compute; reflexivity.
Qed.

Lemma resolve_disk_hit_witness :
  exists w',
    resolve "male" [layerRed] cachedWorld = (Return (Png DISK_HIT (Some redKey) png), w') /\
    trace w' = trace cachedWorld ++ [EvReadFile (getCachePath redKey)] /\
    cache w' = cache cachedWorld /\ disk w' = disk cachedWorld /\
    (forall req, validate req = inr [layerRed] -> bodyTypeName req = "male"%string ->
                 apiGenerate req cachedWorld =
                   (Return (Png DISK_HIT (Some redKey) png), w')).
Proof.
  apply (resolve_disk_hit cachedWorld "male" [layerRed] redKey png).
  - exact redKey_is_key.
  - vm_compute. reflexivity.
Defined.

Lemma resolve_twice_witness :
  exists buf w1 w2,
    resolve "male" [layerRed] freshWorld = (Return (Png MISS None buf), w1) /\
    trace w1 = trace freshWorld ++
                 [EvReadFile (getCachePath redKey);
                  EvCacheGet (JSON.stringify "male" [layerRed]);
                  EvRender (mkDef "male" (Some [layerRed]));
                  EvCacheSet (JSON.stringify "male" [layerRed])] /\
    resolve "male" [layerRed] (at_time 60000 w1) = (Return (Png MEMORY_HIT None buf), w2) /\
    trace w2 = trace w1 ++ [EvReadFile (getCachePath redKey);
                            EvCacheGet (JSON.stringify "male" [layerRed])] /\
    (forall req, validate req = inr [layerRed] -> bodyTypeName req = "male"%string ->
                 apiGenerate req freshWorld = (Return (Png MISS None buf), w1) /\
                 apiGenerate req (at_time 60000 w1)
                   = (Return (Png MEMORY_HIT None buf), w2)).
Proof.
  apply (resolve_twice freshWorld "male" [layerRed] redKey ENOENT 60000).
  - discriminate.
  - exact redKey_is_key.
  - vm_compute. reflexivity.
  - reflexivity.
  - simpl. unfold stdTTL. lia.
Defined.

(** ** Clearing the cache *)

Example endsWith_png :
  endsWith "0b5e.png" ".png" = true /\ endsWith ".png" ".png" = true /\
  endsWith "notes.txt" ".png" = false /\ endsWith "png" ".png" = false /\
  endsWith "a.png.tmp" ".png" = false.
Proof. repeat split. Qed.

(** Whatever happens, the loop touches no entry outside its list and adds
    none. *)
Lemma unlinkEach_frame (l : list string) (w : World) (f : string) :
  ~ In f l ->
  files (disk (snd (unlinkEach l w))) !! f = files (disk w) !! f.
Proof.
  unfold unlinkEach. revert w. induction l as [|x l IH]; intros w Hf; [reflexivity|].
  simpl. run. unfold unlink.
  destruct (dir_exists (disk w)); [|reflexivity].
  destruct (write_fault (disk w)); [reflexivity|].
  destruct (faults (disk w) !! x); [reflexivity|].
  destruct (files (disk w) !! x) eqn:Hx; [|reflexivity].
  rewrite IH by (intros Hin; apply Hf; now right). simpl.
  apply lookup_delete_ne. intros ->. apply Hf. now left.
Qed.

Lemma unlinkEach_cache (l : list string) (w : World) :
  cache (snd (unlinkEach l w)) = cache w.
Proof.
  unfold unlinkEach. revert w. induction l as [|x l IH]; intros w; [reflexivity|].
  simpl. run.
  destruct (unlink (disk w) x); [reflexivity|]. now rewrite IH.
Qed.

(** On a working medium every listed entry that exists is removed. *)
Lemma unlinkEach_all (l : list string) (w : World) :
  dir_exists (disk w) = true -> sound (disk w) ->
  NoDup l -> (forall f, In f l -> is_Some (files (disk w) !! f)) ->
  exists w',
    unlinkEach l w = (Return tt, w') /\
    (forall f, In f l -> files (disk w') !! f = None).
Proof.
  unfold unlinkEach. revert w.
  induction l as [|x l IH]; intros w Hdir (Hfaults & Hwf & Hwb) Hnd Hin.
  - eexists. split; [reflexivity|]. intros f [].
  - apply NoDup_cons in Hnd as [Hx Hnd].
    destruct (Hin x (or_introl eq_refl)) as [buf Hbuf].
    assert (unlink (disk w) x =
            inr (mkDisk true (delete x (files (disk w))) (faults (disk w))
                        (write_fault (disk w)) (write_breaks (disk w)))) as Hun.
    { unfold unlink. now rewrite Hdir, Hwf, Hfaults, lookup_empty, Hbuf. }
    set (w1 := emit (EvUnlink x) (set_disk (mkDisk true (delete x (files (disk w)))
                     (faults (disk w)) (write_fault (disk w)) (write_breaks (disk w))) w)).
    destruct (IH w1) as (w' & Hrun & Hgone); try easy.
    { intros f Hf. simpl. rewrite lookup_delete_ne; [apply Hin; now right|].
      intros ->. apply Hx. now apply list_elem_of_In. }
    exists w'. split.
    + simpl. run. rewrite Hun. exact Hrun.
    + intros f [<-|Hf]; [|now apply Hgone].
      pose proof (unlinkEach_frame l w1 x) as Hfr. unfold unlinkEach in Hfr.
      rewrite Hrun in Hfr. simpl in Hfr. rewrite Hfr.
      * apply lookup_delete_eq.
      * intros Hc. apply Hx. now apply list_elem_of_In.
Qed.

Lemma readdir_listing (d : Disk) (f : string) :
  In f (map fst (map_to_list (files d))) <-> is_Some (files d !! f).
Proof.
  rewrite <- list_elem_of_In, list_elem_of_fmap. split.
  - intros ([k v] & -> & Hkv). apply elem_of_map_to_list in Hkv. now exists v.
  - intros [v Hv]. exists (f, v). split; [reflexivity|]. now apply elem_of_map_to_list.
Qed.

Lemma readdir_NoDup (d : Disk) : NoDup (map fst (map_to_list (files d))).
Proof. apply NoDup_fst_map_to_list. Qed.

Lemma pngEntries_In (d : Disk) (f : string) :
  In f (pngEntries d) <-> is_Some (files d !! f) /\ endsWith f ".png" = true.
Proof. unfold pngEntries, listing. rewrite filter_In, readdir_listing. tauto. Qed.

Lemma pngEntries_NoDup (d : Disk) : List.NoDup (pngEntries d).
Proof. apply List.NoDup_filter, NoDup_ListNoDup, readdir_NoDup. Qed.

(** When an unlink succeeds. *)
Lemma unlink_succeeds (d : Disk) (p : string) :
  (exists d', unlink d p = inr d') <->
  dir_exists d = true /\ write_fault d = None /\ faults d !! p = None /\
  is_Some (files d !! p).
Proof.
  unfold unlink.
  destruct (dir_exists d); [|split; [intros [d' [=]] | intros ([=] & _)]].
  destruct (write_fault d); [split; [intros [d' [=]] | intros (_ & [=] & _)]|].
  destruct (faults d !! p); [split; [intros [d' [=]] | intros (_ & _ & [=] & _)]|].
  destruct (files d !! p).
  - split; [intros _; repeat split; now eexists | intros _; now eexists].
  - split; [intros [d' [=]] | intros (_ & _ & _ & [? [=]])].
Qed.

Lemma unlink_inr (d d' : Disk) (p : string) :
  unlink d p = inr d' ->
  d' = mkDisk true (delete p (files d)) (faults d) (write_fault d) (write_breaks d).
Proof.
  unfold unlink. destruct (dir_exists d); [|discriminate].
  destruct (write_fault d); [discriminate|].
  destruct (faults d !! p); [discriminate|].
  destruct (files d !! p); [now intros [= <-] | discriminate].
Qed.

Lemma unlinkEach_cons (x : string) (l : list string) (w : World) :
  unlinkEach (x :: l) w =
    match unlink (disk w) x with
    | inl e => (Throw (SystemError e x), emit (EvUnlink x) w)
    | inr d => unlinkEach l (emit (EvUnlink x) (set_disk d w))
    end.
Proof. unfold unlinkEach. simpl. run. now destruct (unlink (disk w) x). Qed.

(** The loop only removes: every entry is as before or gone. *)
Lemma unlinkEach_shrinks (l : list string) (w : World) (f : string) :
  files (disk (snd (unlinkEach l w))) !! f = files (disk w) !! f \/
  files (disk (snd (unlinkEach l w))) !! f = None.
Proof.
  revert w. induction l as [|x l IH]; intros w; [now left|].
  rewrite unlinkEach_cons.
  destruct (unlink (disk w) x) as [e|d] eqn:Hun; [now left|].
  apply unlink_inr in Hun. subst d.
  destruct (IH (emit (EvUnlink x)
                  (set_disk (mkDisk true (delete x (files (disk w))) (faults (disk w))
                                    (write_fault (disk w)) (write_breaks (disk w))) w)))
    as [Hsame|Hgone]; [|right; exact Hgone].
  destruct (decide (f = x)) as [->|Hne].
  - right. etransitivity; [exact Hsame|]. apply lookup_delete_eq.
  - left. etransitivity; [exact Hsame|]. simpl. now apply lookup_delete_ne.
Qed.

(** A loop that comes to its end has removed every entry of its list. *)
Lemma unlinkEach_done (l : list string) (w w' : World) :
  unlinkEach l w = (Return tt, w') ->
  forall f, In f l -> files (disk w') !! f = None.
Proof.
  revert w. induction l as [|x l IH]; intros w Hrun f Hin; [destruct Hin|].
  rewrite unlinkEach_cons in Hrun.
  destruct (unlink (disk w) x) as [e|d] eqn:Hun; [discriminate|].
  apply unlink_inr in Hun. subst d.
  destruct (in_dec string_dec f l) as [Hl|Hnl]; [now apply (IH _ Hrun)|].
  destruct Hin as [->|Hin]; [|contradiction].
  match type of Hrun with
  | unlinkEach l ?w1 = _ => pose proof (unlinkEach_frame l w1 f Hnl) as Hfr
  end.
  rewrite Hrun in Hfr. simpl in Hfr. rewrite Hfr. apply lookup_delete_eq.
Qed.

(** The loop comes to its end exactly when every entry of its list can be
    unlinked. *)
Lemma unlinkEach_returns (l : list string) (w : World) :
  List.NoDup l ->
  (fst (unlinkEach l w) = Return tt <->
   forall f, In f l -> exists d', unlink (disk w) f = inr d').
Proof.
  revert w. induction l as [|x l IH]; intros w Hnd.
  - split; [intros _ f [] | reflexivity].
  - apply List.NoDup_cons_iff in Hnd as [Hx Hnd]. rewrite unlinkEach_cons.
    destruct (unlink (disk w) x) as [e|d] eqn:Hun.
    + split; [discriminate|]. intros Hall.
      destruct (Hall x (or_introl eq_refl)) as [d' Hd']. congruence.
    + pose proof (unlink_inr _ _ _ Hun) as ->.
      pose proof (proj1 (unlink_succeeds (disk w) x) (ex_intro _ _ Hun))
        as (Hdir & Hwf & _ & _).
      rewrite IH by exact Hnd. simpl.
      assert (forall f, f <> x ->
                ((exists d', unlink (mkDisk true (delete x (files (disk w)))
                                            (faults (disk w)) (write_fault (disk w))
                                            (write_breaks (disk w))) f
                             = inr d') <->
                 (exists d', unlink (disk w) f = inr d'))) as Hsame.
      { intros f Hne. rewrite !unlink_succeeds. simpl.
        rewrite lookup_delete_ne by congruence. rewrite Hdir. tauto. }
      split.
      * intros Hall f [<-|Hin]; [eexists; exact Hun|].
        apply Hsame; [intros ->; contradiction | now apply Hall].
      * intros Hall f Hin. apply Hsame; [intros ->; contradiction|].
        apply Hall. now right.
Qed.

(** The function by cases: the listing fails, the loop over the entries
    whose name ends in [.png] comes to its end, or it stops at an unlink that
    fails. *)
Lemma clearCache_cases `{R : Runtime} (w : World) :
  clearCache w =
    if dir_exists (disk w) then
      match unlinkEach (pngEntries (disk w)) (emit EvReaddir w) with
      | (Return _, w') =>
          (Return (mkClear true (List.length (pngEntries (disk w))) None), w')
      | (Throw e, w') => (Return (mkClear false 0 (Some (message e))), w')
      end
    else (Return (mkClear false 0 (Some (message (SystemError ENOENT ".")))),
          emit EvReaddir w).
Proof.
  unfold clearCache, unlinkEach, pngEntries, listing. run. unfold readdir.
  destruct (dir_exists (disk w)); [|reflexivity].
  now destruct (for_of _ _ _ _) as [[[]|e] w'].
Qed.

(** C10, as the code has it. Clearing the cache never throws and leaves
    every entry whose name does not end in [.png] as it was; it creates and
    changes nothing: every entry is as before or removed.  It reports
    success exactly when the directory exists and every entry whose name
    ends in [.png] can be unlinked; all of these are removed then, and their
    number is reported as deletedCount.  Otherwise it stops at the listing
    or at the first unlink that fails and reports failure with the error and
    a deletedCount of 0, whatever was removed before. *)
Theorem clearCache_png_only `{R : Runtime} (w : World) :
  exists r w',
    clearCache w = (Return r, w') /\
    (forall f, endsWith f ".png" = false ->
               files (disk w') !! f = files (disk w) !! f) /\
    (forall f, files (disk w') !! f = files (disk w) !! f \/ files (disk w') !! f = None) /\
    (success r = true <->
     dir_exists (disk w) = true /\
     forall f, In f (pngEntries (disk w)) -> exists d', unlink (disk w) f = inr d') /\
    (success r = true ->
     deletedCount r = List.length (pngEntries (disk w)) /\ error r = None /\
     forall f, endsWith f ".png" = true -> files (disk w') !! f = None) /\
    (success r = false -> deletedCount r = 0%nat /\ is_Some (error r)).
Proof.
  rewrite clearCache_cases.
  destruct (dir_exists (disk w)) eqn:Hdir.
  - pose proof (unlinkEach_frame (pngEntries (disk w)) (emit EvReaddir w)) as Hframe.
    pose proof (unlinkEach_shrinks (pngEntries (disk w)) (emit EvReaddir w)) as Hshrinks.
    pose proof (unlinkEach_returns (pngEntries (disk w)) (emit EvReaddir w)
                  (pngEntries_NoDup _)) as Hret.
    pose proof (unlinkEach_done (pngEntries (disk w)) (emit EvReaddir w)) as Hdone.
    assert (forall f, endsWith f ".png" = false -> ~ In f (pngEntries (disk w))) as Hnot.
    { intros f Hf Hin. apply pngEntries_In in Hin as [_ Hin]. congruence. }
    destruct (unlinkEach (pngEntries (disk w)) (emit EvReaddir w)) as [[[]|e] w'] eqn:Hrun;
      simpl in Hframe, Hshrinks, Hret.
    + eexists _, w'. split; [reflexivity|].
      split; [intros f Hf; now apply Hframe, Hnot|].
      split; [exact Hshrinks|]. simpl.
      split; [split; [intros _; split; [reflexivity | now apply Hret] | reflexivity]|].
      split; [|discriminate].
      intros _. split; [reflexivity|]. split; [reflexivity|].
      intros f Hf. destruct (files (disk w) !! f) as [buf|] eqn:Hbuf.
      * apply (Hdone w' eq_refl), pngEntries_In. split; [now exists buf | exact Hf].
      * destruct (Hshrinks f) as [Hs|Hs]; [now rewrite Hs | exact Hs].
    + eexists _, w'. split; [reflexivity|].
      split; [intros f Hf; now apply Hframe, Hnot|].
      split; [exact Hshrinks|]. simpl.
      split.
      { split; [discriminate|]. intros [_ Hall]. apply Hret in Hall. discriminate. }
      split; [discriminate|]. intros _. split; [reflexivity | now eexists].
  - eexists _, _. split; [reflexivity|]. simpl.
    split; [reflexivity|]. split; [now left|].
    split; [split; [discriminate | intros [[=] _]]|].
    split; [discriminate|]. intros _. split; [reflexivity | now eexists].
Qed.

Lemma clearCache_png_only_witness :
  exists r w',
    clearCache mixedWorld = (Return r, w') /\
    r = mkClear true 2 None /\
    files (disk w') !! "a.png"%string = None /\
    files (disk w') !! "b.png"%string = None /\
    files (disk w') !! "notes.txt"%string = Some [].
Proof.
  destruct (clearCache_png_only mixedWorld)
    as (r & w' & Hrun & Hframe & _ & Hiff & Hok & _).
  assert (success r = true) as Hs.
  { apply Hiff. split; [reflexivity|].
    intros f Hf. apply unlink_succeeds.
    pose proof (proj1 (pngEntries_In (disk mixedWorld) f) Hf) as [Hf' _].
    split; [reflexivity|]. split; [reflexivity|]. split; [apply lookup_empty | exact Hf']. }
  destruct (Hok Hs) as (Hn & He & Hgone).
  exists r, w'. split; [exact Hrun|]. split.
  - destruct r as [s n e]. simpl in *. subst. reflexivity.
  - split; [now apply Hgone|]. split; [now apply Hgone|].
    now rewrite Hframe.
Defined.

(** C10: one sheet of the directory cannot be unlinked (its name is that
    of a directory, EISDIR).  The other sheet is removed, the failing one
    stays, and the answer reports failure with a deletedCount of 0: the
    files whose name ends in [.png] are not all removed, and the reported
    number is not the number of the removed ones. *)
Lemma clearCache_partial_removal :
  pngEntries (disk stuckWorld) = ["a.png"; "b.png"]%string /\
  exists msg w',
    clearCache stuckWorld = (Return (mkClear false 0 (Some msg)), w') /\
    files (disk w') !! "a.png"%string = None /\
    files (disk w') !! "b.png"%string = Some png /\
    files (disk w') !! "notes.txt"%string = Some [].
Proof.
  split; [vm_compute; reflexivity|].
  eexists _, _. split; [vm_compute; reflexivity|].
  repeat split; vm_compute; reflexivity.
Qed.

(** ** Pre-generation *)

Section PreGenerateFacts.
Context `{R : Runtime}.

Lemma saveCachedSpritesheet_total w b ls buf :
  exists h w', saveCachedSpritesheet b ls buf w = (Return h, w') /\ cache w' = cache w.
Proof.
  destruct (generateCacheKey b ls) as [key|e] eqn:Hk.
  - destruct (mkdir (disk w)) as [e|d] eqn:Hm.
    + erewrite saveCachedSpritesheet_mkdir_fails by eassumption. eauto.
    + destruct (writeFile d (getCachePath key) buf) as [[e d']|d'] eqn:Hw.
      * erewrite saveCachedSpritesheet_write_fails by eassumption. eauto.
      * erewrite saveCachedSpritesheet_ok by eassumption. eauto.
  - erewrite saveCachedSpritesheet_nokey by eassumption. eauto.
Qed.

Lemma writeFile_inr d p buf d' :
  writeFile d p buf = inr d' ->
  dir_exists d' = true /\ files d' = <[p := buf]> (files d) /\
  faults d' = faults d /\ write_fault d' = write_fault d /\
  write_breaks d' = write_breaks d.
Proof.
  unfold writeFile. destruct (dir_exists d); [|discriminate].
  destruct (write_fault d), (faults d !! p), (write_breaks d) as [[written eb]|];
    intros [= <-].
  easy.
Qed.

(** A put either stores the sheet under its key or fails and answers no
    key. *)
Lemma saveCachedSpritesheet_put w b ls key buf :
  generateCacheKey b ls = Return key ->
  exists h w',
    saveCachedSpritesheet b ls buf w = (Return h, w') /\
    cache w' = cache w /\
    (h = Some key /\ dir_exists (disk w') = true /\
     files (disk w') = <[getCachePath key := buf]> (files (disk w)) \/
     h = None /\ putFails (disk w) (getCachePath key) buf (disk w')).
Proof.
  intros Hk. destruct (mkdir (disk w)) as [e|d] eqn:Hm.
  - erewrite saveCachedSpritesheet_mkdir_fails by eassumption.
    eexists _, _. split; [reflexivity|]. split; [reflexivity|].
    right. split; [reflexivity|]. left. now exists e.
  - destruct (writeFile d (getCachePath key) buf) as [[e d']|d'] eqn:Hw.
    + erewrite saveCachedSpritesheet_write_fails by eassumption.
      eexists _, _. split; [reflexivity|]. split; [reflexivity|].
      right. split; [reflexivity|]. right. now exists d, e.
    + erewrite saveCachedSpritesheet_ok by eassumption.
      eexists _, _. split; [reflexivity|]. split; [reflexivity|].
      left. split; [reflexivity|]. simpl.
      apply writeFile_inr in Hw as (Hd & Hfiles & _).
      split; [exact Hd|]. now rewrite Hfiles, (mkdir_files _ _ Hm).
Qed.

(** On a working medium the sheet is stored under its key. *)
Lemma saveCachedSpritesheet_sound w b ls key buf :
  sound (disk w) ->
  generateCacheKey b ls = Return key ->
  exists w',
    saveCachedSpritesheet b ls buf w = (Return (Some key), w') /\
    sound (disk w') /\ dir_exists (disk w') = true /\
    files (disk w') = <[getCachePath key := buf]> (files (disk w)) /\
    cache w' = cache w.
Proof.
  intros (Hf & Hwf & Hwb) Hk.
  assert (exists d, mkdir (disk w) = inr d /\ dir_exists d = true /\
                    files d = files (disk w) /\ faults d = ∅ /\
                    write_fault d = None /\ write_breaks d = None)
    as (d & Hm & Hd & Hfiles & Hf' & Hwf' & Hwb').
  { unfold mkdir. destruct (dir_exists (disk w)) eqn:Hdir; [eauto 10|].
    rewrite Hwf. eexists. split; [reflexivity|]. simpl. auto. }
  eexists. split.
  - eapply saveCachedSpritesheet_ok; [eassumption..|].
    unfold writeFile. now rewrite Hd, Hwf', Hf', Hwb', lookup_empty.
  - simpl. rewrite Hfiles. repeat split; assumption.
Qed.

(** A put on a medium that works does not fail. *)
Lemma putFails_unsound d p buf d' : putFails d p buf d' -> ~ sound d.
Proof.
  intros Hput (Hf & Hwf & Hwb). destruct Hput as [[e [Hm _]]|(d1 & e & Hm & Hw)].
  - unfold mkdir in Hm. rewrite Hwf in Hm. now destruct (dir_exists d).
  - assert (dir_exists d1 = true /\ faults d1 = ∅ /\ write_fault d1 = None /\
            write_breaks d1 = None)
      as (Hd1 & Hf1 & Hwf1 & Hwb1).
    { unfold mkdir in Hm. rewrite Hwf in Hm.
      destruct (dir_exists d) eqn:Hd; injection Hm as <-; auto. }
    unfold writeFile in Hw. rewrite Hd1, Hwf1, Hf1, Hwb1, lookup_empty in Hw.
    discriminate.
Qed.

(** One turn of the loop: one more result, one counter moved by one. *)
Lemma preGenerateItem_step (acc : Tally) (def : LayerDefinition) (w : World) :
  exists r w',
    preGenerateItem acc def w =
      (Return (mkTally (results acc ++ [r])
                       (generated acc + count isGenerated [r])
                       (alreadyCached acc + count isAlreadyCached [r])
                       (failed acc + count isFailed [r])), w') /\
    cache w' = cache w /\
    reported def r /\
    preGenerated (disk w) def r (disk w') /\
    (sound (disk w) -> sound (disk w') /\ isUnsaved r = false).
Proof.
  destruct def as [b ls]. unfold preGenerateItem. simpl.
  destruct (generateCacheKey b ls) as [key|e] eqn:Hk.
  - destruct (readFile (disk w) (getCachePath key)) as [e|buf] eqn:Hr.
    + (* a miss *)
      run. rewrite (getCachedSpritesheet_miss w b ls key e Hk Hr). simpl.
      unfold render.
      assert (notCached (disk w) (mkDef b ls)) as Hnc.
      { intros key' Hk'. simpl in Hk'. rewrite Hk in Hk'. injection Hk' as <-. eauto. }
      destruct (generateSpritesheet (mkDef b ls)) as [canvas|err] eqn:Hgen.
      * destruct (saveCachedSpritesheet_put
                    (emit (EvRender (mkDef b ls)) (emit (EvReadFile (getCachePath key)) w))
                    b ls key (toBuffer canvas) Hk) as (h & w' & Hsave & Hcache & Hput).
        exists (item_generated b h (List.length (toBuffer canvas))), w'.
        rewrite Hsave. simpl.
        split; [now rewrite !Nat.add_0_r, Nat.add_1_r|]. split; [exact Hcache|].
        split; [split; [reflexivity | now exists canvas]|].
        simpl in Hput. destruct Hput as [(-> & Hdir & Hfiles)|[-> Hfails]].
        -- split; [now apply (pre_generated (disk w) (mkDef b ls) canvas key (disk w'))|].
           intros Hsound. split; [|reflexivity].
           destruct (saveCachedSpritesheet_sound
                       (emit (EvRender (mkDef b ls)) (emit (EvReadFile (getCachePath key)) w))
                       b ls key (toBuffer canvas) Hsound Hk)
             as (w'' & Hsave' & Hs'' & _).
           rewrite Hsave in Hsave'. now injection Hsave' as <-.
        -- split; [now apply (pre_unsaved (disk w) (mkDef b ls) canvas key (disk w'))|].
           intros Hsound. now apply putFails_unsound in Hfails.
      * eexists (item_failed b (message err)), _. simpl.
        split; [now rewrite !Nat.add_0_r, Nat.add_1_r|]. split; [reflexivity|].
        split; [split; [reflexivity | now exists err]|].
        split; [now apply (pre_failed (disk w) (mkDef b ls) err) | auto].
    + (* a hit *)
      run. rewrite (getCachedSpritesheet_hit w b ls key buf Hk Hr). simpl.
      eexists (item_already_cached b (Some key)), _. simpl.
      split; [now rewrite !Nat.add_0_r, Nat.add_1_r|]. split; [reflexivity|].
      split; [split; [reflexivity | now rewrite Hk]|].
      split; [now apply (pre_already_cached (disk w) (mkDef b ls) key buf) | auto].
  - (* no key: the layers are not an array, and rendering throws *)
    run. rewrite (getCachedSpritesheet_nokey w b ls e Hk). simpl.
    unfold render.
    assert (ls = None) as ->.
    { destruct ls; [discriminate | reflexivity]. }
    assert (generateSpritesheet (mkDef b None) = Throw InvalidLayerDefinition) as Hgen.
    { unfold generateSpritesheet. simpl. now destruct (String.eqb b ""). }
    rewrite Hgen.
    eexists (item_failed b (message InvalidLayerDefinition)), _. simpl.
    split; [now rewrite !Nat.add_0_r, Nat.add_1_r|]. split; [reflexivity|].
    split; [split; [reflexivity | now exists InvalidLayerDefinition]|].
    split; [|auto].
    apply (pre_failed (disk w) (mkDef b None) InvalidLayerDefinition); [|exact Hgen].
    intros key' Hk'. simpl in Hk'. discriminate.
Qed.

Lemma count_app p rs1 rs2 : count p (rs1 ++ rs2) = (count p rs1 + count p rs2)%nat.
Proof. unfold count. now rewrite List.filter_app, length_app. Qed.

Lemma count_partition rs :
  (count isGenerated rs + count isAlreadyCached rs + count isFailed rs)%nat = List.length rs.
Proof.
  unfold count. induction rs as [|[]] ; simpl; lia.
Qed.

(** A turn on an element that is not null is the [try] of the turn. *)
Lemma preGenerateTurn_Some (acc : Tally) (def : LayerDefinition) (w : World) :
  preGenerateTurn acc (Some def) w = preGenerateItem acc def w.
Proof. reflexivity. Qed.

Lemma preGenerate_loop (defs : list LayerDefinition) (acc : Tally) (w : World) :
  exists rs w',
    for_of (map Some defs) preGenerateTurn acc w =
      (Return (mkTally (results acc ++ rs)
                       (generated acc + count isGenerated rs)
                       (alreadyCached acc + count isAlreadyCached rs)
                       (failed acc + count isFailed rs)), w') /\
    List.length rs = List.length defs /\
    cache w' = cache w /\
    Forall2 reported defs rs /\
    preGeneratedAll (disk w) defs rs (disk w') /\
    (sound (disk w) -> sound (disk w') /\ count isUnsaved rs = 0%nat).
Proof.
  revert acc w. induction defs as [|def defs IH]; intros acc w.
  - exists [], w. simpl. rewrite app_nil_r, !Nat.add_0_r. destruct acc.
    split; [reflexivity|]. split; [reflexivity|]. split; [reflexivity|].
    split; [constructor|]. split; [constructor|]. intros Hsound. now split.
  - destruct (preGenerateItem_step acc def w)
      as (r & w1 & Hstep & Hc1 & Hrep & Hitem & Hs1).
    destruct (IH (mkTally (results acc ++ [r])
                          (generated acc + count isGenerated [r])
                          (alreadyCached acc + count isAlreadyCached [r])
                          (failed acc + count isFailed [r])) w1)
      as (rs & w' & Hloop & Hlen & Hc & Hreps & Hall & Hs).
    exists (r :: rs), w'. simpl. run. rewrite preGenerateTurn_Some, Hstep, Hloop. simpl.
    rewrite <- app_assoc. simpl.
    change (r :: rs) with ([r] ++ rs). rewrite !count_app, !Nat.add_assoc.
    split; [reflexivity|]. split; [simpl; now rewrite Hlen|].
    split; [congruence|]. split; [now constructor|].
    split; [econstructor; [exact Hitem | exact Hall]|].
    intros Hsound. destruct (Hs1 Hsound) as [Hsound1 Hsaved].
    destruct (Hs Hsound1) as [Hsound' Hnone]. split; [exact Hsound'|].
    unfold count in *. simpl. now rewrite Hsaved.
Qed.

Lemma for_of_app {A S : Type} (xs ys : list A) (body : S -> A -> Async S) (acc : S)
    (w : World) :
  for_of (xs ++ ys) body acc w =
    match for_of xs body acc w with
    | (Return acc', w') => for_of ys body acc' w'
    | (Throw e, w') => (Throw e, w')
    end.
Proof.
  revert acc w. induction xs as [|x xs IH]; intros acc w; [reflexivity|].
  simpl. run. destruct (body acc x w) as [[acc'|e] w']; [apply IH | reflexivity].
Qed.

(** C8, as the code has it. The body is an array whose elements are
    definitions or null.

    When no element is null, pre-generation goes through the whole array
    and answers one result per definition, in order, with counts of
    generated, already cached and failed definitions that add up to the
    size of the array; the memory cache is left alone.  Each definition is
    handled from the state the previous ones left: when its fingerprint has
    an entry that can be read, it is reported as already cached and nothing
    changes; otherwise it is rendered; when the rendering throws, it is
    reported as failed with the error in its own result; when it renders, one
    put of the sheet under its fingerprint is attempted and the definition
    is reported as generated, with the fingerprint when the sheet was stored
    and with no hash when the put failed (a failed put is not a failure of
    the item).  On a working medium no put fails.

    A null element stops the loop: the definitions before it have been
    handled, the ones after it are not, and the answer is the 500 of the
    handler with no summary.  A body that is not an array is answered 400
    and nothing is touched. *)
Theorem preGenerate_batch (w : World) :
  (forall definitions : list LayerDefinition,
     exists summary results w',
       preGenerate (Some (map Some definitions)) w
         = (Return (generate_done summary results), w') /\
       List.length results = List.length definitions /\
       total summary = List.length definitions /\
       sum_generated summary = count isGenerated results /\
       sum_alreadyCached summary = count isAlreadyCached results /\
       sum_failed summary = count isFailed results /\
       (sum_generated summary + sum_alreadyCached summary + sum_failed summary)%nat
         = List.length definitions /\
       cache w' = cache w /\
       Forall2 reported definitions results /\
       preGeneratedAll (disk w) definitions results (disk w') /\
       (sound (disk w) -> count isUnsaved results = 0%nat)) /\
  (forall (definitions : list LayerDefinition) (rest : list (option LayerDefinition)),
     exists results w',
       preGenerate (Some (map Some definitions ++ None :: rest)) w
         = (Return (generate_error 500 "Failed to pre-generate cache"
                      "Cannot destructure property 'bodyTypeName' of 'def' as it is null."),
            w') /\
       cache w' = cache w /\
       preGeneratedAll (disk w) definitions results (disk w')) /\
  preGenerate None w
    = (Return (generate_error 400 "Invalid request"
                 "Body must be an array of character definitions"), w).
Proof.
  split; [|split; [|reflexivity]].
  - intros definitions.
    destruct (preGenerate_loop definitions (mkTally [] 0 0 0) w)
      as (rs & w' & Hloop & Hlen & Hc & Hreps & Hall & Hs).
    eexists _, rs, w'. split.
    + unfold preGenerate. run. rewrite Hloop. simpl. rewrite length_map. reflexivity.
    + simpl. repeat split; try assumption; try reflexivity.
      * rewrite <- Hlen. apply count_partition.
      * intros Hsound. now apply Hs.
  - intros definitions rest.
    destruct (preGenerate_loop definitions (mkTally [] 0 0 0) w)
      as (rs & w' & Hloop & _ & Hc & _ & Hall & _).
    exists rs, w'. split; [|split; assumption].
    unfold preGenerate. run. rewrite for_of_app, Hloop. reflexivity.
Qed.

End PreGenerateFacts.

(** ** The serialisation tells requests apart *)

#[local] Arguments String.append !s1 s2 / : simpl nomatch.

Lemma append_assoc (a b c : string) : (a +:+ b) +:+ c = a +:+ (b +:+ c).
Proof. induction a as [|x a IH]; simpl; [reflexivity | now rewrite IH]. Qed.

Lemma append_cancel (a x y : string) : a +:+ x = a +:+ y -> x = y.
Proof. induction a as [|c a IH]; simpl; [easy | intros [= H]; auto]. Qed.

(** Two words that start the same text: one is a prefix of the other. *)
Lemma append_prefix (u v x y : string) :
  u +:+ x = v +:+ y -> String.prefix u v = true \/ String.prefix v u = true.
Proof.
  revert v. induction u as [|a u IH]; intros [|b v]; simpl; auto.
  intros [= -> H]. destruct (ascii_dec b b); [|contradiction].
  destruct (IH v H); auto.
Qed.

Lemma all_ascii_complete (c : ascii) : In c all_ascii.
Proof.
  unfold all_ascii. rewrite <- (ascii_nat_embedding c). apply in_map.
  apply in_seq. pose proof (nat_ascii_bounded c). lia.
Qed.

(** The escapes of two characters never start the same text unless they are
    escapes of the same character, and none starts with a quote. *)
Lemma quoteChar_prefix_free (c1 c2 : ascii) :
  String.prefix (JSON.quoteChar c1) (JSON.quoteChar c2) = true -> c1 = c2.
Proof.
  assert (forallb (fun a => forallb (fun b =>
            implb (String.prefix (JSON.quoteChar a) (JSON.quoteChar b)) (Ascii.eqb a b))
            all_ascii) all_ascii = true) as Hall by (vm_compute; reflexivity).
  rewrite forallb_forall in Hall. specialize (Hall c1 (all_ascii_complete c1)).
  rewrite forallb_forall in Hall. specialize (Hall c2 (all_ascii_complete c2)).
  intros Hp. rewrite Hp in Hall. simpl in Hall. now apply Ascii.eqb_eq.
Qed.

Lemma quoteChar_head (c : ascii) :
  exists h t, JSON.quoteChar c = String h t /\ h <> JSON.dquote.
Proof.
  assert (forallb (fun a => match JSON.quoteChar a with
                            | String h _ => negb (Ascii.eqb h JSON.dquote)
                            | EmptyString => false
                            end) all_ascii = true) as Hall by (vm_compute; reflexivity).
  rewrite forallb_forall in Hall. specialize (Hall c (all_ascii_complete c)).
  destruct (JSON.quoteChar c) as [|h t]; [discriminate|].
  exists h, t. split; [reflexivity|]. intros ->.
  rewrite Ascii.eqb_refl in Hall. discriminate.
Qed.

Lemma quoteChar_inj (c1 c2 : ascii) (x y : string) :
  JSON.quoteChar c1 +:+ x = JSON.quoteChar c2 +:+ y -> c1 = c2 /\ x = y.
Proof.
  intros H. assert (c1 = c2) as ->.
  { destruct (append_prefix _ _ _ _ H) as [Hp|Hp];
      [|symmetry]; now apply quoteChar_prefix_free. }
  split; [reflexivity | now apply append_cancel in H].
Qed.

(** An escaped string ends at the first quote. *)
Lemma escape_delimited (s1 s2 r1 r2 : string) :
  JSON.escape s1 +:+ String JSON.dquote r1 = JSON.escape s2 +:+ String JSON.dquote r2 ->
  s1 = s2 /\ r1 = r2.
Proof.
  revert s2. induction s1 as [|c1 s1 IH]; intros [|c2 s2]; simpl.
  - now intros [= ->].
  - rewrite append_assoc. destruct (quoteChar_head c2) as (h & t & -> & Hh).
    simpl. intros [= <- _]. contradiction.
  - rewrite append_assoc. destruct (quoteChar_head c1) as (h & t & -> & Hh).
    simpl. intros [= -> _]. contradiction.
  - rewrite !append_assoc. intros H. apply quoteChar_inj in H as [-> H].
    apply IH in H as [-> ->]. auto.
Qed.

Lemma quote_delimited (s1 s2 r1 r2 : string) :
  JSON.quote s1 +:+ r1 = JSON.quote s2 +:+ r2 -> s1 = s2 /\ r1 = r2.
Proof.
  unfold JSON.quote. simpl. rewrite !append_assoc. simpl.
  intros [= H]. now apply escape_delimited.
Qed.

(** A number ends where the digits end. *)

Lemma uint_delimited (d1 d2 : Decimal.uint) (r1 r2 : string) :
  NilEmpty.string_of_uint d1 +:+ r1 = NilEmpty.string_of_uint d2 +:+ r2 ->
  noDigitAhead r1 -> noDigitAhead r2 -> d1 = d2 /\ r1 = r2.
Proof.
  revert d2. induction d1; intros []; simpl; intros H N1 N2;
    try discriminate H;
    try (injection H as H; apply IHd1 in H as [-> ->]; auto; fail);
    try (subst; simpl in *; destruct N1 as [N|N]; discriminate N);
    try (subst; simpl in *; destruct N2 as [N|N]; discriminate N).
  auto.
Qed.

Lemma number_delimited (z1 z2 : Z) (r1 r2 : string) :
  JSON.number z1 +:+ r1 = JSON.number z2 +:+ r2 ->
  noDigitAhead r1 -> noDigitAhead r2 -> z1 = z2 /\ r1 = r2.
Proof.
  unfold JSON.number. intros H N1 N2.
  assert (forall z, exists d, d <> Decimal.Nil /\
            (Z.to_int z = Decimal.Pos d \/ Z.to_int z = Decimal.Neg d)) as Hd.
  { intros [|p|p]; simpl.
    - exists (Decimal.D0 Decimal.Nil). split; [discriminate | now left].
    - exists (Pos.to_uint p). split; [apply Unsigned.to_uint_nonnil | now left].
    - exists (Pos.to_uint p). split; [apply Unsigned.to_uint_nonnil | now right]. }
  assert (forall d, d <> Decimal.Nil ->
            NilZero.string_of_uint d = NilEmpty.string_of_uint d) as Hnz
    by (intros []; easy).
  assert (forall d, d <> Decimal.Nil ->
            exists c t, NilEmpty.string_of_uint d = String c t /\ c <> "-"%char) as Hhd.
  { intros [] Hn; try contradiction; simpl; eexists _, _; (split; [reflexivity | discriminate]). }
  destruct (Hd z1) as (d1 & Hn1 & [E1|E1]), (Hd z2) as (d2 & Hn2 & [E2|E2]);
    rewrite E1, E2 in H; simpl in H; rewrite ?Hnz in H by assumption.
  - apply uint_delimited in H as [-> ->]; try assumption.
    split; [|reflexivity]. apply to_int_inj. congruence.
  - destruct (Hhd d1 Hn1) as (c & t & Hc & Hne). rewrite Hc in H. simpl in H.
    injection H as -> _. contradiction.
  - destruct (Hhd d2 Hn2) as (c & t & Hc & Hne). rewrite Hc in H. simpl in H.
    injection H as <- _. contradiction.
  - injection H as H. apply uint_delimited in H as [-> ->]; try assumption.
    split; [|reflexivity]. apply to_int_inj. congruence.
Qed.

Lemma append_cons (c : ascii) (a b : string) : String c a +:+ b = String c (a +:+ b).
Proof. reflexivity. Qed.

Lemma append_empty (b : string) : EmptyString +:+ b = b.
Proof. reflexivity. Qed.

Lemma String_inj (c : ascii) (x y : string) : String c x = String c y -> x = y.
Proof. now intros [= ->]. Qed.

(** Flatten a concatenation without unfolding what it concatenates. *)
Ltac flatten_in H := rewrite ?append_assoc, ?append_cons, ?append_empty in H.

Lemma member_quote_delimited (key : string) (v1 v2 : option string) (r1 r2 : string) :
  JSON.member key JSON.quote v1 +:+ String "}" r1
    = JSON.member key JSON.quote v2 +:+ String "}" r2 ->
  v1 = v2 /\ r1 = r2.
Proof.
  destruct v1 as [v1|], v2 as [v2|]; unfold JSON.member; intros H; flatten_in H.
  - apply String_inj, quote_delimited in H as [_ H].
    apply String_inj, quote_delimited in H as [-> H].
    apply String_inj in H as ->. auto.
  - discriminate H.
  - discriminate H.
  - apply String_inj in H as ->. auto.
Qed.

Lemma quote_zPos (x : string) :
  JSON.quote "zPos" +:+ x =
    String JSON.dquote (String "z" (String "P" (String "o" (String "s"
      (String JSON.dquote x))))).
Proof. reflexivity. Qed.

Lemma quote_variant (x : string) :
  exists t, JSON.quote "variant" +:+ x = String JSON.dquote (String "v" t).
Proof. eexists. reflexivity. Qed.

(** A serialised layer ends at its closing brace. *)
Lemma layer_delimited (l1 l2 : Layer) (r1 r2 : string) :
  JSON.layer l1 +:+ r1 = JSON.layer l2 +:+ r2 -> l1 = l2 /\ r1 = r2.
Proof.
  destruct l1 as [f1 z1 v1], l2 as [f2 z2 v2]. unfold JSON.layer. simpl fileName.
  simpl zPos. simpl variant. intros H. flatten_in H.
  apply String_inj, quote_delimited in H as [_ H].
  apply String_inj, quote_delimited in H as [-> H].
  assert (forall (v : option string) r,
            noDigitAhead (JSON.member "variant" JSON.quote v +:+ String "}" r)) as Hnd.
  { intros [v|] r; unfold JSON.member; rewrite ?append_cons, ?append_empty; simpl; auto. }
  assert (forall (v : option string) r,
            exists t, JSON.member "variant" JSON.quote v +:+ String "}" r = String "}" t \/
                      JSON.member "variant" JSON.quote v +:+ String "}" r
                        = String "," (String JSON.dquote (String "v" t))) as Hv.
  { intros [v|] r; unfold JSON.member; rewrite ?append_assoc, ?append_cons, ?append_empty;
      [|eauto].
    destruct (quote_variant (String ":" (JSON.quote v +:+ String "}" r))) as [t ->]. eauto. }
  destruct z1 as [z1|], z2 as [z2|]; unfold JSON.member at 1 3 in H; flatten_in H.
  - apply String_inj, quote_delimited in H as [_ H].
    apply String_inj, number_delimited in H as [-> H]; try apply Hnd.
    apply member_quote_delimited in H as [-> ->]. auto.
  - rewrite quote_zPos in H.
    destruct (Hv v2 r2) as [t [Ht|Ht]]; rewrite Ht in H; discriminate H.
  - rewrite quote_zPos in H.
    destruct (Hv v1 r1) as [t [Ht|Ht]]; rewrite Ht in H; discriminate H.
  - apply member_quote_delimited in H as [-> ->]. auto.
Qed.

Lemma layer_head (l : Layer) : exists t, JSON.layer l = String "{" t.
Proof. unfold JSON.layer. rewrite append_cons. eauto. Qed.

Lemma elements_cons (l : Layer) (ls : list Layer) :
  JSON.elements (l :: ls) =
    match ls with
    | [] => JSON.layer l
    | _ => JSON.layer l +:+ "," +:+ JSON.elements ls
    end.
Proof. now destruct ls. Qed.

(** The elements of the array end at its closing bracket. *)
Lemma elements_delimited (ls1 ls2 : list Layer) (r1 r2 : string) :
  JSON.elements ls1 +:+ String "]" r1 = JSON.elements ls2 +:+ String "]" r2 ->
  ls1 = ls2 /\ r1 = r2.
Proof.
  revert ls2. induction ls1 as [|l1 ls1 IH]; intros [|l2 ls2]; rewrite ?elements_cons.
  - simpl JSON.elements. rewrite !append_empty. now intros [= ->].
  - simpl JSON.elements. rewrite append_empty.
    destruct ls2; rewrite ?append_assoc;
      destruct (layer_head l2) as [t ->]; rewrite append_cons; discriminate.
  - simpl JSON.elements. rewrite append_empty.
    destruct ls1; rewrite ?append_assoc;
      destruct (layer_head l1) as [t ->]; rewrite append_cons; discriminate.
  - intros H.
    destruct ls1 as [|a1 t1], ls2 as [|a2 t2]; rewrite ?append_assoc in H;
      apply layer_delimited in H as [-> H]; flatten_in H.
    + apply String_inj in H as ->. auto.
    + discriminate H.
    + discriminate H.
    + apply String_inj, IH in H as [-> ->]. auto.
Qed.

(** The key of the memory cache determines the request: two requests with
    the same key have the same body type and the same layers in the same
    order. *)
Lemma stringify_inj (b1 b2 : string) (ls1 ls2 : list Layer) :
  JSON.stringify b1 ls1 = JSON.stringify b2 ls2 -> b1 = b2 /\ ls1 = ls2.
Proof.
  unfold JSON.stringify. intros H. flatten_in H.
  apply String_inj, quote_delimited in H as [_ H].
  apply String_inj, quote_delimited in H as [-> H].
  apply String_inj, quote_delimited in H as [_ H].
  apply String_inj, String_inj, elements_delimited in H as [-> _]. auto.
Qed.

(** Every reordering of the layers that changes their sequence changes the
    key of the memory cache. *)
Lemma memory_key_order_sensitive (body : string) (ls1 ls2 : list Layer) :
  ls1 <> ls2 -> JSON.stringify body ls1 <> JSON.stringify body ls2.
Proof. intros Hne H. now apply stringify_inj in H as [_ ?]. Qed.

(** ** The cache key and the memory key *)

(** Reordering leaves the cache key alone when the collation separates the
    layers: no two distinct layers have file names that compare equal. *)
Lemma generateCacheKey_reorder `{R : Runtime} `{!CollationLaws R}
    (body : string) (l1 l2 : list Layer) :
  Permutation l1 l2 ->
  (forall a b, In a l1 -> In b l1 ->
               byFileName a b <= 0 -> byFileName b a <= 0 -> a = b) ->
  generateCacheKey body (Some l1) = generateCacheKey body (Some l2).
Proof.
  intros HP Hsep. unfold generateCacheKey.
  rewrite (Array_sort_perm_unique byFileName (fun _ => True)) with (l2 := l2);
    try assumption; try reflexivity.
  - intros a b _ _. apply localeCompare_total.
  - intros a b c _ _ _. apply localeCompare_trans.
  - now apply List.Forall_forall.
Qed.

(** When the collation separates the layers, a reordering that changes
    their sequence keeps the fingerprint and changes the key of the memory
    cache: the two tiers disagree on whether the requests are the same. *)
Lemma reorder_keeps_fingerprint_changes_memory_key `{R : Runtime} `{!CollationLaws R}
    (body : string) (l1 l2 : list Layer) :
  Permutation l1 l2 -> l1 <> l2 ->
  (forall a b, In a l1 -> In b l1 ->
               byFileName a b <= 0 -> byFileName b a <= 0 -> a = b) ->
  generateCacheKey body (Some l1) = generateCacheKey body (Some l2) /\
  JSON.stringify body l1 <> JSON.stringify body l2.
Proof.
  intros HP Hne Hsep. split.
  - now apply generateCacheKey_reorder.
  - now apply memory_key_order_sensitive.
Qed.

Lemma codeUnitCompare_le (a b : string) :
  codeUnitCompare a b <= 0 <-> String.leb a b = true.
Proof.
  unfold codeUnitCompare, String.leb. destruct (String.compare a b); split; intros H;
    try reflexivity; try lia; discriminate.
Qed.

#[export] Instance host_collation : CollationLaws host.
Proof.
  split; simpl.
  - intros a b. unfold codeUnitCompare. rewrite (String.compare_antisym a b).
    destruct (String.compare b a); simpl; lia.
  - intros a b c. rewrite !codeUnitCompare_le. intros Hab Hbc.
    apply Is_true_true. apply Is_true_true in Hab, Hbc.
    exact (transitivity (R := String.le) Hab Hbc).
Qed.

Example reorder_red_green :
  generateCacheKey "male" (Some [layerRed; layerGreen])
    = generateCacheKey "male" (Some [layerGreen; layerRed]) /\
  JSON.stringify "male" [layerRed; layerGreen]
    <> JSON.stringify "male" [layerGreen; layerRed].
Proof.
  apply reorder_keeps_fingerprint_changes_memory_key.
  - apply perm_swap.
  - discriminate.
  - intros a b [<-|[<-|[]]] [<-|[<-|[]]]; try reflexivity; vm_compute; intros H1 H2;
      exfalso; (now apply H1) || (now apply H2).
Qed.

Lemma sort_tie `{R : Runtime} (a b : Layer) :
  localeCompare (fileName a) (fileName b) = 0 ->
  Array_sort byFileName [a; b] = [a; b].
Proof. intros H. simpl. unfold byFileName. now rewrite H. Qed.

(** C1, on a definition that lists one file twice. The two layers compare
    equal, the stable sort leaves them in input order, and the two orders of
    the same two layers get different cache keys. *)
Theorem cacheKey_depends_on_order `{R : Runtime} :
  localeCompare "body/red.png" "body/red.png" = 0 ->
  Permutation [redLight; redDark] [redDark; redLight] /\
  generateCacheKey "male" (Some [redLight; redDark])
    = Return "0341df0eb6a4c8c26b6d42555608861e9736516b66d9a11d249c6ad20b84a177"%string /\
  generateCacheKey "male" (Some [redDark; redLight])
    = Return "0b5e43127721a098ade6b5bf04a3f642358e979985d8e4ae7a71ab7269285f6e"%string /\
  generateCacheKey "male" (Some [redLight; redDark])
    <> generateCacheKey "male" (Some [redDark; redLight]).
Proof.
  intros Htie.
  assert (generateCacheKey "male" (Some [redLight; redDark])
          = Return "0341df0eb6a4c8c26b6d42555608861e9736516b66d9a11d249c6ad20b84a177"%string) as H1.
  { unfold generateCacheKey. rewrite sort_tie by exact Htie. vm_compute. reflexivity. }
  assert (generateCacheKey "male" (Some [redDark; redLight])
          = Return "0b5e43127721a098ade6b5bf04a3f642358e979985d8e4ae7a71ab7269285f6e"%string) as H2.
  { unfold generateCacheKey. rewrite sort_tie by exact Htie. vm_compute. reflexivity. }
  split; [apply perm_swap|]. split; [exact H1|]. split; [exact H2|].
  rewrite H1, H2. discriminate.
Qed.

Lemma cacheKey_depends_on_order_witness :
  Permutation [redLight; redDark] [redDark; redLight] /\
  generateCacheKey "male" (Some [redLight; redDark])
    = Return "0341df0eb6a4c8c26b6d42555608861e9736516b66d9a11d249c6ad20b84a177"%string /\
  generateCacheKey "male" (Some [redDark; redLight])
    = Return "0b5e43127721a098ade6b5bf04a3f642358e979985d8e4ae7a71ab7269285f6e"%string /\
  generateCacheKey "male" (Some [redLight; redDark])
    <> generateCacheKey "male" (Some [redDark; redLight]).
Proof. apply (cacheKey_depends_on_order (R := host)). reflexivity. Defined.

(** C5, on the same definition. Swapping its two layers changes the key of
    the memory cache, as the order-sensitive serialisation must, and it
    changes the fingerprint as well: both tiers tell the two orders apart. *)
Theorem reorder_changes_both_keys `{R : Runtime} :
  localeCompare "body/red.png" "body/red.png" = 0 ->
  JSON.stringify "male" [redLight; redDark] <> JSON.stringify "male" [redDark; redLight] /\
  generateCacheKey "male" (Some [redLight; redDark])
    <> generateCacheKey "male" (Some [redDark; redLight]).
Proof.
  intros Htie. split.
  - vm_compute. discriminate.
  - unfold generateCacheKey. rewrite !sort_tie by exact Htie. vm_compute. discriminate.
Qed.

Lemma reorder_changes_both_keys_witness :
  JSON.stringify "male" [redLight; redDark] <> JSON.stringify "male" [redDark; redLight] /\
  generateCacheKey "male" (Some [redLight; redDark])
    <> generateCacheKey "male" (Some [redDark; redLight]).
Proof. apply (reorder_changes_both_keys (R := host)). reflexivity. Defined.

(** A batch with a definition that does not render, a new one and the same
    one again. *)
Example preGenerate_example :
  fst (preGenerate (Some [Some (mkDef "" (Some [layerRed]));
                          Some (mkDef "male" (Some [layerRed]));
                          Some (mkDef "male" (Some [layerRed]))]) freshWorld)
  = Return (generate_done (mkSummary 3 1 1 1)
              [item_failed "" "Invalid layer definition: missing bodyTypeName or layers array";
               item_generated "male" (Some redKey) 5;
               item_already_cached "male" (Some redKey)]).
Proof. vm_compute. reflexivity. Qed.

Lemma preGenerate_batch_witness :
  exists summary results w',
    preGenerate (Some [Some (mkDef "" (Some [layerRed]));
                       Some (mkDef "male" (Some [layerRed]))]) freshWorld
      = (Return (generate_done summary results), w') /\
    List.length results = 2%nat /\
    total summary = 2%nat /\
    sum_generated summary = count isGenerated results /\
    sum_alreadyCached summary = count isAlreadyCached results /\
    sum_failed summary = count isFailed results /\
    (sum_generated summary + sum_alreadyCached summary + sum_failed summary)%nat = 2%nat /\
    cache w' = cache freshWorld /\
    Forall2 reported [mkDef "" (Some [layerRed]); mkDef "male" (Some [layerRed])] results /\
    preGeneratedAll (disk freshWorld)
      [mkDef "" (Some [layerRed]); mkDef "male" (Some [layerRed])] results (disk w') /\
    count isUnsaved results = 0%nat.
Proof.
  destruct (proj1 (preGenerate_batch freshWorld)
              [mkDef "" (Some [layerRed]); mkDef "male" (Some [layerRed])])
    as (summary & results & w' & H1 & H2 & H3 & H4 & H5 & H6 & H7 & H8 & H9 & H10 & H11).
  exists summary, results, w'. repeat split; try assumption.
  apply H11. repeat split.
Defined.

(** C8: two batches on which the claim fails.  On a full medium the sheet
    of a definition that is not cached is rendered, the write fails, and the
    definition is counted as generated, not as failed, with no hash: the
    sheet is not in the disk cache afterwards (the failed write has left an
    empty entry under its fingerprint).  And a null element makes the whole
    batch fail with the 500 answer: no summary is returned and the
    definition after it is not handled. *)
Lemma preGenerate_unsaved_or_aborted :
  (notCached (disk fullWorld) (mkDef "male" (Some [layerRed])) /\
   exists canvas w',
     generateSpritesheet (mkDef "male" (Some [layerRed])) = Return canvas /\
     preGenerate (Some [Some (mkDef "male" (Some [layerRed]))]) fullWorld
       = (Return (generate_done (mkSummary 1 1 0 0) [item_generated "male" None 5]), w') /\
     files (disk w') !! getCachePath redKey = Some [] /\
     toBuffer canvas <> []) /\
  (exists msg w',
     preGenerate (Some [None; Some (mkDef "male" (Some [layerRed]))]) freshWorld
       = (Return (generate_error 500 "Failed to pre-generate cache" msg), w') /\
     files (disk w') = ∅).
Proof.
  split.
  - split.
    + intros key Hkey. exists ENOENT. unfold readFile. simpl. now rewrite lookup_empty.
    + eexists _, _. split; [reflexivity|]. split; [vm_compute; reflexivity|].
      split; [vm_compute; reflexivity | discriminate].
  - eexists _, _. split; vm_compute; reflexivity.
Qed.

Lemma render_throws_iff_witness :
  generateSpritesheet (mkDef "" (Some [layerRed])) = Throw InvalidLayerDefinition /\
  exists canvas, generateSpritesheet (mkDef "male" (Some [])) = Return canvas.
Proof.
  split.
  - apply (proj1 (render_throws_iff (mkDef "" (Some [layerRed])))). now left.
  - apply (proj1 (proj2 (render_throws_iff (mkDef "male" (Some []))))).
    split; [discriminate | now eexists].
Defined.

(** The request of the specification's scenario and the same request with
    its layers swapped: one fingerprint, two memory keys.  Once the first is
    rendered the second still misses the memory cache. *)
Example swapped_request_misses_memory :
  generateCacheKey "male" (Some [layerRed; layerGreen])
    = generateCacheKey "male" (Some [layerGreen; layerRed]) /\
  JSON.stringify "male" [layerRed; layerGreen]
    <> JSON.stringify "male" [layerGreen; layerRed] /\
  exists buf,
    fst (resolve "male" [layerRed; layerGreen] freshWorld) = Return (Png MISS None buf) /\
    fst (resolve "male" [layerRed; layerGreen]
           (snd (resolve "male" [layerRed; layerGreen] freshWorld)))
      = Return (Png MEMORY_HIT None buf) /\
    fst (resolve "male" [layerGreen; layerRed]
           (snd (resolve "male" [layerRed; layerGreen] freshWorld)))
      = Return (Png MISS None buf).
Proof.
  split; [vm_compute; reflexivity|]. split; [vm_compute; discriminate|].
  eexists. split; [vm_compute; reflexivity|]. split; vm_compute; reflexivity.
Qed.

(** * Further properties *)

(** ** Listing, statistics and removal *)

Lemma listCachedSpritesheets_run (w : World) :
  listCachedSpritesheets w =
    (Return (if dir_exists (disk w) then pngEntries (disk w) else []), emit EvReaddir w).
Proof.
  unfold listCachedSpritesheets, pngEntries, listing. run. unfold readdir.
  now destruct (dir_exists (disk w)).
Qed.

(** X1. Listing the cache never fails and changes no store: it answers the
    entries of the directory whose name ends in [.png], each once, and the
    empty list when the directory does not exist. *)
Theorem listCachedSpritesheets_lists_png (w : World) :
  exists names w',
    listCachedSpritesheets w = (Return names, w') /\
    same_stores w w' /\
    List.NoDup names /\
    (dir_exists (disk w) = false -> names = []) /\
    (dir_exists (disk w) = true ->
     forall f, In f names <-> is_Some (files (disk w) !! f) /\ endsWith f ".png" = true).
Proof.
  eexists _, _. split; [apply listCachedSpritesheets_run|].
  split; [repeat split|].
  destruct (dir_exists (disk w)).
  - split; [apply pngEntries_NoDup|]. split; [discriminate|].
    intros _ f. apply pngEntries_In.
  - split; [constructor|]. split; [reflexivity | discriminate].
Qed.

Lemma listCachedSpritesheets_lists_png_witness :
  exists names w',
    listCachedSpritesheets mixedWorld = (Return names, w') /\
    same_stores mixedWorld w' /\
    List.NoDup names /\
    (dir_exists (disk mixedWorld) = false -> names = []) /\
    (dir_exists (disk mixedWorld) = true ->
     forall f, In f names <->
               is_Some (files (disk mixedWorld) !! f) /\ endsWith f ".png" = true).
Proof. exact (listCachedSpritesheets_lists_png mixedWorld). Defined.

(** The loop of the statistics on entries that can be read. *)
Lemma stat_loop (names : list string) (acc : Z) (w : World) :
  dir_exists (disk w) = true -> faults (disk w) = ∅ ->
  (forall f, In f names -> is_Some (files (disk w) !! f)) ->
  for_of names (fun totalSize file => size ← fs_stat file; mret (totalSize + size)) acc w
    = (Return (acc + totalBytes (disk w) names), w).
Proof.
  intros Hdir Hf. revert acc. induction names as [|f names IH]; intros acc Hin; simpl.
  - run. now rewrite Z.add_0_r.
  - destruct (Hin f (or_introl eq_refl)) as [buf Hbuf].
    assert (sizeOf (disk w) f = Z.of_nat (List.length buf)) as ->
        by (unfold sizeOf; now rewrite Hbuf).
    run. unfold fs_stat, stat_size, readFile. rewrite Hdir, Hf, lookup_empty, Hbuf.
    simpl. run. rewrite IH by (intros g Hg; apply Hin; now right).
    f_equal. f_equal. lia.
Qed.

Lemma getCacheStats_run (w : World) :
  dir_exists (disk w) = true -> faults (disk w) = ∅ ->
  getCacheStats w =
    (Return (mkStats (List.length (pngEntries (disk w)))
               (totalBytes (disk w) (pngEntries (disk w)))
               (js_string (toFixed2_MB (totalBytes (disk w) (pngEntries (disk w)))))),
     emit EvReaddir w).
Proof.
  intros Hdir Hf. unfold getCacheStats. run. unfold readdir. rewrite Hdir.
  fold (listing (disk w)). fold (pngEntries (disk w)).
  pose proof (stat_loop (pngEntries (disk w)) 0 (emit EvReaddir w) Hdir Hf) as Hloop.
  run. rewrite Hloop; [reflexivity|].
  intros f Hin. now apply pngEntries_In in Hin as [? _].
Qed.

(** X2. On a directory that exists and whose entries can be read, the
    statistics count the entries whose name ends in [.png] and add up their
    sizes, other files are left out of both, and the size in megabytes is the
    text of the sum rounded to two decimals; no store changes. *)
Theorem getCacheStats_counts_png (w : World) :
  dir_exists (disk w) = true -> faults (disk w) = ∅ ->
  exists w',
    getCacheStats w =
      (Return (mkStats (List.length (pngEntries (disk w)))
                 (totalBytes (disk w) (pngEntries (disk w)))
                 (js_string (toFixed2_MB (totalBytes (disk w) (pngEntries (disk w)))))),
       w') /\
    same_stores w w'.
Proof.
  intros Hdir Hf. eexists. split; [now apply getCacheStats_run|]. repeat split.
Qed.

Lemma getCacheStats_counts_png_witness :
  exists w',
    getCacheStats mixedWorld =
      (Return (mkStats (List.length (pngEntries (disk mixedWorld)))
                 (totalBytes (disk mixedWorld) (pngEntries (disk mixedWorld)))
                 (js_string (toFixed2_MB
                               (totalBytes (disk mixedWorld) (pngEntries (disk mixedWorld)))))),
       w') /\
    same_stores mixedWorld w'.
Proof.
  apply (getCacheStats_counts_png mixedWorld); reflexivity.
Defined.

Example getCacheStats_mixed :
  fst (getCacheStats mixedWorld) = Return (mkStats 2 8 (js_string "0.00")).
Proof. vm_compute. reflexivity. Qed.

Example toFixed2_MB_values :
  toFixed2_MB 0 = "0.00"%string /\ toFixed2_MB 1048576 = "1.00"%string /\
  toFixed2_MB 2359296 = "2.25"%string /\ toFixed2_MB 5243 = "0.01"%string /\
  toFixed2_MB 5242 = "0.00"%string /\ toFixed2_MB 131072 = "0.13"%string /\
  toFixed2_MB 12345678901 = "11773.76"%string.
Proof. repeat split. Qed.





Example getCacheStats_faulty :
  fst (getCacheStats faultyWorld) = Return (mkStats 0 0 (js_number 0)).
Proof. vm_compute. reflexivity. Qed.

(** ** Removal of one entry *)

Lemma substring_all (s : string) : String.substring 0 (String.length s) s = s.
Proof. induction s as [|c s IH]; simpl; [reflexivity | now rewrite IH]. Qed.

Lemma substring_append (s suffix : string) :
  String.substring (String.length s) (String.length suffix) (s +:+ suffix) = suffix.
Proof.
  induction s as [|c s IH].
  - rewrite append_empty. apply substring_all.
  - rewrite append_cons. simpl. exact IH.
Qed.

Lemma length_append (s suffix : string) :
  String.length (s +:+ suffix) = (String.length s + String.length suffix)%nat.
Proof.
  induction s as [|c s IH].
  - now rewrite append_empty.
  - rewrite append_cons. simpl. now rewrite IH.
Qed.

(** The entry of a key always counts as a cached sheet. *)
Lemma endsWith_append (s suffix : string) : endsWith (s +:+ suffix) suffix = true.
Proof.
  unfold endsWith. rewrite length_append.
  replace (String.length s + String.length suffix - String.length suffix)%nat
    with (String.length s) by lia.
  rewrite substring_append, String.eqb_refl. simpl. apply Nat.leb_le. lia.
Qed.

Lemma endsWith_cachePath (hash : string) : endsWith (getCachePath hash) ".png" = true.
Proof. apply endsWith_append. Qed.

Lemma deleteCachedSpritesheet_run (w : World) (hash : string) :
  deleteCachedSpritesheet hash w =
    match unlink (disk w) (getCachePath hash) with
    | inr d => (Return (mkDeleteResult true ("Deleted " +:+ hash +:+ ".png")),
                emit (EvUnlink (getCachePath hash)) (set_disk d w))
    | inl e => (Return (mkDeleteResult false
                          match e with
                          | ENOENT => "File not found"
                          | _ => message (SystemError e (getCachePath hash))
                          end),
                emit (EvUnlink (getCachePath hash)) w)
    end.
Proof.
  unfold deleteCachedSpritesheet. run.
  destruct (unlink (disk w) (getCachePath hash)) as [e|d]; [|reflexivity].
  now destruct e.
Qed.

Lemma readFile_sound (d : Disk) (p : string) :
  dir_exists d = true -> faults d = ∅ ->
  readFile d p = match files d !! p with Some buf => inr buf | None => inl ENOENT end.
Proof. intros Hdir Hf. unfold readFile. now rewrite Hdir, Hf, lookup_empty. Qed.

(** X4. On a working medium, removing the entry of a hash that is in the
    cache directory succeeds with the message [Deleted <hash>.png]: that
    entry is gone, every other entry and the memory cache are as before, and
    a lookup of a definition with that fingerprint misses afterwards. *)
Theorem deleteCachedSpritesheet_removes `{R : Runtime} (w : World) (hash : string) :
  dir_exists (disk w) = true -> sound (disk w) ->
  is_Some (files (disk w) !! getCachePath hash) ->
  exists w',
    deleteCachedSpritesheet hash w =
      (Return (mkDeleteResult true ("Deleted " +:+ hash +:+ ".png")), w') /\
    files (disk w') = delete (getCachePath hash) (files (disk w)) /\
    cache w' = cache w /\
    trace w' = trace w ++ [EvUnlink (getCachePath hash)] /\
    (forall b ls, generateCacheKey b ls = Return hash ->
                  fst (getCachedSpritesheet b ls w') = Return (mkCached None None false)).
Proof.
  intros Hdir (Hf & Hwf & Hwb) [buf Hbuf].
  rewrite deleteCachedSpritesheet_run. unfold unlink.
  rewrite Hdir, Hwf, Hf, lookup_empty, Hbuf.
  eexists. split; [reflexivity|]. repeat split.
  intros b ls Hkey.
  erewrite getCachedSpritesheet_miss with (e := ENOENT); [reflexivity | exact Hkey |].
  simpl. rewrite readFile_sound by (simpl; auto). simpl.
  now rewrite lookup_delete_eq.
Qed.

Lemma deleteCachedSpritesheet_removes_witness :
  exists w',
    deleteCachedSpritesheet redKey cachedWorld =
      (Return (mkDeleteResult true ("Deleted " +:+ redKey +:+ ".png")), w') /\
    files (disk w') = delete (getCachePath redKey) (files (disk cachedWorld)) /\
    cache w' = cache cachedWorld /\
    trace w' = trace cachedWorld ++ [EvUnlink (getCachePath redKey)] /\
    (forall b ls, generateCacheKey b ls = Return redKey ->
                  fst (getCachedSpritesheet b ls w') = Return (mkCached None None false)).
Proof.
  apply (deleteCachedSpritesheet_removes cachedWorld redKey).
  - reflexivity.
  - repeat split.
  - exists png. reflexivity.
Defined.



Example deleteCachedSpritesheet_on_faulty_medium :
  fst (deleteCachedSpritesheet redKey faultyWorld)
    = Return (mkDeleteResult false (message (SystemError EIO (getCachePath redKey)))) /\
  fst (deleteCachedSpritesheet redKey freshWorld)
    = Return (mkDeleteResult false "File not found").
Proof. split; vm_compute; reflexivity. Qed.

(** ** Saving, looking up, clearing *)

(** X6. On a working medium, also when the cache directory does not exist
    yet, a saved sheet is found again: the lookup of the same definition
    hits and answers the saved bytes with the fingerprint, the listing
    names its entry, and no other entry changes. *)
Theorem save_then_lookup_hits `{R : Runtime} (w : World) (b : string)
    (ls : option (list Layer)) (key : string) (buf : Buffer) :
  sound (disk w) ->
  generateCacheKey b ls = Return key ->
  exists w1,
    saveCachedSpritesheet b ls buf w = (Return (Some key), w1) /\
    fst (getCachedSpritesheet b ls w1) = Return (mkCached (Some buf) (Some key) true) /\
    (exists names, fst (listCachedSpritesheets w1) = Return names /\
                   In (key +:+ ".png") names) /\
    (forall f, f <> key +:+ ".png" -> files (disk w1) !! f = files (disk w) !! f) /\
    cache w1 = cache w.
Proof.
  intros Hsound Hkey.
  destruct (saveCachedSpritesheet_sound w b ls key buf Hsound Hkey)
    as (w1 & Hsave & [Hf1 Hwf1] & Hdir1 & Hfiles1 & Hcache1).
  exists w1. split; [exact Hsave|].
  assert (files (disk w1) !! getCachePath key = Some buf) as Hlook.
  { rewrite Hfiles1. apply lookup_insert_eq. }
  split.
  { erewrite getCachedSpritesheet_hit; [reflexivity | exact Hkey |].
    rewrite readFile_sound by assumption. now rewrite Hlook. }
  split.
  { rewrite listCachedSpritesheets_run, Hdir1. eexists. split; [reflexivity|].
    apply pngEntries_In. split; [now exists buf | apply endsWith_append]. }
  split; [|exact Hcache1].
  intros f Hne. rewrite Hfiles1. now apply lookup_insert_ne.
Qed.

Lemma save_then_lookup_hits_witness :
  exists w1,
    saveCachedSpritesheet "male" (Some [layerRed]) png
        (mkWorld (mkDisk false ∅ ∅ None None) ∅ 0 []) = (Return (Some redKey), w1) /\
    fst (getCachedSpritesheet "male" (Some [layerRed]) w1)
      = Return (mkCached (Some png) (Some redKey) true) /\
    (exists names, fst (listCachedSpritesheets w1) = Return names /\
                   In (redKey +:+ ".png") names) /\
    (forall f, f <> redKey +:+ ".png" ->
               files (disk w1) !! f = files (mkDisk false ∅ ∅ None None) !! f) /\
    cache w1 = ∅.
Proof.
  apply (save_then_lookup_hits (mkWorld (mkDisk false ∅ ∅ None None) ∅ 0 []) "male"
           (Some [layerRed]) redKey png).
  - repeat split.
  - exact redKey_is_key.
Defined.

Lemma unlink_medium (d d' : Disk) (p : string) :
  unlink d p = inr d' ->
  dir_exists d' = true /\ faults d' = faults d /\ write_fault d' = write_fault d /\
  write_breaks d' = write_breaks d.
Proof.
  unfold unlink.
  destruct (dir_exists d); [|discriminate].
  destruct (write_fault d) eqn:Hwf; [discriminate|].
  destruct (faults d !! p); [discriminate|].
  destruct (files d !! p); [|discriminate].
  intros [= <-]. simpl. easy.
Qed.

Lemma unlinkEach_medium (l : list string) (w : World) :
  dir_exists (disk w) = true ->
  dir_exists (disk (snd (unlinkEach l w))) = true /\
  faults (disk (snd (unlinkEach l w))) = faults (disk w) /\
  write_fault (disk (snd (unlinkEach l w))) = write_fault (disk w) /\
  write_breaks (disk (snd (unlinkEach l w))) = write_breaks (disk w) /\
  now (snd (unlinkEach l w)) = now w.
Proof.
  unfold unlinkEach. revert w. induction l as [|x l IH]; intros w Hdir; [easy|].
  simpl. run.
  destruct (unlink (disk w) x) as [e|d] eqn:Hun; [easy|].
  apply unlink_medium in Hun as (Hd & Hf & Hwf & Hwb).
  destruct (IH (emit (EvUnlink x) (set_disk d w)) Hd) as (H1 & H2 & H3 & H4 & H5).
  split; [exact H1|].
  split; [etransitivity; [exact H2 | exact Hf]|].
  split; [etransitivity; [exact H3 | exact Hwf]|].
  split; [etransitivity; [exact H4 | exact Hwb]|].
  exact H5.
Qed.

Lemma clearCache_run `{R : Runtime} (w : World) :
  dir_exists (disk w) = true -> sound (disk w) ->
  exists w',
    clearCache w = (Return (mkClear true (List.length (pngEntries (disk w))) None), w') /\
    (forall f, files (disk w') !! f =
               if endsWith f ".png" then None else files (disk w) !! f) /\
    cache w' = cache w /\ now w' = now w /\
    dir_exists (disk w') = true /\ sound (disk w').
Proof.
  intros Hdir Hsound.
  destruct (unlinkEach_all (pngEntries (disk w)) (emit EvReaddir w)) as (w1 & Hrun & Hgone);
    try assumption.
  { apply NoDup_ListNoDup, pngEntries_NoDup. }
  { intros f Hf. now apply pngEntries_In in Hf as [? _]. }
  pose proof (unlinkEach_frame (pngEntries (disk w)) (emit EvReaddir w)) as Hframe.
  pose proof (unlinkEach_cache (pngEntries (disk w)) (emit EvReaddir w)) as Hcache.
  pose proof (unlinkEach_medium (pngEntries (disk w)) (emit EvReaddir w) Hdir)
    as (Hd & Hf & Hwf & Hwb & Hnow).
  rewrite Hrun in Hframe, Hcache, Hd, Hf, Hwf, Hwb, Hnow. simpl in *.
  exists w1. split.
  { unfold clearCache. run. unfold readdir. rewrite Hdir.
    fold (listing (disk w)). fold (pngEntries (disk w)).
    unfold unlinkEach in Hrun. run. now rewrite Hrun. }
  split.
  { intros f. destruct (endsWith f ".png") eqn:He.
    - destruct (files (disk w) !! f) eqn:Hlook.
      + apply Hgone, pngEntries_In. split; [eexists; exact Hlook | exact He].
      + rewrite Hframe; [exact Hlook|].
        intros Hin. apply pngEntries_In in Hin as [[? Hs] _]. congruence.
    - apply Hframe. intros Hin. apply pngEntries_In in Hin as [_ Hin]. congruence. }
  destruct Hsound as (Hs1 & Hs2 & Hs3).
  repeat split; try assumption; congruence.
Qed.

Lemma pngEntries_nil (d : Disk) :
  (forall f, endsWith f ".png" = true -> files d !! f = None) -> pngEntries d = [].
Proof.
  intros Hnone. destruct (pngEntries d) as [|f l] eqn:Hp; [reflexivity|].
  assert (In f (pngEntries d)) as Hin by (rewrite Hp; now left).
  apply pngEntries_In in Hin as [[buf Hbuf] He].
  rewrite (Hnone f He) in Hbuf. discriminate.
Qed.

(** X7. After the cache has been cleared on a working medium the disk cache
    is cold: the listing is empty, the statistics are a count of 0, a size
    of 0 and the text [0.00], and the lookup of every definition misses. *)
Theorem clearCache_then_cold `{R : Runtime} (w : World) :
  dir_exists (disk w) = true -> sound (disk w) ->
  exists n w',
    clearCache w = (Return (mkClear true n None), w') /\
    fst (listCachedSpritesheets w') = Return [] /\
    fst (getCacheStats w') = Return (mkStats 0 0 (js_string "0.00")) /\
    (forall b ls, fst (getCachedSpritesheet b ls w') = Return (mkCached None None false)).
Proof.
  intros Hdir Hsound.
  destruct (clearCache_run w Hdir Hsound)
    as (w' & Hrun & Hfiles & _ & _ & Hdir' & [Hf' Hwf']).
  exists (List.length (pngEntries (disk w))), w'. split; [exact Hrun|].
  assert (pngEntries (disk w') = []) as Hnil.
  { apply pngEntries_nil. intros f He. rewrite Hfiles. now rewrite He. }
  split. { now rewrite listCachedSpritesheets_run, Hdir', Hnil. }
  split. { rewrite getCacheStats_run by assumption. now rewrite Hnil. }
  intros b ls. destruct (generateCacheKey b ls) as [key|e] eqn:Hkey.
  - erewrite getCachedSpritesheet_miss with (e := ENOENT); [reflexivity | exact Hkey |].
    rewrite readFile_sound by assumption.
    rewrite Hfiles, endsWith_cachePath. reflexivity.
  - erewrite getCachedSpritesheet_nokey; [reflexivity | exact Hkey].
Qed.

Lemma clearCache_then_cold_witness :
  exists n w',
    clearCache mixedWorld = (Return (mkClear true n None), w') /\
    fst (listCachedSpritesheets w') = Return [] /\
    fst (getCacheStats w') = Return (mkStats 0 0 (js_string "0.00")) /\
    (forall b ls, fst (getCachedSpritesheet b ls w') = Return (mkCached None None false)).
Proof.
  apply (clearCache_then_cold mixedWorld).
  - reflexivity.
  - repeat split.
Defined.

(** ** More on the renderer *)

Section RendererMore.
Context `{R : Runtime}.

Lemma generateSpritesheets_loop (definitions : list LayerDefinition)
    (rest : list (option LayerDefinition)) (acc : list SheetResult) :
  fold_left
    (fun results def =>
       match results, def with
       | Throw error, _ => Throw error
       | Return _, None =>
           Throw (TypeError "Cannot read properties of null (reading 'bodyTypeName')")
       | Return results, Some def =>
           Return (results ++
                   [match generateSpritesheet def with
                    | Return canvas => sheet_success (bodyTypeName def) canvas
                    | Throw error => sheet_failure (bodyTypeName def) (message error)
                    end])
       end)
    (map Some definitions ++ rest) (Return acc)
  = fold_left
      (fun results def =>
         match results, def with
         | Throw error, _ => Throw error
         | Return _, None =>
             Throw (TypeError "Cannot read properties of null (reading 'bodyTypeName')")
         | Return results, Some def =>
             Return (results ++
                     [match generateSpritesheet def with
                      | Return canvas => sheet_success (bodyTypeName def) canvas
                      | Throw error => sheet_failure (bodyTypeName def) (message error)
                      end])
         end)
      rest
      (Return (acc ++ map (fun def =>
                             match generateSpritesheet def with
                             | Return canvas => sheet_success (bodyTypeName def) canvas
                             | Throw error => sheet_failure (bodyTypeName def) (message error)
                             end) definitions)).
Proof.
  revert acc. induction definitions as [|def defs IH]; intros acc; simpl.
  - now rewrite app_nil_r.
  - now rewrite IH, <- app_assoc.
Qed.

(** X8. Batch rendering of definitions none of which is null answers one
    result per definition, in the order of the definitions and under their
    names: a success with the sheet that rendering the definition alone
    returns, or a failure with the message of the renderer, which is the
    case exactly when the definition has no body type or no layers.  A
    definition that fails does not stop the ones after it; a null element
    does: the function throws and answers no result at all. *)
Theorem generateSpritesheets_each (definitions : list LayerDefinition) :
  (exists results,
     generateSpritesheets (map Some definitions) = Return results /\
     Forall2
       (fun def r =>
          match r with
          | sheet_success b canvas =>
              b = bodyTypeName def /\ generateSpritesheet def = Return canvas /\
              bodyTypeName def <> EmptyString /\ is_Some (layers def)
          | sheet_failure b msg =>
              b = bodyTypeName def /\
              msg = "Invalid layer definition: missing bodyTypeName or layers array"%string /\
              (bodyTypeName def = EmptyString \/ layers def = None)
          end)
       definitions results) /\
  (forall rest, exists error,
     generateSpritesheets (map Some definitions ++ None :: rest) = Throw error).
Proof.
  unfold generateSpritesheets. split.
  - rewrite <- (app_nil_r (map Some definitions)), generateSpritesheets_loop. simpl.
    eexists. split; [reflexivity|].
    induction definitions as [|def defs IH]; simpl; constructor; [|exact IH].
    unfold generateSpritesheet.
    destruct (String.eqb (bodyTypeName def) EmptyString) eqn:Hb.
    + apply String.eqb_eq in Hb. repeat split. now left.
    + apply String.eqb_neq in Hb. destruct (layers def) as [ls|].
      * repeat split; [exact Hb | now eexists].
      * repeat split. now right.
  - intros rest. rewrite generateSpritesheets_loop. simpl.
    eexists. induction rest as [|x rest IH]; [reflexivity|]. exact IH.
Qed.

Example generateSpritesheets_example :
  exists canvas,
    generateSpritesheets [Some (mkDef "" (Some [layerRed]));
                          Some (mkDef "male" (Some [layerRed]))]
    = Return [sheet_failure ""
                "Invalid layer definition: missing bodyTypeName or layers array";
              sheet_success "male" canvas].
Proof. eexists. reflexivity. Qed.

Lemma NoDup_map_eq {A B : Type} (f : A -> B) (l : list A) (a b : A) :
  List.NoDup (map f l) -> In a l -> In b l -> f a = f b -> a = b.
Proof.
  induction l as [|x l IH]; simpl; [easy|].
  intros Hnd Ha Hb Hab. apply List.NoDup_cons_iff in Hnd as [Hx Hnd].
  destruct Ha as [->|Ha], Hb as [->|Hb]; auto.
  - exfalso. apply Hx. rewrite Hab. now apply in_map.
  - exfalso. apply Hx. rewrite <- Hab. now apply in_map.
Qed.

(** X9. When every layer has a numeric zPos and no two layers share one,
    the sheet does not depend on the order in which the request lists the
    layers. *)
Theorem render_order_insensitive (b : string) (l1 l2 : list Layer) :
  Forall (fun l => is_Some (zPos l)) l1 ->
  List.NoDup (map zPos l1) ->
  Permutation l1 l2 ->
  generateSpritesheet (mkDef b (Some l1)) = generateSpritesheet (mkDef b (Some l2)).
Proof.
  intros Hnum Hnd Hperm. unfold generateSpritesheet. simpl.
  destruct (String.eqb b EmptyString); [reflexivity|].
  rewrite (Array_sort_perm_unique byZPos _ byZPos_total byZPos_trans l1 l2 Hnum Hperm);
    [reflexivity|].
  intros x y Hx Hy Hxy Hyx.
  rewrite List.Forall_forall in Hnum.
  destruct (Hnum x Hx) as [zx Hzx], (Hnum y Hy) as [zy Hzy].
  rewrite (byZPos_numeric x y zx zy) in Hxy by assumption.
  rewrite (byZPos_numeric y x zy zx) in Hyx by assumption.
  apply (NoDup_map_eq zPos l1); try assumption.
  rewrite Hzx, Hzy. f_equal. lia.
Qed.

(** ** Sprite paths *)

Lemma split_nonempty (sep : ascii) (s : string) : split sep s <> [].
Proof.
  destruct s as [|c s]; simpl; [discriminate|].
  destruct (Ascii.eqb c sep); [discriminate|].
  destruct (split sep s); discriminate.
Qed.

(** Joining what was split gives the text back. *)
Lemma join_split (sep : ascii) (s : string) :
  join (String sep EmptyString) (split sep s) = s.
Proof.
  induction s as [|c s IH]; [reflexivity|]. simpl.
  pose proof (split_nonempty sep s) as Hne.
  destruct (Ascii.eqb c sep) eqn:Hc.
  - apply Ascii.eqb_eq in Hc. subst c.
    destruct (split sep s) as [|w ws]; [contradiction|].
    change (join (String sep EmptyString) (EmptyString :: w :: ws))
      with (EmptyString +:+ String sep EmptyString +:+ join (String sep EmptyString) (w :: ws)).
    now rewrite IH, append_empty, append_cons, append_empty.
  - destruct (split sep s) as [|w ws]; [contradiction|].
    destruct ws as [|w' ws].
    + simpl in *. now rewrite IH.
    + change (join (String sep EmptyString) (String c w :: w' :: ws))
        with (String c w +:+ String sep EmptyString
                +:+ join (String sep EmptyString) (w' :: ws)).
      change (join (String sep EmptyString) (w :: w' :: ws))
        with (w +:+ String sep EmptyString +:+ join (String sep EmptyString) (w' :: ws))
        in IH.
      now rewrite append_cons, IH.
Qed.

Lemma split_last (sep : ascii) (dir name : string) :
  split sep name = [name] ->
  split sep (dir +:+ String sep name) = split sep dir ++ [name].
Proof.
  intros Hname. induction dir as [|c dir IH].
  - rewrite append_empty. simpl. now rewrite Ascii.eqb_refl, Hname.
  - rewrite append_cons. simpl. rewrite IH.
    destruct (Ascii.eqb c sep); [reflexivity|].
    pose proof (split_nonempty sep dir) as Hne.
    destruct (split sep dir) as [|w ws]; [contradiction | reflexivity].
Qed.

(** X10. The sprite of a layer for one animation is looked up with the
    animation's name put between the directory of the layer's file name and
    its last segment: [spritesheets/<dir>/<animName>/<name>] for the file
    name [<dir>/<name>], whatever slashes [<dir>] has; a file name without
    a slash gives an empty directory segment. *)
Theorem spritePath_inserts_animation (dir name animName : string)
    (z : option Z) (v : option string) :
  split "/" name = [name] ->
  spritePath (mkLayer (dir +:+ "/" +:+ name) z v) animName
    = ["spritesheets"%string; dir; animName; name] /\
  spritePath (mkLayer name z v) animName
    = ["spritesheets"%string; EmptyString; animName; name].
Proof.
  intros Hname. unfold spritePath. simpl fileName. split.
  - change ("/" +:+ name) with (String "/" name).
    rewrite (split_last "/" dir name Hname).
    rewrite List.last_last, List.removelast_last.
    now rewrite (join_split "/" dir).
  - now rewrite Hname.
Qed.

End RendererMore.

Lemma render_order_insensitive_witness :
  generateSpritesheet (mkDef "male" (Some [layerRed; layerGreen; layerBlue]))
  = generateSpritesheet (mkDef "male" (Some [layerBlue; layerRed; layerGreen])).
Proof.
  apply (render_order_insensitive "male" [layerRed; layerGreen; layerBlue]
           [layerBlue; layerRed; layerGreen]).
  - repeat constructor; now eexists.
  - repeat constructor; simpl; intuition discriminate.
  - apply Permutation_sym, (Permutation_cons_app [layerRed; layerGreen] []), Permutation_refl.
Defined.

Lemma spritePath_inserts_animation_witness :
  spritePath (mkLayer ("body/bodies/male" +:+ "/" +:+ "fur_grey.png") (Some 10) None) "walk"
    = ["spritesheets"; "body/bodies/male"; "walk"; "fur_grey.png"]%string /\
  spritePath (mkLayer "fur_grey.png" (Some 10) None) "walk"
    = ["spritesheets"; ""; "walk"; "fur_grey.png"]%string.
Proof.
  apply (spritePath_inserts_animation "body/bodies/male" "fur_grey.png" "walk").
  reflexivity.
Defined.

Section Coverage.
Context `{R : Runtime} `{!RuntimeLaws R}.

Lemma drawRow_inert (s : list Layer) (c : Canvas) (row : string * Z) (x y : Z) :
  sized c -> 0 <= x < SHEET_WIDTH -> 0 <= y < SHEET_HEIGHT ->
  (forall L, In L s -> paintsNothing (spriteAt L (fst row) (snd row) x y)) ->
  pixel (drawRow s c row) x y = pixel c x y.
Proof.
  intros Hc Hx Hy. unfold drawRow. revert c Hc.
  induction s as [|L s IH]; intros c Hc Hs; simpl; [reflexivity|].
  rewrite IH; [| now apply drawLayer_sized | intros L' HL'; apply Hs; now right].
  apply drawLayer_inert; try assumption. apply Hs. now left.
Qed.

Lemma drawRows_inert (s : list Layer) (rows : list (string * Z)) (c : Canvas) (x y : Z) :
  sized c -> 0 <= x < SHEET_WIDTH -> 0 <= y < SHEET_HEIGHT ->
  (forall L row, In L s -> In row rows ->
                 paintsNothing (spriteAt L (fst row) (snd row) x y)) ->
  pixel (fold_left (drawRow s) rows c) x y = pixel c x y.
Proof.
  intros Hc Hx Hy. revert c Hc.
  induction rows as [|row rows IH]; intros c Hc Hs; simpl; [reflexivity|].
  rewrite IH; [| now apply drawRow_sized | intros L r HL Hr; apply Hs; auto; now right].
  apply drawRow_inert; try assumption. intros L HL. apply Hs; auto. now left.
Qed.

(** X11. A pixel of the sheet that no sprite paints is transparent: when,
    for every layer and every animation row, the sprite does not load, does
    not cover the coordinate or is fully transparent there, the rendered
    sheet has the transparent pixel at that coordinate, whatever the layers
    put elsewhere. *)
Theorem render_unpainted_transparent (b : string) (ls : list Layer) (x y : Z) :
  b <> EmptyString ->
  0 <= x < SHEET_WIDTH -> 0 <= y < SHEET_HEIGHT ->
  (forall L row, In L ls -> In row ANIMATION_OFFSETS ->
                 paintsNothing (spriteAt L (fst row) (snd row) x y)) ->
  exists canvas,
    generateSpritesheet (mkDef b (Some ls)) = Return canvas /\
    pixel canvas x y = transparent.
Proof.
  intros Hb Hx Hy Hs. eexists. split.
  - now apply (generateSpritesheet_returns (mkDef b (Some ls))).
  - rewrite drawRows_inert; try assumption.
    + simpl. now destruct (in_rect _ _ _ _ _ _).
    + repeat split.
    + intros L row HL Hrow. apply Hs; [|exact Hrow]. now apply Array_sort_In in HL.
Qed.

End Coverage.

Lemma render_unpainted_transparent_witness :
  exists canvas,
    generateSpritesheet (mkDef "male" (Some [layerRed; layerGreen])) = Return canvas /\
    pixel canvas 64 512 = transparent.
Proof.
  apply (render_unpainted_transparent (R := host) (RuntimeLaws0 := host_laws)).
  - discriminate.
  - unfold SHEET_WIDTH. lia.
  - unfold SHEET_HEIGHT. lia.
  - intros L row [<-|[<-|[]]] Hrow; simpl in Hrow;
      repeat (destruct Hrow as [<-|Hrow]; [exact I|]); destruct Hrow.
Defined.

(** ** The handler of [POST /api/generate] *)

Section ServerMore.
Context `{R : Runtime}.

Lemma generateCacheKey_Some (b : string) (ls : list Layer) :
  exists key, generateCacheKey b (Some ls) = Return key.
Proof. now eexists. Qed.

(** The three ways a lookup ends. *)
Lemma resolve_hit (w : World) (b : string) (ls : list Layer) (key : string) (buf : Buffer) :
  generateCacheKey b (Some ls) = Return key ->
  readFile (disk w) (getCachePath key) = inr buf ->
  resolve b ls w = (Return (Png DISK_HIT (Some key) buf),
                    emit (EvReadFile (getCachePath key)) w).
Proof.
  intros Hk Hr. unfold resolve. run.
  now rewrite (getCachedSpritesheet_hit w b (Some ls) key buf Hk Hr).
Qed.

Lemma resolve_memory_hit (w : World) (b : string) (ls : list Layer) (key : string)
    (e : Errno) (buf : Buffer) :
  generateCacheKey b (Some ls) = Return key ->
  readFile (disk w) (getCachePath key) = inl e ->
  liveEntry w (JSON.stringify b ls) = Some buf ->
  resolve b ls w = (Return (Png MEMORY_HIT None buf),
                    emit (EvCacheGet (JSON.stringify b ls))
                      (emit (EvReadFile (getCachePath key)) w)).
Proof.
  intros Hk Hr Hlive. unfold resolve. run.
  rewrite (getCachedSpritesheet_miss w b (Some ls) key e Hk Hr). simpl.
  unfold cache_get, liveEntry in *. simpl.
  destruct (cache w !! JSON.stringify b ls) as [[v tv]|]; [|discriminate].
  destruct (expired tv (now w)); [discriminate|].
  now injection Hlive as ->.
Qed.

Lemma resolve_miss (w : World) (b : string) (ls : list Layer) (key : string) (e : Errno) :
  b <> EmptyString ->
  generateCacheKey b (Some ls) = Return key ->
  readFile (disk w) (getCachePath key) = inl e ->
  liveEntry w (JSON.stringify b ls) = None ->
  exists canvas w1,
    generateSpritesheet (mkDef b (Some ls)) = Return canvas /\
    resolve b ls w = (Return (Png MISS None (toBuffer canvas)), w1) /\
    disk w1 = disk w /\ now w1 = now w /\
    cache w1 !! JSON.stringify b ls = Some (toBuffer canvas, now w + stdTTL * 1000) /\
    (forall k, k <> JSON.stringify b ls -> cache w1 !! k = cache w !! k).
Proof.
  intros Hb Hk Hr Hlive.
  pose proof (generateSpritesheet_returns (mkDef b (Some ls)) Hb ls eq_refl) as Hgen.
  set (canvas := fold_left _ _ _) in Hgen. clearbody canvas.
  exists canvas. unfold resolve. run.
  rewrite (getCachedSpritesheet_miss w b (Some ls) key e Hk Hr). simpl.
  unfold cache_get, liveEntry in *. simpl.
  destruct (cache w !! JSON.stringify b ls) as [[v tv]|] eqn:Hc.
  - destruct (expired tv (now w)); [|discriminate].
    simpl. unfold render. rewrite Hgen. simpl. unfold cache_set. simpl.
    eexists. split; [reflexivity|]. split; [reflexivity|]. simpl.
    split; [reflexivity|]. split; [reflexivity|]. split.
    + apply lookup_insert_eq.
    + intros k Hne. rewrite lookup_insert_ne by congruence.
      now apply lookup_delete_ne.
  - simpl. unfold render. rewrite Hgen. simpl. unfold cache_set. simpl.
    eexists. split; [reflexivity|]. split; [reflexivity|]. simpl.
    split; [reflexivity|]. split; [reflexivity|]. split.
    + apply lookup_insert_eq.
    + intros k Hne. now rewrite lookup_insert_ne by congruence.
Qed.

(** Every lookup of a named definition ends in one of the three ways, and
    none of them writes to the cache directory or moves the clock. *)
Lemma resolve_answers (w : World) (b : string) (ls : list Layer) :
  b <> EmptyString ->
  exists x k buf w',
    resolve b ls w = (Return (Png x k buf), w') /\ disk w' = disk w /\ now w' = now w.
Proof.
  intros Hb. destruct (generateCacheKey_Some b ls) as [key Hk].
  destruct (readFile (disk w) (getCachePath key)) as [e|buf] eqn:Hr.
  - destruct (liveEntry w (JSON.stringify b ls)) as [buf|] eqn:Hlive.
    + eexists _, _, _, _. split; [exact (resolve_memory_hit w b ls key e buf Hk Hr Hlive)|]. easy.
    + destruct (resolve_miss w b ls key e Hb Hk Hr Hlive)
        as (canvas & w1 & _ & Hres & Hd & Hn & _).
      eexists _, _, _, _. split; [exact Hres|]. easy.
  - eexists _, _, _, _. split; [exact (resolve_hit w b ls key buf Hk Hr)|]. easy.
Qed.

(** X12. The handler never writes to the cache directory.  A request gets
    an image exactly when it has a body type and a non-empty list of layers
    that each have a file name and a numeric zPos; every other request gets
    a 400 answer, and no cache is consulted and nothing is rendered for it
    (the world is left as it is). *)
Theorem apiGenerate_answers (req : LayerDefinition) (w : World) :
  exists r w',
    apiGenerate req w = (Return r, w') /\
    disk w' = disk w /\
    ((exists x k buf, r = Png x k buf) <-> RenderPreconditions req) /\
    (~ RenderPreconditions req -> exists error msg, r = Json 400 error msg /\ w' = w).
Proof.
  destruct (validate req) as [bad|ls] eqn:Hv.
  - assert (~ RenderPreconditions req) as Hnot.
    { intros Hpre. destruct Hpre as [Hb (ls & Hls & Hrest)].
      assert (validate req = inr ls) as Hv'.
      { apply validate_accepts. split; [|exact Hls]. split; [exact Hb|]. now exists ls. }
      congruence. }
    assert (exists error msg, bad = Json 400 error msg) as (error & msg & ->).
    { unfold validate in Hv.
      destruct (String.eqb (bodyTypeName req) EmptyString); [injection Hv as <-; eauto|].
      destruct (layers req) as [ls|]; [|injection Hv as <-; eauto].
      destruct (List.length ls =? 0)%nat; [injection Hv as <-; eauto|].
      destruct (existsb badLayer ls); [injection Hv as <-; eauto | discriminate]. }
    exists (Json 400 error msg), w. split.
    { unfold apiGenerate, try_catch. now rewrite Hv. }
    split; [reflexivity|]. split.
    + split; [intros (x & k & buf & [=]) | intros Hpre; contradiction].
    + intros _. now exists error, msg.
  - pose proof (proj1 (validate_accepts req ls) Hv) as [Hpre Hls].
    destruct (resolve_answers w (bodyTypeName req) ls (proj1 Hpre))
      as (x & k & buf & w' & Hres & Hd & _).
    exists (Png x k buf), w'. split; [now apply apiGenerate_valid with ls|].
    split; [exact Hd|]. split.
    + split; [intros _; exact Hpre | intros _; now exists x, k, buf].
    + intros Hnot. contradiction.
Qed.

End ServerMore.

Lemma apiGenerate_answers_witness :
  exists r w',
    apiGenerate (mkDef "male" (Some [])) cachedWorld = (Return r, w') /\
    disk w' = disk cachedWorld /\
    ((exists x k buf, r = Png x k buf) <-> RenderPreconditions (mkDef "male" (Some []))) /\
    (~ RenderPreconditions (mkDef "male" (Some [])) ->
     exists error msg, r = Json 400 error msg /\ w' = cachedWorld).
Proof. exact (apiGenerate_answers (mkDef "male" (Some [])) cachedWorld). Defined.

Section Expiry.
Context `{R : Runtime}.

(** X13. A sheet in the memory cache is served for an hour and no longer.
    After a request was rendered at a time [now], the same request at a
    time later than [now + 3600 s] is rendered again (MISS, with the same
    bytes) instead of being served from memory, and the entry is stored
    anew with an expiry one hour after the second request. *)
Theorem memory_entry_expires (w : World) (b : string) (ls : list Layer)
    (key : string) (e : Errno) (t : Z) :
  b <> EmptyString ->
  generateCacheKey b (Some ls) = Return key ->
  readFile (disk w) (getCachePath key) = inl e ->
  liveEntry w (JSON.stringify b ls) = None ->
  0 <= now w ->
  now w + stdTTL * 1000 < t ->
  exists buf w1 w2,
    resolve b ls w = (Return (Png MISS None buf), w1) /\
    liveEntry w1 (JSON.stringify b ls) = Some buf /\
    liveEntry (at_time t w1) (JSON.stringify b ls) = None /\
    resolve b ls (at_time t w1) = (Return (Png MISS None buf), w2) /\
    cache w2 !! JSON.stringify b ls = Some (buf, t + stdTTL * 1000).
Proof.
  intros Hb Hk Hr Hlive Hnow Ht.
  destruct (resolve_miss w b ls key e Hb Hk Hr Hlive)
    as (canvas & w1 & Hgen & Hres & Hd & Hn & Hstored & _).
  assert (liveEntry (at_time t w1) (JSON.stringify b ls) = None) as Hdead.
  { unfold liveEntry, at_time. simpl. rewrite Hstored. unfold expired, stdTTL in *.
    replace (now w + 3600 * 1000 =? 0) with false by (symmetry; apply Z.eqb_neq; lia).
    replace (now w + 3600 * 1000 <? t) with true by (symmetry; apply Z.ltb_lt; lia).
    reflexivity. }
  destruct (resolve_miss (at_time t w1) b ls key e Hb Hk) as
    (canvas' & w2 & Hgen' & Hres' & _ & _ & Hstored' & _); try assumption.
  { simpl. now rewrite Hd. }
  assert (canvas' = canvas) as -> by congruence.
  exists (toBuffer canvas), w1, w2. split; [exact Hres|]. split.
  { unfold liveEntry. rewrite Hstored. unfold expired, stdTTL.
    replace (now w + 3600 * 1000 <? now w1) with false
      by (symmetry; apply Z.ltb_ge; lia).
    now rewrite andb_false_r. }
  split; [exact Hdead|]. split; [exact Hres'|]. exact Hstored'.
Qed.

(** X14. Rendering a request stores one entry in the memory cache, under
    the request's own serialisation: what the memory cache serves for any
    other request (another body type or other layers, also the same layers
    in another order) is what it served before. *)
Theorem memory_entries_independent (w : World) (b b' : string) (ls ls' : list Layer)
    (key : string) (e : Errno) :
  b <> EmptyString ->
  generateCacheKey b (Some ls) = Return key ->
  readFile (disk w) (getCachePath key) = inl e ->
  liveEntry w (JSON.stringify b ls) = None ->
  (b', ls') <> (b, ls) ->
  exists buf w1,
    resolve b ls w = (Return (Png MISS None buf), w1) /\
    liveEntry w1 (JSON.stringify b ls) = Some buf /\
    liveEntry w1 (JSON.stringify b' ls') = liveEntry w (JSON.stringify b' ls').
Proof.
  intros Hb Hk Hr Hlive Hne.
  destruct (resolve_miss w b ls key e Hb Hk Hr Hlive)
    as (canvas & w1 & Hgen & Hres & Hd & Hn & Hstored & Hother).
  exists (toBuffer canvas), w1. split; [exact Hres|]. split.
  - unfold liveEntry. rewrite Hstored. unfold expired, stdTTL.
    replace (now w + 3600 * 1000 <? now w1) with false
      by (symmetry; apply Z.ltb_ge; lia).
    now rewrite andb_false_r.
  - unfold liveEntry. rewrite Hother, Hn; [reflexivity|].
    intros Heq. apply stringify_inj in Heq as [-> ->]. now apply Hne.
Qed.

End Expiry.

Lemma memory_entry_expires_witness :
  exists buf w1 w2,
    resolve "male" [layerRed] freshWorld = (Return (Png MISS None buf), w1) /\
    liveEntry w1 (JSON.stringify "male" [layerRed]) = Some buf /\
    liveEntry (at_time 3600001 w1) (JSON.stringify "male" [layerRed]) = None /\
    resolve "male" [layerRed] (at_time 3600001 w1) = (Return (Png MISS None buf), w2) /\
    cache w2 !! JSON.stringify "male" [layerRed] = Some (buf, 3600001 + stdTTL * 1000).
Proof.
  apply (memory_entry_expires freshWorld "male" [layerRed] redKey ENOENT 3600001).
  - discriminate.
  - exact redKey_is_key.
  - reflexivity.
  - reflexivity.
  - simpl. lia.
  - simpl. unfold stdTTL. lia.
Defined.

Lemma memory_entries_independent_witness :
  exists buf w1,
    resolve "male" [layerRed; layerGreen] freshWorld = (Return (Png MISS None buf), w1) /\
    liveEntry w1 (JSON.stringify "male" [layerRed; layerGreen]) = Some buf /\
    liveEntry w1 (JSON.stringify "male" [layerGreen; layerRed])
      = liveEntry freshWorld (JSON.stringify "male" [layerGreen; layerRed]).
Proof.
  apply (memory_entries_independent freshWorld "male" "male" [layerRed; layerGreen]
           [layerGreen; layerRed]
           (SHA256.hex (JSON.stringify "male" (Array_sort byFileName [layerRed; layerGreen])))
           ENOENT).
  - discriminate.
  - reflexivity.
  - reflexivity.
  - reflexivity.
  - discriminate.
Defined.

(** ** The handler of [POST /api/generate-batch] *)

Lemma countBatch_cons p r rs :
  countBatch p (r :: rs) = if p r then S (countBatch p rs) else countBatch p rs.
Proof. unfold countBatch. simpl. now destruct (p r). Qed.

Lemma countBatch_partition rs :
  (countBatch isDiskHit rs + countBatch isMemoryHit rs + countBatch isBatchGenerated rs
   + countBatch isBatchError rs)%nat = List.length rs.
Proof.
  unfold countBatch. induction rs as [|r rs IH]; [reflexivity|].
  destruct r; simpl; lia.
Qed.

Section BatchFacts.
Context `{R : Runtime}.

(** A batch item with layers goes through the lookup of a single request. *)
Lemma generateBatchItem_as_resolve (acc : BatchTally) (def : LayerDefinition)
    (ls : list Layer) (w : World) :
  layers def = Some ls ->
  generateBatchItem acc def w =
    match resolve (bodyTypeName def) ls w with
    | (Return (Png x k buf), w') =>
        (Return (tallied acc (batchEntry (bodyTypeName def) x k buf)), w')
    | (Return (Json _ _ msg), w') =>
        (Return (tallied acc (batch_error (bodyTypeName def) msg)), w')
    | (Throw e, w') =>
        (Return (tallied acc (batch_error (bodyTypeName def) (message e))), w')
    end.
Proof.
  intros Hls. unfold generateBatchItem, resolve. rewrite Hls. run.
  destruct (getCachedSpritesheet (bodyTypeName def) (Some ls) w) as [[c|e] w0];
    [|reflexivity].
  destruct (hit c); [reflexivity|].
  simpl. destruct (cache_get (JSON.stringify (bodyTypeName def) ls) w0) as [[m|e] w1];
    [|reflexivity].
  destruct m as [buf|]; [reflexivity|].
  unfold render. destruct (generateSpritesheet _); reflexivity.
Qed.

(** One turn of the loop: one more result, under the definition's name; the
    cache directory and the clock are as before. *)
Lemma generateBatchItem_step (acc : BatchTally) (def : LayerDefinition) (w : World) :
  exists r w',
    generateBatchItem acc def w = (Return (tallied acc r), w') /\
    batch_name r = bodyTypeName def /\
    disk w' = disk w /\ now w' = now w.
Proof.
  destruct (getCachedSpritesheet_total w (bodyTypeName def) (layers def))
    as (c & w0 & Hget & Hd & Hc & Hn).
  unfold generateBatchItem. run. rewrite Hget.
  destruct (hit c).
  { exists (batch_disk_hit (bodyTypeName def) (hash c)
              (Base64.encode (default [] (buffer c))) (List.length (default [] (buffer c)))),
      w0. easy. }
  unfold cache_get.
  destruct (cache w0 !! requestKey (bodyTypeName def) (layers def)) as [[v tv]|].
  - destruct (expired tv (now w0)).
    + unfold render. simpl. destruct (generateSpritesheet _) as [canvas|e].
      * exists (batch_generated (bodyTypeName def) (Base64.encode (toBuffer canvas))
                  (List.length (toBuffer canvas))). eexists. split; [reflexivity|]. easy.
      * exists (batch_error (bodyTypeName def) (message e)). eexists.
        split; [reflexivity|]. easy.
    + exists (batch_memory_hit (bodyTypeName def) (Base64.encode v) (List.length v)).
      eexists. split; [reflexivity|]. easy.
  - unfold render. simpl. destruct (generateSpritesheet _) as [canvas|e].
    * exists (batch_generated (bodyTypeName def) (Base64.encode (toBuffer canvas))
                (List.length (toBuffer canvas))). eexists. split; [reflexivity|]. easy.
    * exists (batch_error (bodyTypeName def) (message e)). eexists.
      split; [reflexivity|]. easy.
Qed.

Lemma generateBatch_loop (defs : list LayerDefinition) (acc : BatchTally) (w : World) :
  exists rs w',
    for_of (map Some defs) generateBatchTurn acc w =
      (Return (mkBatchTally (batch_results acc ++ rs)
                 (diskHits acc + countBatch isDiskHit rs)
                 (memoryHits acc + countBatch isMemoryHit rs)
                 (batch_generated_count acc + countBatch isBatchGenerated rs)), w') /\
    Forall2 (fun def r => batch_name r = bodyTypeName def) defs rs /\
    disk w' = disk w /\ now w' = now w.
Proof.
  revert acc w. induction defs as [|def defs IH]; intros acc w.
  - exists [], w. simpl. unfold countBatch. simpl. rewrite app_nil_r, !Nat.add_0_r.
    destruct acc. repeat split. constructor.
  - destruct (generateBatchItem_step acc def w) as (r & w1 & Hstep & Hname & Hd1 & Hn1).
    destruct (IH (tallied acc r) w1) as (rs & w' & Hloop & Hnames & Hd & Hn).
    exists (r :: rs), w'. split.
    + simpl. run. change (generateBatchTurn acc (Some def) w)
        with (generateBatchItem acc def w). rewrite Hstep, Hloop. simpl. f_equal. f_equal.
      rewrite <- app_assoc, !countBatch_cons. simpl.
      destruct r; simpl; f_equal; lia.
    + split; [now constructor|]. split; congruence.
Qed.

(** X15. The batch handler turns down, with a 400 answer and before any
    cache is consulted, a body that is not an array or is empty
    ([Invalid request]) and a batch that has more definitions than
    MAX_BATCH_SIZE ([Too many requests], with the limit in the message);
    the limit is 200 when the variable is not set or empty. *)
Theorem apiGenerateBatch_rejects (env : Env) (w : World) :
  (forall body, body = None \/ body = Some [] ->
     apiGenerateBatch env body w =
       (Return (batch_rejected 400 "Invalid request"
                  "Request body must be a non-empty array of layer definitions"), w)) /\
  (forall definitions limit,
     definitions <> [] ->
     maxBatchSize env = Some limit ->
     limit < Z.of_nat (List.length definitions) ->
     apiGenerateBatch env (Some definitions) w =
       (Return (batch_rejected 400 "Too many requests"
                  ("Maximum " +:+ JSON.number limit +:+ " spritesheets per batch request")),
        w)) /\
  (MAX_BATCH_SIZE env = None \/ MAX_BATCH_SIZE env = Some EmptyString ->
   maxBatchSize env = Some 200).
Proof.
  split; [|split].
  - intros body [->| ->]; reflexivity.
  - intros [|def defs] limit Hne Hlimit Hlt; [contradiction|].
    unfold apiGenerateBatch, try_catch, exceeds. rewrite Hlimit.
    replace (limit <? Z.of_nat (List.length (def :: defs))) with true
      by (symmetry; now apply Z.ltb_lt).
    reflexivity.
  - unfold maxBatchSize. intros [->| ->]; reflexivity.
Qed.

(** X16. An accepted batch without a null element is answered item by
    item: there is one result per definition, in the order of the
    definitions and under their names; the summary counts the results by
    kind, so that disk hits, memory hits, generated and failed items add
    up to the total; and the cache directory is not written to.  A limit
    that does not parse as a number limits nothing. *)
Theorem apiGenerateBatch_accounts (env : Env) (definitions : list LayerDefinition)
    (w : World) :
  definitions <> [] ->
  (forall limit, maxBatchSize env = Some limit ->
                 Z.of_nat (List.length definitions) <= limit) ->
  exists results w',
    apiGenerateBatch env (Some (map Some definitions)) w =
      (Return (batch_done results (List.length definitions)
                 (countBatch isDiskHit results) (countBatch isMemoryHit results)
                 (countBatch isBatchGenerated results)), w') /\
    Forall2 (fun def r => batch_name r = bodyTypeName def) definitions results /\
    (countBatch isDiskHit results + countBatch isMemoryHit results
     + countBatch isBatchGenerated results + countBatch isBatchError results)%nat
      = List.length definitions /\
    disk w' = disk w.
Proof.
  intros Hne Hlimit.
  destruct (generateBatch_loop definitions (mkBatchTally [] 0 0 0) w)
    as (rs & w' & Hloop & Hnames & Hd & _).
  assert (List.length rs = List.length definitions) as Hlen.
  { symmetry. eapply Forall2_length, Hnames. }
  exists rs, w'. split; [|split; [exact Hnames|split; [|exact Hd]]].
  - destruct definitions as [|def defs]; [contradiction|].
    assert (exceeds (map Some (def :: defs)) (maxBatchSize env) = false) as Hex.
    { unfold exceeds. destruct (maxBatchSize env) as [limit|]; [|reflexivity].
      apply Z.ltb_ge. rewrite length_map. now apply Hlimit. }
    change (map Some (def :: defs)) with (Some def :: map Some defs) in *.
    unfold apiGenerateBatch, try_catch. cbv zeta. rewrite Hex.
    unfold generateBatch. run. rewrite Hloop. simpl. now rewrite Hlen.
  - rewrite countBatch_partition. exact Hlen.
Qed.

(** X17. The batch handler treats a definition that has a body type and
    layers as the single-request handler treats it after its checks: the
    same lookup in the disk cache, then in the memory cache under the same
    key, then the same rendering and the same store, so both leave the same
    world; the item is reported as DISK-HIT, MEMORY-HIT or GENERATED where
    the single request is answered DISK-HIT, MEMORY-HIT or MISS, with the
    bytes in base64, and is never reported as failed.  The batch handler
    applies none of the checks on the layers. *)
Theorem batch_item_like_single_request (acc : BatchTally) (def : LayerDefinition)
    (ls : list Layer) (w : World) :
  bodyTypeName def <> EmptyString ->
  layers def = Some ls ->
  exists x k buf w',
    resolve (bodyTypeName def) ls w = (Return (Png x k buf), w') /\
    generateBatchItem acc def w =
      (Return (tallied acc (batchEntry (bodyTypeName def) x k buf)), w').
Proof.
  intros Hb Hls.
  destruct (resolve_answers w (bodyTypeName def) ls Hb) as (x & k & buf & w' & Hres & _).
  exists x, k, buf, w'. split; [exact Hres|].
  now rewrite (generateBatchItem_as_resolve acc def ls w Hls), Hres.
Qed.

(** X18. A definition that is in no cache and comes twice in one batch is
    rendered once: the first item is reported as GENERATED, the second as
    MEMORY-HIT with the same bytes. *)
Theorem batch_renders_duplicate_once (env : Env) (def : LayerDefinition)
    (ls : list Layer) (key : string) (e : Errno) (w : World) :
  bodyTypeName def <> EmptyString ->
  layers def = Some ls ->
  generateCacheKey (bodyTypeName def) (Some ls) = Return key ->
  readFile (disk w) (getCachePath key) = inl e ->
  liveEntry w (JSON.stringify (bodyTypeName def) ls) = None ->
  (forall limit, maxBatchSize env = Some limit -> 2 <= limit) ->
  exists canvas w',
    generateSpritesheet def = Return canvas /\
    apiGenerateBatch env (Some [Some def; Some def]) w =
      (Return (batch_done
                 [batch_generated (bodyTypeName def) (Base64.encode (toBuffer canvas))
                                  (List.length (toBuffer canvas));
                  batch_memory_hit (bodyTypeName def) (Base64.encode (toBuffer canvas))
                                   (List.length (toBuffer canvas))]
                 2 0 1 1), w').
Proof.
  intros Hb Hls Hk Hr Hlive Hlimit.
  destruct (resolve_miss w (bodyTypeName def) ls key e Hb Hk Hr Hlive)
    as (canvas & w1 & Hgen & Hres & Hd & Hn & Hstored & _).
  assert (liveEntry w1 (JSON.stringify (bodyTypeName def) ls) = Some (toBuffer canvas))
    as Hlive1.
  { unfold liveEntry. rewrite Hstored. unfold expired, stdTTL.
    replace (now w + 3600 * 1000 <? now w1) with false
      by (symmetry; apply Z.ltb_ge; lia).
    now rewrite andb_false_r. }
  assert (readFile (disk w1) (getCachePath key) = inl e) as Hr1 by now rewrite Hd.
  pose proof (resolve_memory_hit w1 (bodyTypeName def) ls key e _ Hk Hr1 Hlive1) as Hres1.
  exists canvas. eexists. split.
  { destruct def as [b l]. simpl in *. now subst l. }
  assert (exceeds [Some def; Some def] (maxBatchSize env) = false) as Hex.
  { unfold exceeds. destruct (maxBatchSize env) as [limit|]; [|reflexivity].
    apply Z.ltb_ge. simpl. specialize (Hlimit limit eq_refl). lia. }
  unfold apiGenerateBatch, try_catch. cbv zeta. rewrite Hex.
  unfold generateBatch. simpl. run.
  change (generateBatchTurn ?a (Some def)) with (generateBatchItem a def).
  rewrite (generateBatchItem_as_resolve _ def ls w Hls), Hres.
  rewrite (generateBatchItem_as_resolve _ def ls w1 Hls), Hres1.
  reflexivity.
Qed.

(** X19. A null element is not isolated like a definition that fails: the
    loop stops at it and the handler answers 500 for the whole batch, with
    no result for the definitions before it, although they have been
    handled (their renderings are in the memory cache). *)
Theorem apiGenerateBatch_null_aborts (env : Env) (definitions : list LayerDefinition)
    (rest : list (option LayerDefinition)) (w : World) :
  (forall limit, maxBatchSize env = Some limit ->
                 Z.of_nat (List.length (map Some definitions ++ None :: rest)) <= limit) ->
  exists acc w',
    for_of (map Some definitions) generateBatchTurn (mkBatchTally [] 0 0 0) w
      = (Return acc, w') /\
    List.length (batch_results acc) = List.length definitions /\
    apiGenerateBatch env (Some (map Some definitions ++ None :: rest)) w =
      (Return (batch_rejected 500 "Batch generation failed"
                 "Cannot destructure property 'bodyTypeName' of 'def' as it is null."),
       w').
Proof.
  intros Hlimit.
  destruct (generateBatch_loop definitions (mkBatchTally [] 0 0 0) w)
    as (rs & w' & Hloop & Hnames & _).
  eexists _, w'. split; [exact Hloop|]. split.
  { simpl. symmetry. eapply Forall2_length, Hnames. }
  assert (exceeds (map Some definitions ++ None :: rest) (maxBatchSize env) = false)
    as Hex.
  { unfold exceeds. destruct (maxBatchSize env) as [limit|]; [|reflexivity].
    apply Z.ltb_ge. now apply Hlimit. }
  unfold apiGenerateBatch, try_catch.
  destruct (map Some definitions ++ None :: rest) as [|def defs] eqn:Hbody.
  { now destruct definitions. }
  cbv zeta. rewrite Hex, <- Hbody.
  unfold generateBatch. run. rewrite for_of_app, Hloop. reflexivity.
Qed.

End BatchFacts.

Lemma apiGenerateBatch_null_aborts_witness :
  exists acc w',
    for_of (map Some [mkDef "male" (Some [layerRed])]) generateBatchTurn
        (mkBatchTally [] 0 0 0) freshWorld = (Return acc, w') /\
    List.length (batch_results acc) = 1%nat /\
    apiGenerateBatch (mkEnv None None) (Some [Some (mkDef "male" (Some [layerRed])); None])
        freshWorld =
      (Return (batch_rejected 500 "Batch generation failed"
                 "Cannot destructure property 'bodyTypeName' of 'def' as it is null."),
       w').
Proof.
  apply (apiGenerateBatch_null_aborts (mkEnv None None) [mkDef "male" (Some [layerRed])]
           [] freshWorld).
  intros limit [= <-]. simpl. lia.
Defined.

Lemma apiGenerateBatch_rejects_witness :
  apiGenerateBatch (mkEnv None None) (Some []) freshWorld =
    (Return (batch_rejected 400 "Invalid request"
               "Request body must be a non-empty array of layer definitions"), freshWorld) /\
  apiGenerateBatch (mkEnv None (Some "1"))
      (Some [Some (mkDef "male" (Some [layerRed])); Some (mkDef "male" (Some [layerGreen]))])
      freshWorld =
    (Return (batch_rejected 400 "Too many requests"
               ("Maximum " +:+ JSON.number 1 +:+ " spritesheets per batch request")),
     freshWorld) /\
  maxBatchSize (mkEnv None None) = Some 200.
Proof.
  split; [|split].
  - apply (proj1 (apiGenerateBatch_rejects (mkEnv None None) freshWorld)). now right.
  - apply (proj1 (proj2 (apiGenerateBatch_rejects (mkEnv None (Some "1")) freshWorld))).
    + discriminate.
    + reflexivity.
    + simpl. lia.
  - apply (proj2 (proj2 (apiGenerateBatch_rejects (mkEnv None None) freshWorld))). now left.
Defined.

Lemma apiGenerateBatch_accounts_witness :
  exists results w',
    apiGenerateBatch (mkEnv None (Some "many"))
        (Some [Some (mkDef "" None); Some (mkDef "male" (Some [layerRed]))]) cachedWorld =
      (Return (batch_done results 2
                 (countBatch isDiskHit results) (countBatch isMemoryHit results)
                 (countBatch isBatchGenerated results)), w') /\
    Forall2 (fun def r => batch_name r = bodyTypeName def)
      [mkDef "" None; mkDef "male" (Some [layerRed])] results /\
    (countBatch isDiskHit results + countBatch isMemoryHit results
     + countBatch isBatchGenerated results + countBatch isBatchError results)%nat = 2%nat /\
    disk w' = disk cachedWorld.
Proof.
  apply (apiGenerateBatch_accounts (mkEnv None (Some "many"))
           [mkDef "" None; mkDef "male" (Some [layerRed])] cachedWorld).
  - discriminate.
  - intros limit Hlimit. vm_compute in Hlimit. discriminate Hlimit.
Defined.

Example apiGenerateBatch_example :
  fst (apiGenerateBatch (mkEnv None None)
         (Some [Some (mkDef "" None); Some (mkDef "male" (Some [layerRed]))]) cachedWorld)
  = Return (batch_done
              [batch_error "" "Invalid layer definition: missing bodyTypeName or layers array";
               batch_disk_hit "male" (Some redKey) "iVBORw==" 4]
              2 1 0 0).
Proof. vm_compute. reflexivity. Qed.

Lemma batch_item_like_single_request_witness :
  exists x k buf w',
    resolve "male" [] freshWorld = (Return (Png x k buf), w') /\
    generateBatchItem (mkBatchTally [] 0 0 0) (mkDef "male" (Some [])) freshWorld =
      (Return (tallied (mkBatchTally [] 0 0 0) (batchEntry "male" x k buf)), w').
Proof.
  apply (batch_item_like_single_request (mkBatchTally [] 0 0 0) (mkDef "male" (Some []))
           [] freshWorld).
  - discriminate.
  - reflexivity.
Defined.

Lemma batch_renders_duplicate_once_witness :
  exists canvas w',
    generateSpritesheet (mkDef "male" (Some [layerRed])) = Return canvas /\
    apiGenerateBatch (mkEnv None None)
        (Some [Some (mkDef "male" (Some [layerRed])); Some (mkDef "male" (Some [layerRed]))])
        freshWorld =
      (Return (batch_done
                 [batch_generated "male" (Base64.encode (toBuffer canvas))
                                  (List.length (toBuffer canvas));
                  batch_memory_hit "male" (Base64.encode (toBuffer canvas))
                                   (List.length (toBuffer canvas))]
                 2 0 1 1), w').
Proof.
  apply (batch_renders_duplicate_once (mkEnv None None) (mkDef "male" (Some [layerRed]))
           [layerRed] redKey ENOENT freshWorld).
  - discriminate.
  - reflexivity.
  - exact redKey_is_key.
  - reflexivity.
  - reflexivity.
  - intros limit [= <-]. lia.
Defined.

(** ** The administration router *)

Lemma or_else_Some (value fallback : option string) (s : string) :
  or_else value fallback = Some s <->
  (value = Some s /\ s <> EmptyString) \/
  ((value = None \/ value = Some EmptyString) /\ fallback = Some s).
Proof.
  unfold or_else. destruct value as [v|].
  - destruct (String.eqb v EmptyString) eqn:Hv.
    + apply String.eqb_eq in Hv. subst v. split.
      * intros ->. right. auto.
      * intros [[[= <-] Hne]|[_ ->]]; [now contradiction Hne | reflexivity].
    + apply String.eqb_neq in Hv. split.
      * intros [= <-]. left. auto.
      * intros [[[= <-] _]|[[[=]|[= ->]] _]]; [reflexivity | now contradiction Hv].
  - split.
    + intros ->. right. auto.
    + intros [[[=] _]|[_ ->]]. reflexivity.
Qed.

Section AdminFacts.
Context `{R : Runtime}.

(** X20. The guard of the administration routes.  A request passes exactly
    when the server has a non-empty ADMIN_API_KEY and the request presents
    that key, in the [x-api-key] header or, when that header is missing or
    empty, in the [apiKey] query parameter (a header with another value is
    not overridden by the query).  Every other request is answered by the
    guard, 500 when no key is configured and 401 otherwise, and no route
    runs: the world is left as it is. *)
Theorem adminAuth_guards (env : Env) (req : AdminRequest) (w : World) :
  (adminAuth env req = None <->
   exists key,
     ADMIN_API_KEY env = Some key /\ key <> EmptyString /\
     (header_x_api_key req = Some key \/
      ((header_x_api_key req = None \/ header_x_api_key req = Some EmptyString) /\
       query_apiKey req = Some key))) /\
  (adminAuth env req <> None ->
   exists status error msg,
     admin env req w = (Return (admin_error status error msg), w) /\
     (status = 500 /\ (ADMIN_API_KEY env = None \/ ADMIN_API_KEY env = Some EmptyString) \/
      status = 401 /\ exists key, ADMIN_API_KEY env = Some key /\ key <> EmptyString)).
Proof.
  unfold admin, adminAuth.
  destruct (or_else (ADMIN_API_KEY env) None) as [key|] eqn:Hkey.
  - apply or_else_Some in Hkey as [[Hkey Hne]|[_ [=]]].
    destruct (bool_decide (or_else (header_x_api_key req) (query_apiKey req) = Some key))
      eqn:Hpresented.
    + apply bool_decide_eq_true in Hpresented. split; [|now intros []].
      split; [intros _|reflexivity].
      exists key. split; [exact Hkey|]. split; [exact Hne|].
      apply or_else_Some in Hpresented as [[Hh _]|Hq]; auto.
    + apply bool_decide_eq_false in Hpresented. split.
      * split; [discriminate|]. intros (key' & Hkey' & Hne' & Hp). exfalso.
        assert (key' = key) as -> by congruence.
        apply Hpresented, or_else_Some. destruct Hp as [Hh|Hq]; auto.
      * intros _. eexists _, _, _. split; [reflexivity|]. right. split; [reflexivity|].
        now exists key.
  - split.
    + split; [discriminate|]. intros (key & Hk & Hne & _). exfalso.
      assert (or_else (ADMIN_API_KEY env) None = Some key) as Hc
        by (apply or_else_Some; auto).
      congruence.
    + intros _. eexists _, _, _. split; [reflexivity|]. left. split; [reflexivity|].
      unfold or_else in Hkey. destruct (ADMIN_API_KEY env) as [k|]; [|now left].
      destruct (String.eqb k EmptyString) eqn:Hk; [|discriminate].
      apply String.eqb_eq in Hk. subst k. now right.
Qed.

Lemma admin_authorised (env : Env) (req : AdminRequest) (w : World) :
  adminAuth env req = None -> admin env req w = adminHandler (route req) w.
Proof. unfold admin. now intros ->. Qed.


(** X22. The route that clears the cache answers 200 in every case.  The
    body has [success: true] with the number of removed entries and no
    error, or, when the listing or a removal failed, [success: false] with
    a count of 0 and the error, under the same message
    [Cache cleared successfully].  Entries whose name does not end in [.png]
    and the memory cache are never touched. *)
Theorem admin_clear_route (env : Env) (req : AdminRequest) (w : World) :
  adminAuth env req = None ->
  route req = DELETE_cache_clear ->
  exists s n e w',
    admin env req w = (Return (admin_cleared s "Cache cleared successfully" n e), w') /\
    (s = true /\ e = None \/ s = false /\ n = 0%nat /\ is_Some e) /\
    (dir_exists (disk w) = false -> s = false /\ disk w' = disk w) /\
    (dir_exists (disk w) = true -> sound (disk w) ->
     s = true /\ n = List.length (pngEntries (disk w))) /\
    cache w' = cache w /\
    (forall f, endsWith f ".png" = false -> files (disk w') !! f = files (disk w) !! f).
Proof.
  intros Hauth Hroute. rewrite (admin_authorised env req w Hauth), Hroute.
  unfold adminHandler. run. rewrite clearCache_cases.
  destruct (dir_exists (disk w)) eqn:Hdir.
  - pose proof (unlinkEach_frame (pngEntries (disk w)) (emit EvReaddir w)) as Hframe.
    pose proof (unlinkEach_cache (pngEntries (disk w)) (emit EvReaddir w)) as Hcache.
    assert (forall f, endsWith f ".png" = false -> ~ In f (pngEntries (disk w))) as Hnot.
    { intros f Hf Hin. apply pngEntries_In in Hin as [_ Hin]. congruence. }
    destruct (unlinkEach (pngEntries (disk w)) (emit EvReaddir w)) as [[[]|e] w'] eqn:Hrun;
      simpl in Hframe, Hcache.
    + eexists _, _, _, _. split; [reflexivity|]. split; [now left|].
      split; [discriminate|]. split; [easy|]. split; [exact Hcache|].
      intros f Hf. now apply Hframe, Hnot.
    + eexists _, _, _, _. split; [reflexivity|]. split; [right; eauto|].
      split; [discriminate|]. split.
      * intros _ Hsound.
        destruct (unlinkEach_all (pngEntries (disk w)) (emit EvReaddir w))
          as (w2 & Hok & _); try assumption.
        { apply NoDup_ListNoDup, pngEntries_NoDup. }
        { intros f Hf. now apply pngEntries_In in Hf as [? _]. }
        congruence.
      * split; [exact Hcache|]. intros f Hf. now apply Hframe, Hnot.
  - eexists _, _, _, _. split; [reflexivity|]. split; [right; eauto|].
    split; [easy|]. split; [discriminate|]. easy.
Qed.

(** X23. The warm-up route loads nothing: it lists the cache directory and
    answers the number of entries whose name ends in [.png] (0 when the
    directory does not exist); no entry is read, and the memory cache and
    the cache directory are as before. *)
Theorem admin_warmup_route (env : Env) (req : AdminRequest) (w : World) :
  adminAuth env req = None ->
  route req = POST_cache_warmup ->
  exists n w',
    admin env req w =
      (Return (admin_warmed ("Warmed up " +:+ JSON.number (Z.of_nat n)
                                          +:+ " cached spritesheets") n), w') /\
    n = (if dir_exists (disk w) then List.length (pngEntries (disk w)) else 0%nat) /\
    trace w' = trace w ++ [EvReaddir] /\
    same_stores w w'.
Proof.
  intros Hauth Hroute. rewrite (admin_authorised env req w Hauth), Hroute.
  unfold adminHandler. run. rewrite listCachedSpritesheets_run.
  eexists _, _. split; [reflexivity|].
  split; [now destruct (dir_exists (disk w))|]. repeat split.
Qed.

End AdminFacts.

Lemma adminAuth_guards_witness :
  adminAuth (mkEnv (Some "secret") None)
    (mkAdminRequest (Some "guess") (Some "secret") GET_cache_stats) <> None /\
  exists status error msg,
    admin (mkEnv (Some "secret") None)
      (mkAdminRequest (Some "guess") (Some "secret") GET_cache_stats) mixedWorld
      = (Return (admin_error status error msg), mixedWorld) /\
    (status = 500 /\ (ADMIN_API_KEY (mkEnv (Some "secret") None) = None \/
                      ADMIN_API_KEY (mkEnv (Some "secret") None) = Some EmptyString) \/
     status = 401 /\ exists key, ADMIN_API_KEY (mkEnv (Some "secret") None) = Some key /\
                                 key <> EmptyString).
Proof.
  assert (adminAuth (mkEnv (Some "secret") None)
            (mkAdminRequest (Some "guess") (Some "secret") GET_cache_stats) <> None) as H
    by discriminate.
  split; [exact H|].
  exact (proj2 (adminAuth_guards (mkEnv (Some "secret") None)
                  (mkAdminRequest (Some "guess") (Some "secret") GET_cache_stats)
                  mixedWorld) H).
Defined.


Lemma admin_clear_route_witness :
  exists s n e w',
    admin (mkEnv (Some "secret") None)
      (mkAdminRequest (Some "secret") None DELETE_cache_clear) faultyWorld
      = (Return (admin_cleared s "Cache cleared successfully" n e), w') /\
    (s = true /\ e = None \/ s = false /\ n = 0%nat /\ is_Some e) /\
    (dir_exists (disk faultyWorld) = false -> s = false /\ disk w' = disk faultyWorld) /\
    (dir_exists (disk faultyWorld) = true -> sound (disk faultyWorld) ->
     s = true /\ n = List.length (pngEntries (disk faultyWorld))) /\
    cache w' = cache faultyWorld /\
    (forall f, endsWith f ".png" = false ->
               files (disk w') !! f = files (disk faultyWorld) !! f).
Proof.
  apply (admin_clear_route (mkEnv (Some "secret") None)
           (mkAdminRequest (Some "secret") None DELETE_cache_clear) faultyWorld);
    reflexivity.
Defined.

Example admin_clear_route_failure :
  exists msg,
    fst (admin (mkEnv (Some "secret") None)
           (mkAdminRequest (Some "secret") None DELETE_cache_clear) faultyWorld)
    = Return (admin_cleared false "Cache cleared successfully" 0 (Some msg)).
Proof. eexists. vm_compute. reflexivity. Qed.

Lemma admin_warmup_route_witness :
  exists n w',
    admin (mkEnv (Some "secret") None)
      (mkAdminRequest (Some "secret") None POST_cache_warmup) mixedWorld =
      (Return (admin_warmed ("Warmed up " +:+ JSON.number (Z.of_nat n)
                                          +:+ " cached spritesheets") n), w') /\
    n = (if dir_exists (disk mixedWorld) then List.length (pngEntries (disk mixedWorld))
         else 0%nat) /\
    trace w' = trace mixedWorld ++ [EvReaddir] /\
    same_stores mixedWorld w'.
Proof.
  apply (admin_warmup_route (mkEnv (Some "secret") None)
           (mkAdminRequest (Some "secret") None POST_cache_warmup) mixedWorld);
    reflexivity.
Defined.

(** ** Pre-generation and the requests that follow *)

Section PreGenerateMore.
Context `{R : Runtime}.

Lemma readFile_inr (d : Disk) (p : string) (buf : Buffer) :
  readFile d p = inr buf -> files d !! p = Some buf.
Proof.
  unfold readFile. destruct (dir_exists d); [|discriminate].
  destruct (faults d !! p); [discriminate|].
  destruct (files d !! p); [now intros [= ->] | discriminate].
Qed.

(** What one step on a working medium does to the entries that can be
    read: they stay. *)
Lemma preGenerated_keeps (d d' : Disk) (def : LayerDefinition) (r : ItemResult)
    (p : string) (buf : Buffer) :
  preGenerated d def r d' -> sound d -> sound d' ->
  readFile d p = inr buf -> readFile d' p = inr buf.
Proof.
  intros Hstep Hsound [Hf' _] Hread. inversion Hstep; subst; try assumption.
  - match goal with Hnc : notCached d def, Hk : generateCacheKey _ _ = Return ?key |- _ =>
      destruct (Hnc key Hk) as [e He] end.
    rewrite readFile_sound by assumption.
    match goal with Hfiles : files d' = _ |- _ => rewrite Hfiles end.
    rewrite lookup_insert_ne by congruence.
    now rewrite (readFile_inr d p buf Hread).
  - match goal with Hput : putFails _ _ _ _ |- _ =>
      now apply putFails_unsound in Hput end.
Qed.

(** After it, a definition that renders has its entry. *)
Lemma preGenerated_caches (d d' : Disk) (def : LayerDefinition) (r : ItemResult)
    (canvas : Canvas) (key : string) :
  preGenerated d def r d' -> sound d -> sound d' ->
  generateSpritesheet def = Return canvas ->
  generateCacheKey (bodyTypeName def) (layers def) = Return key ->
  exists buf, readFile d' (getCachePath key) = inr buf.
Proof.
  intros Hstep Hsound [Hf' _] Hgen Hkey. inversion Hstep; subst.
  - match goal with Hk : generateCacheKey _ _ = Return ?key0 |- _ =>
      assert (key0 = key) as -> by congruence end.
    eauto.
  - congruence.
  - match goal with Hk : generateCacheKey _ _ = Return ?key0 |- _ =>
      assert (key0 = key) as -> by congruence end.
    eexists. rewrite readFile_sound by assumption.
    match goal with Hfiles : files d' = _ |- _ => rewrite Hfiles end.
    now rewrite lookup_insert_eq.
  - match goal with Hput : putFails _ _ _ _ |- _ =>
      now apply putFails_unsound in Hput end.
Qed.

(** After the loop on a working medium, what could be read can still be
    read, and every definition of the batch that renders has its entry. *)
Lemma preGenerate_loop_cached (defs : list LayerDefinition) (acc : Tally) (w : World) :
  sound (disk w) ->
  exists acc' w',
    for_of (map Some defs) preGenerateTurn acc w = (Return acc', w') /\
    sound (disk w') /\
    (forall p buf, readFile (disk w) p = inr buf -> readFile (disk w') p = inr buf) /\
    (forall def canvas key,
       In def defs -> generateSpritesheet def = Return canvas ->
       generateCacheKey (bodyTypeName def) (layers def) = Return key ->
       exists buf, readFile (disk w') (getCachePath key) = inr buf).
Proof.
  revert acc w. induction defs as [|def defs IH]; intros acc w Hsound.
  - exists acc, w. split; [reflexivity|]. split; [exact Hsound|]. split; [auto|].
    intros ? ? ? [].
  - destruct (preGenerateItem_step acc def w) as (r & w1 & Hstep & _ & _ & Hitem & Hs1).
    destruct (Hs1 Hsound) as [Hsound1 _].
    destruct (IH (mkTally (results acc ++ [r])
                          (generated acc + count isGenerated [r])
                          (alreadyCached acc + count isAlreadyCached [r])
                          (failed acc + count isFailed [r])) w1 Hsound1)
      as (acc' & w' & Hloop & Hsound' & Hkeep & Hall).
    exists acc', w'. split; [simpl; run; now rewrite preGenerateTurn_Some, Hstep|].
    split; [exact Hsound'|]. split.
    + intros p buf Hread. eapply Hkeep, preGenerated_keeps; eauto.
    + intros def' canvas key [<-|Hin] Hgen Hkey; [|eapply Hall; eauto].
      destruct (preGenerated_caches _ _ _ _ canvas key Hitem Hsound Hsound1 Hgen Hkey)
        as [buf Hbuf].
      exists buf. now apply Hkeep.
Qed.

(** The loop over definitions that each have their entry or do not render:
    nothing is rendered into the cache directory. *)
Lemma preGenerate_loop_settled (defs : list LayerDefinition) (acc : Tally) (w : World) :
  (forall def canvas key,
     In def defs -> generateSpritesheet def = Return canvas ->
     generateCacheKey (bodyTypeName def) (layers def) = Return key ->
     exists buf, readFile (disk w) (getCachePath key) = inr buf) ->
  exists rs w',
    for_of (map Some defs) preGenerateTurn acc w =
      (Return (mkTally (results acc ++ rs) (generated acc)
                       (alreadyCached acc + count isAlreadyCached rs)
                       (failed acc + count isFailed rs)), w') /\
    disk w' = disk w /\
    Forall2 (fun def r =>
               isGenerated r = false /\
               (forall canvas, generateSpritesheet def = Return canvas ->
                               isAlreadyCached r = true))
            defs rs.
Proof.
  revert acc w. induction defs as [|def defs IH]; intros acc w Hsettled.
  - exists [], w. simpl. rewrite app_nil_r, !Nat.add_0_r. destruct acc.
    repeat split. constructor.
  - destruct (preGenerateItem_step acc def w) as (r & w1 & Hstep & _ & _ & Hitem & _).
    assert (disk w1 = disk w /\ isGenerated r = false /\
            (forall canvas, generateSpritesheet def = Return canvas ->
                            isAlreadyCached r = true)) as (Hd1 & Hng & Hac).
    { assert (forall canvas key,
                notCached (disk w) def -> generateSpritesheet def = Return canvas ->
                generateCacheKey (bodyTypeName def) (layers def) = Return key -> False)
        as Hno.
      { intros canvas key Hnc Hg Hk.
        destruct (Hnc key Hk) as [e He].
        destruct (Hsettled def canvas key (or_introl eq_refl) Hg Hk) as [buf Hbuf].
        congruence. }
      inversion Hitem; subst.
      - repeat split; easy.
      - repeat split; try easy. intros canvas Hgen. congruence.
      - exfalso. eauto.
      - exfalso. eauto. }
    destruct (IH (mkTally (results acc ++ [r])
                          (generated acc + count isGenerated [r])
                          (alreadyCached acc + count isAlreadyCached [r])
                          (failed acc + count isFailed [r])) w1)
      as (rs & w' & Hloop & Hd & Hrs).
    { intros def' canvas key Hin. rewrite Hd1. apply Hsettled. now right. }
    exists (r :: rs), w'. simpl. run. rewrite preGenerateTurn_Some, Hstep, Hloop. simpl.
    rewrite <- app_assoc. simpl.
    change (r :: rs) with ([r] ++ rs). rewrite !count_app, !Nat.add_assoc.
    split.
    + unfold count at 1. simpl. rewrite Hng. simpl. now rewrite Nat.add_0_r.
    + split; [congruence|]. now constructor.
Qed.

(** X24. Pre-generation serves the requests that follow.  After a batch was
    pre-generated on a working medium, a request for any definition of the
    batch that passes the checks of the handler is answered from the disk
    cache (DISK-HIT, with its fingerprint), whatever the memory cache
    holds. *)
Theorem preGenerate_then_disk_hit (definitions : list LayerDefinition)
    (req : LayerDefinition) (w : World) :
  sound (disk w) ->
  In req definitions ->
  RenderPreconditions req ->
  exists summary results w1 key buf w2,
    preGenerate (Some (map Some definitions)) w
      = (Return (generate_done summary results), w1) /\
    generateCacheKey (bodyTypeName req) (layers req) = Return key /\
    apiGenerate req w1 = (Return (Png DISK_HIT (Some key) buf), w2).
Proof.
  intros Hsound Hin Hpre.
  destruct (preGenerate_loop_cached definitions (mkTally [] 0 0 0) w Hsound)
    as (acc' & w1 & Hloop & _ & _ & Hall).
  pose proof Hpre as [Hb (ls & Hls & _)].
  assert (validate req = inr ls) as Hv by (apply validate_accepts; auto).
  destruct (generateCacheKey_Some (bodyTypeName req) ls) as [key Hkey].
  pose proof (generateSpritesheet_returns req Hb ls Hls) as Hgen.
  rewrite <- Hls in Hkey.
  destruct (Hall req _ key Hin Hgen Hkey) as [buf Hbuf].
  eexists _, _, w1, key, buf, _. split.
  { unfold preGenerate. run. rewrite Hloop. reflexivity. }
  split; [exact Hkey|].
  apply apiGenerate_valid with ls; [exact Hv|].
  apply resolve_hit; [now rewrite <- Hls | exact Hbuf].
Qed.

(** X25. Pre-generating the same batch again on a working medium renders
    nothing into the cache: the second run reports no definition as
    generated, reports every definition that renders as already cached, and
    leaves the cache directory as the first run left it. *)
Theorem preGenerate_again_generates_nothing (definitions : list LayerDefinition)
    (w : World) :
  sound (disk w) ->
  exists response w1 summary results w2,
    preGenerate (Some (map Some definitions)) w = (Return response, w1) /\
    preGenerate (Some (map Some definitions)) w1
      = (Return (generate_done summary results), w2) /\
    sum_generated summary = 0%nat /\
    disk w2 = disk w1 /\
    Forall2 (fun def r =>
               isGenerated r = false /\
               (forall canvas, generateSpritesheet def = Return canvas ->
                               isAlreadyCached r = true))
            definitions results.
Proof.
  intros Hsound.
  destruct (preGenerate_loop_cached definitions (mkTally [] 0 0 0) w Hsound)
    as (acc' & w1 & Hloop & Hsound1 & _ & Hall).
  destruct (preGenerate_loop_settled definitions (mkTally [] 0 0 0) w1 Hall)
    as (rs & w2 & Hloop2 & Hd & Hrs).
  eexists _, w1, _, rs, w2. split.
  { unfold preGenerate. run. rewrite Hloop. reflexivity. }
  split.
  { unfold preGenerate. run. rewrite Hloop2. reflexivity. }
  split; [reflexivity|]. split; [exact Hd | exact Hrs].
Qed.

End PreGenerateMore.

Lemma preGenerate_then_disk_hit_witness :
  exists summary results w1 key buf w2,
    preGenerate (Some (map Some [mkDef "" (Some [layerRed]); mkDef "male" (Some [layerRed])]))
        freshWorld
      = (Return (generate_done summary results), w1) /\
    generateCacheKey "male" (Some [layerRed]) = Return key /\
    apiGenerate (mkDef "male" (Some [layerRed])) w1
      = (Return (Png DISK_HIT (Some key) buf), w2).
Proof.
  apply (preGenerate_then_disk_hit
           [mkDef "" (Some [layerRed]); mkDef "male" (Some [layerRed])]
           (mkDef "male" (Some [layerRed])) freshWorld).
  - repeat split.
  - right. now left.
  - split; [discriminate|]. exists [layerRed]. split; [reflexivity|].
    split; [discriminate|]. repeat constructor; [discriminate | now eexists].
Defined.

Lemma preGenerate_again_generates_nothing_witness :
  exists response w1 summary results w2,
    preGenerate (Some (map Some [mkDef "" (Some [layerRed]); mkDef "male" (Some [layerRed])]))
        freshWorld = (Return response, w1) /\
    preGenerate (Some (map Some [mkDef "" (Some [layerRed]); mkDef "male" (Some [layerRed])]))
        w1 = (Return (generate_done summary results), w2) /\
    sum_generated summary = 0%nat /\
    disk w2 = disk w1 /\
    Forall2 (fun def r =>
               isGenerated r = false /\
               (forall canvas, generateSpritesheet def = Return canvas ->
                               isAlreadyCached r = true))
            [mkDef "" (Some [layerRed]); mkDef "male" (Some [layerRed])] results.
Proof.
  apply (preGenerate_again_generates_nothing
           [mkDef "" (Some [layerRed]); mkDef "male" (Some [layerRed])] freshWorld).
  repeat split.
Defined.

Example preGenerate_twice_example :
  fst (preGenerate (Some [Some (mkDef "" (Some [layerRed]));
                          Some (mkDef "male" (Some [layerRed]))])
         (snd (preGenerate (Some [Some (mkDef "" (Some [layerRed]));
                                  Some (mkDef "male" (Some [layerRed]))]) freshWorld)))
  = Return (generate_done (mkSummary 2 0 1 1)
              [item_failed "" "Invalid layer definition: missing bodyTypeName or layers array";
               item_already_cached "male" (Some redKey)]).
Proof. vm_compute. reflexivity. Qed.

(** ** The disk cache and the order of the layers *)

(** X26. What the sort of the fingerprint is for: on a working medium, a
    sheet saved for a definition is found by the lookup of the same layers
    in any other order, provided the collation separates the layers (no two
    distinct layers have file names that compare equal). *)
Theorem save_then_lookup_reordered `{R : Runtime} `{!CollationLaws R}
    (w : World) (b : string) (l1 l2 : list Layer) (buf : Buffer) :
  sound (disk w) ->
  Permutation l1 l2 ->
  (forall x y, In x l1 -> In y l1 ->
               byFileName x y <= 0 -> byFileName y x <= 0 -> x = y) ->
  exists key w1,
    saveCachedSpritesheet b (Some l1) buf w = (Return (Some key), w1) /\
    fst (getCachedSpritesheet b (Some l2) w1) = Return (mkCached (Some buf) (Some key) true).
Proof.
  intros Hsound Hperm Hsep.
  destruct (generateCacheKey_Some b l1) as [key Hkey].
  destruct (saveCachedSpritesheet_sound w b (Some l1) key buf Hsound Hkey)
    as (w1 & Hsave & [Hf1 Hwf1] & Hdir1 & Hfiles1 & _).
  exists key, w1. split; [exact Hsave|].
  rewrite (generateCacheKey_reorder b l1 l2 Hperm Hsep) in Hkey.
  erewrite getCachedSpritesheet_hit; [reflexivity | exact Hkey |].
  rewrite readFile_sound by assumption.
  rewrite Hfiles1, lookup_insert_eq. reflexivity.
Qed.

Lemma save_then_lookup_reordered_witness :
  exists key w1,
    saveCachedSpritesheet "male" (Some [layerRed; layerGreen]) png freshWorld
      = (Return (Some key), w1) /\
    fst (getCachedSpritesheet "male" (Some [layerGreen; layerRed]) w1)
      = Return (mkCached (Some png) (Some key) true).
Proof.
  apply (save_then_lookup_reordered (R := host) freshWorld "male"
           [layerRed; layerGreen] [layerGreen; layerRed] png).
  - repeat split.
  - apply perm_swap.
  - intros x y [<-|[<-|[]]] [<-|[<-|[]]]; vm_compute; intros Hxy Hyx;
      try reflexivity; exfalso; (now apply Hxy) || (now apply Hyx).
Defined.

(** ** Pre-generation on a medium that fails *)

Section FailingMedium.
Context `{R : Runtime}.

Lemma preGenerateItem_unsaved (acc : Tally) (def : LayerDefinition) (w : World)
    (e : Errno) :
  write_fault (disk w) = Some e ->
  bodyTypeName def <> EmptyString -> is_Some (layers def) ->
  notCached (disk w) def ->
  exists size w',
    preGenerateItem acc def w =
      (Return (mkTally (results acc ++ [item_generated (bodyTypeName def) None size])
                       (S (generated acc)) (alreadyCached acc) (failed acc)), w') /\
    disk w' = disk w.
Proof.
  intros Hwf Hb [ls Hls] Hnc.
  destruct (generateCacheKey_Some (bodyTypeName def) ls) as [key Hkey].
  rewrite <- Hls in Hkey.
  destruct (Hnc key Hkey) as [e0 Hmiss].
  pose proof (generateSpritesheet_returns def Hb ls Hls) as Hgen.
  set (canvas := fold_left _ _ _) in Hgen. clearbody canvas.
  assert (mkDef (bodyTypeName def) (layers def) = def) as Hdef by now destruct def.
  unfold preGenerateItem. run.
  rewrite (getCachedSpritesheet_miss w _ _ key e0 Hkey Hmiss). simpl.
  unfold render. rewrite Hdef, Hgen. simpl.
  set (w0 := emit (EvRender def) (emit (EvReadFile (getCachePath key)) w)).
  destruct (mkdir (disk w0)) as [e1|d] eqn:Hmk.
  - rewrite (saveCachedSpritesheet_mkdir_fails w0 _ _ key _ e1 Hkey Hmk).
    eexists _, _. split; [reflexivity|]. reflexivity.
  - assert (dir_exists (disk w) = true /\ d = disk w) as [Hdir ->].
    { unfold mkdir in Hmk. simpl in Hmk.
      destruct (dir_exists (disk w)); [now injection Hmk as <-|].
      rewrite Hwf in Hmk. discriminate. }
    assert (writeFile (disk w) (getCachePath key) (toBuffer canvas) = inl (e, disk w))
      as Hwr.
    { unfold writeFile. now rewrite Hdir, Hwf. }
    rewrite (saveCachedSpritesheet_write_fails w0 _ _ key _ (disk w) e (disk w)
               Hkey Hmk Hwr).
    eexists _, _. split; [reflexivity|]. reflexivity.
Qed.

(** X27. On a medium that refuses every change, pre-generation still
    reports success: each definition that renders and has no entry in the
    disk cache is counted as generated, with a null hash in its
    result, no definition is counted as failed, and the cache directory is
    as before, so nothing of what was reported as generated is stored. *)
Theorem preGenerate_reports_unsaved (definitions : list LayerDefinition) (w : World)
    (e : Errno) :
  write_fault (disk w) = Some e ->
  Forall (fun def => bodyTypeName def <> EmptyString /\ is_Some (layers def) /\
                     notCached (disk w) def) definitions ->
  exists results w',
    preGenerate (Some (map Some definitions)) w =
      (Return (generate_done
                 (mkSummary (List.length definitions) (List.length definitions) 0 0)
                 results), w') /\
    Forall2 (fun def r => exists size, r = item_generated (bodyTypeName def) None size)
      definitions results /\
    disk w' = disk w.
Proof.
  intros Hwf Hall.
  assert (forall acc w0, disk w0 = disk w ->
            exists rs w',
              for_of (map Some definitions) preGenerateTurn acc w0 =
                (Return (mkTally (results acc ++ rs)
                                 (generated acc + List.length definitions)
                                 (alreadyCached acc) (failed acc)), w') /\
              Forall2 (fun def r => exists size,
                                      r = item_generated (bodyTypeName def) None size)
                definitions rs /\
              disk w' = disk w) as Hloop.
  { induction Hall as [|def defs (Hb & Hls & Hnc) Hall IH]; intros acc w0 Hd0.
    - exists [], w0. simpl. rewrite app_nil_r, Nat.add_0_r. destruct acc.
      repeat split; [constructor | exact Hd0].
    - destruct (preGenerateItem_unsaved acc def w0 e) as (size & w1 & Hstep & Hd1);
        try (rewrite Hd0; assumption); try assumption.
      destruct (IH (mkTally (results acc ++ [item_generated (bodyTypeName def) None size])
                            (S (generated acc)) (alreadyCached acc) (failed acc)) w1)
        as (rs & w' & Hrun & Hrs & Hd); [congruence|].
      exists (item_generated (bodyTypeName def) None size :: rs), w'.
      split; [|split; [constructor; eauto | exact Hd]].
      simpl. run. rewrite preGenerateTurn_Some, Hstep, Hrun. simpl.
      rewrite <- app_assoc. simpl. repeat f_equal. lia. }
  destruct (Hloop (mkTally [] 0 0 0) w eq_refl) as (rs & w' & Hrun & Hrs & Hd).
  exists rs, w'. split; [|split; assumption].
  unfold preGenerate. run. rewrite Hrun. simpl. now rewrite length_map.
Qed.

(** X28. Writes are not atomic.  On a medium where a write breaks off
    after [written] bytes, pre-generating a definition that has no entry
    leaves the first [written] bytes of its sheet under its fingerprint and
    reports the definition as generated, with no hash; the next request for
    the definition is then answered from the disk cache with those bytes. *)
Theorem preGenerate_partial_entry_served (req : LayerDefinition) (w : World)
    (written : nat) (e : Errno) :
  dir_exists (disk w) = true -> faults (disk w) = ∅ -> write_fault (disk w) = None ->
  write_breaks (disk w) = Some (written, e) ->
  RenderPreconditions req ->
  notCached (disk w) req ->
  exists canvas key w1 w2,
    generateSpritesheet req = Return canvas /\
    generateCacheKey (bodyTypeName req) (layers req) = Return key /\
    preGenerate (Some [Some req]) w =
      (Return (generate_done (mkSummary 1 1 0 0)
                 [item_generated (bodyTypeName req) None (List.length (toBuffer canvas))]),
       w1) /\
    files (disk w1) !! getCachePath key = Some (firstn written (toBuffer canvas)) /\
    apiGenerate req w1 =
      (Return (Png DISK_HIT (Some key) (firstn written (toBuffer canvas))), w2).
Proof.
  intros Hdir Hf Hwf Hwb Hpre Hnc.
  pose proof Hpre as [Hb (ls & Hls & _)].
  assert (validate req = inr ls) as Hv by (apply validate_accepts; auto).
  destruct (generateCacheKey_Some (bodyTypeName req) ls) as [key Hkey].
  rewrite <- Hls in Hkey.
  destruct (Hnc key Hkey) as [e0 Hmiss].
  pose proof (generateSpritesheet_returns req Hb ls Hls) as Hgen.
  set (canvas := fold_left _ _ _) in Hgen. clearbody canvas.
  assert (mkDef (bodyTypeName req) (layers req) = req) as Hdef by now destruct req.
  set (d' := mkDisk true (<[getCachePath key := firstn written (toBuffer canvas)]>
                            (files (disk w))) ∅ None (Some (written, e))).
  assert (mkdir (disk w) = inr (disk w)) as Hmk by (unfold mkdir; now rewrite Hdir).
  assert (writeFile (disk w) (getCachePath key) (toBuffer canvas) = inl (e, d')) as Hwr.
  { unfold writeFile. now rewrite Hdir, Hwf, Hf, lookup_empty, Hwb. }
  assert (readFile d' (getCachePath key) = inr (firstn written (toBuffer canvas))) as Hread.
  { unfold readFile, d'. simpl. rewrite lookup_empty, lookup_insert_eq. reflexivity. }
  exists canvas, key. eexists _, _. split; [exact Hgen|]. split; [exact Hkey|].
  split; [|split].
  - unfold preGenerate. simpl. run. rewrite preGenerateTurn_Some.
    unfold preGenerateItem. run.
    rewrite (getCachedSpritesheet_miss w _ _ key e0 Hkey Hmiss). simpl.
    unfold render. rewrite Hdef, Hgen. simpl.
    rewrite (saveCachedSpritesheet_write_fails
               (emit (EvRender req) (emit (EvReadFile (getCachePath key)) w))
               _ _ key _ (disk w) e d' Hkey Hmk Hwr).
    reflexivity.
  - simpl. apply lookup_insert_eq.
  - apply apiGenerate_valid with ls; [exact Hv|].
    apply resolve_hit; [now rewrite <- Hls | exact Hread].
Qed.

End FailingMedium.

Lemma preGenerate_reports_unsaved_witness :
  exists results w',
    preGenerate (Some (map Some [mkDef "male" (Some [layerRed]);
                                 mkDef "male" (Some [layerGreen])]))
        (mkWorld (mkDisk true ∅ ∅ (Some EACCES) None) ∅ 0 []) =
      (Return (generate_done (mkSummary 2 2 0 0) results), w') /\
    Forall2 (fun def r => exists size, r = item_generated (bodyTypeName def) None size)
      [mkDef "male" (Some [layerRed]); mkDef "male" (Some [layerGreen])] results /\
    disk w' = mkDisk true ∅ ∅ (Some EACCES) None.
Proof.
  apply (preGenerate_reports_unsaved
           [mkDef "male" (Some [layerRed]); mkDef "male" (Some [layerGreen])]
           (mkWorld (mkDisk true ∅ ∅ (Some EACCES) None) ∅ 0 []) EACCES).
  - reflexivity.
  - assert (forall def, notCached (mkDisk true ∅ ∅ (Some EACCES) None) def) as Hnc.
    { intros def key _. exists ENOENT. unfold readFile. simpl. now rewrite lookup_empty. }
    constructor; [|constructor; [|constructor]].
    + split; [discriminate|]. split; [now eexists | apply Hnc].
    + split; [discriminate|]. split; [now eexists | apply Hnc].
Defined.

Lemma preGenerate_partial_entry_served_witness :
  exists canvas key w1 w2,
    generateSpritesheet (mkDef "male" (Some [layerRed])) = Return canvas /\
    generateCacheKey "male" (Some [layerRed]) = Return key /\
    preGenerate (Some [Some (mkDef "male" (Some [layerRed]))]) fullWorld =
      (Return (generate_done (mkSummary 1 1 0 0)
                 [item_generated "male" None (List.length (toBuffer canvas))]), w1) /\
    files (disk w1) !! getCachePath key = Some (firstn 0 (toBuffer canvas)) /\
    apiGenerate (mkDef "male" (Some [layerRed])) w1 =
      (Return (Png DISK_HIT (Some key) (firstn 0 (toBuffer canvas))), w2).
Proof.
  apply (preGenerate_partial_entry_served (mkDef "male" (Some [layerRed])) fullWorld
           0 ENOSPC).
  - reflexivity.
  - reflexivity.
  - reflexivity.
  - reflexivity.
  - split; [discriminate|]. exists [layerRed]. split; [reflexivity|].
    split; [discriminate|]. repeat constructor; [discriminate | now eexists].
  - intros key _. exists ENOENT. unfold readFile. simpl. now rewrite lookup_empty.
Defined.
